(** * pannellum-js-tiles-generator: a shallow embedding of the tile pipeline

    The development follows the TypeScript sources module by module:

    - [ConfigGenerator]  src/config-generator.ts (level count)
    - [MemoryManager]    src/utils/memory-manager.ts
    - [Reprojector]      src/reprojector.ts
    - [Tiler]            src/tiler.ts
    - [Descriptor]       src/config-generator.ts (generateConfig)
    - [ZipBuilder]       src/utils/zip-builder.ts
    - [PannellumTiler]   src/PannellumTiler.ts

    The browser and the libraries behind it (image decoding, WebGL limits,
    canvas encoding, archiving) are the fields of [Env].

    JavaScript numbers that hold pixel counts, levels and indices are
    modelled as [Z]; progress fractions and the encoder quality as [Q]
    (so NaN, the infinities and fractional sizes are outside the model).
    The one place where the rounding of doubles decides an integer result,
    the logarithm quotient of [calculateMaxLevel], is also modelled in
    IEEE 754 doubles ([ConfigGenerator.InDoubles]).
    Effects (callback invocations, GPU allocations and disposals, thrown
    errors) are threaded through a small state-and-error monad. *)

From Stdlib Require Import ZArith List String Ascii Lia QArith Bool DecimalString.
From Stdlib Require DecimalZ DecimalPos PrimFloat SpecFloat FloatOps.
Import ListNotations.
Open Scope Z_scope.

(* ================================================================== *)
(** * Numeric helpers shared by the modules *)
(* ================================================================== *)

Module Num.

(** [Math.ceil(a / b)] for integers [a] and [b <> 0]. *)
Definition ceil_div (a b : Z) : Z := - ((- a) / b).

(** Decimal rendering of an integer, as a template literal does. *)
Definition string_of_Z (z : Z) : string := NilZero.string_of_int (Z.to_int z).

(** [n] successive [Math.floor(r / 2)] steps. *)
Definition halve (r : Z) : Z := r / 2.

Fixpoint halve_iter (n : nat) (r : Z) : Z :=
  match n with
  | O => r
  | S n' => halve_iter n' (halve r)
  end.

End Num.

(* ================================================================== *)
(** * IEEE 754 doubles *)
(* ================================================================== *)

Module Float64.

Definition float : Set := PrimFloat.float.

(** The double nearest to [m * 2^e] (ties to even). *)
Definition scaled (m e : Z) : float :=
  FloatOps.SF2Prim
    (SpecFloat.binary_normalize FloatOps.prec FloatOps.emax m e false).

(** An integer as a JavaScript number; exact below 2^53. *)
Definition ofZ (z : Z) : float := scaled z 0.

(** [Math.ceil(x)] as an integer; [None] for NaN and the infinities. *)
Definition ceil (x : float) : option Z :=
  match FloatOps.Prim2SF x with
  | SpecFloat.S754_zero _ => Some 0
  | SpecFloat.S754_finite s m e =>
      let v := if s then Z.neg m else Z.pos m in
      Some (if 0 <=? e then v * 2 ^ e else - ((- v) / 2 ^ (- e)))
  | _ => None
  end.

End Float64.

(* ================================================================== *)
(** * src/config-generator.ts *)
(* ================================================================== *)

Module ConfigGenerator.
Import Num.

Inductive ImageFormat := jpeg | webp.

(** [metadata.imageFormat === 'webp' ? 'webp' : 'jpg'] *)
Definition extension (f : ImageFormat) : string :=
  match f with webp => "webp" | jpeg => "jpg" end.

(** [Math.ceil(Math.log(c / e) / Math.log(2))], taken at its exact real
    value: the least [k >= 0] with [c <= e * 2^k], for [1 <= e <= c].
    (The rounding of the two floating-point logarithms is the subject of
    [InDoubles] below.) *)
Definition ceilLog2Ratio (c e : Z) : Z := Z.log2_up (ceil_div c e).

(** [calculateMaxLevel(cubeResolution, tileSize)], for positive integer
    arguments, with the logarithm quotient at its exact real value. *)
Definition calculateMaxLevel (cubeResolution tileSize : Z) : Z :=
  let effectiveTileSize := Z.min tileSize cubeResolution in
  let levels := ceilLog2Ratio cubeResolution effectiveTileSize + 1 in
  let levels :=
    if (2 <=? levels)
       && (cubeResolution / 2 ^ (levels - 2) =? effectiveTileSize)
    then levels - 1 else levels in
  Z.max 1 levels.

(** The defining property of the ceiling of the binary logarithm of the
    ratio [c / e]. *)
Definition is_ceil_log2_ratio (c e k : Z) : Prop :=
  0 <= k /\ c <= e * 2 ^ k /\ (k = 0 \/ e * 2 ^ (k - 1) < c).


(** ** The level count as a JavaScript engine evaluates it

    [cubeResolution / effectiveTileSize] and the quotient of the two
    logarithms are correctly rounded divisions of doubles.  [Math.log] is
    an implementation-approximated function (ECMA-262, Math.log): the
    double it returns is the platform's, and is the parameter [log]. *)
Module InDoubles.

(** [Math.ceil(Math.log(c / e) / Math.log(2))] *)
Definition ceilLog2Ratio (log : Float64.float -> Float64.float) (c e : Z)
  : option Z :=
  Float64.ceil
    (PrimFloat.div (log (PrimFloat.div (Float64.ofZ c) (Float64.ofZ e)))
                   (log (Float64.ofZ 2))).

(** [calculateMaxLevel(cubeResolution, tileSize)] for integer arguments
    below 2^53.  Once the ceiling is taken every value is an integer far
    below 2^53, on which the addition, the power of two, the quotient by
    it, [Math.floor] and the comparisons are exact; they are written over
    [Z].  [None] is a result that is not a finite number. *)
Definition calculateMaxLevel (log : Float64.float -> Float64.float)
           (cubeResolution tileSize : Z) : option Z :=
  let effectiveTileSize := Z.min tileSize cubeResolution in
  match ceilLog2Ratio log cubeResolution effectiveTileSize with
  | None => None
  | Some ceiling =>
      let levels := ceiling + 1 in
      let levels :=
        if (2 <=? levels)
           && (cubeResolution / 2 ^ (levels - 2) =? effectiveTileSize)
        then levels - 1 else levels in
      Some (Z.max 1 levels)
  end.

End InDoubles.

(** The rounding of the logarithm quotient at [(cubeResolution, tileSize)]
    is harmless: the doubles yield the ceiling [k] of the real quotient, or
    [k + 1] where the ratio is exactly [2^k] (which the edge-case
    correction takes back). *)
Definition rounds_to_ceiling (log : Float64.float -> Float64.float)
           (cubeResolution tileSize : Z) : Prop :=
  let e := Z.min tileSize cubeResolution in
  exists k,
    is_ceil_log2_ratio cubeResolution e k
    /\ (InDoubles.ceilLog2Ratio log cubeResolution e = Some k
        \/ (InDoubles.ceilLog2Ratio log cubeResolution e = Some (k + 1)
            /\ cubeResolution = e * 2 ^ k)).

End ConfigGenerator.

(* ================================================================== *)
(** * src/types.ts and the run-time model *)
(* ================================================================== *)

(** A thrown JavaScript error, identified by its message. *)
Definition Error := string.

Inductive Stage := loading | reprojection | tiling | encoding | packaging.

Module ProgressInfo.
Record t := mk {
  stage : Stage;
  progress : Q;
  currentLevel : option Z;
  currentFace : option string;
  message : option string
}.
End ProgressInfo.

(** What a callback is invoked with: progress listeners receive a
    [ProgressInfo], error listeners an [Error]. *)
Inductive Payload :=
| OfProgress (info : ProgressInfo.t)
| OfError (err : Error).

(** A caller-supplied function.  Its identity is [cb_id]; its observable
    behaviour on an argument is to return normally ([None]) or to throw
    ([Some e]). *)
Record Callback := mkCallback {
  cb_id : nat;
  cb_run : Payload -> option Error
}.

(** Decoded source raster ([HTMLImageElement]). *)
Record Image := mkImage { naturalWidth : Z; naturalHeight : Z }.

Record FaceConfig := mkFaceConfig {
  fc_name : string;
  fc_target : Z * Z * Z;
  fc_up : Z * Z * Z
}.

(** Rasters are symbolic: a canvas is either a rendered cube face (already
    flipped so that row 0 is the visual top) or the result of
    [downscaleCanvas] applied to an earlier canvas. *)
Inductive Canvas :=
| FaceRender (image : Image) (cfg : FaceConfig) (resolution : Z)
| Downscaled (source : Canvas) (newSize : Z).

Record Blob := mkBlob { blob_type : string; blob_data : string }.

Definition blob_size (b : Blob) : Z := Z.of_nat (String.length (blob_data b)).

Module CubeFace.
Record t := mk { name : string; canvas : Canvas; resolution : Z }.
End CubeFace.

Module Tile.
Record t := mk {
  path : string;
  level : Z;
  face : string;
  x : Z;
  y : Z;
  blob : Blob;
  size : Z
}.
End Tile.

(** The arguments of one [drawImage] + encode request of [extractTile]. *)
Record EncodeRequest := mkEncodeRequest {
  er_source : Canvas;
  er_sx : Z; er_sy : Z; er_sw : Z; er_sh : Z;
  er_outputSize : Z;
  er_mimeType : string;
  er_quality : Q
}.

(** ** GPU-side objects *)

Inductive ResKind :=
| KCanvas | KRenderer | KTexture | KGeometry | KMaterial | KRenderTarget.

(** A disposable Three.js object: [res_dispose] tells whether its
    [dispose()] returns normally ([None]) or throws. *)
Record Resource := mkResource {
  res_kind : ResKind;
  res_id : nat;
  res_dispose : option Error
}.

(** A [WebGLRenderer] with its [domElement] canvas. *)
Record Renderer := mkRenderer {
  rnd_resource : Resource;
  rnd_domElement : nat
}.

Inductive GpuEvent :=
| Allocated (k : ResKind) (id : nat)
| RenderPass (id : nat) (faceName : string)
| Disposed (k : ResKind) (id : nat)
| ContextLost (id : nat)
| CanvasWidth (id : nat) (w : Z)
| CanvasHeight (id : nat) (h : Z).

(** The private fields of a [MemoryManager]; a JS [Set] is an
    insertion-ordered list without repeated objects. *)
Record Tracker := mkTracker {
  textures : list Resource;
  geometries : list Resource;
  materials : list Resource;
  renderTargets : list Resource;
  renderer : option Renderer
}.

(** The mutable world a call runs in: the log of callback invocations, the
    log of GPU events, the [MemoryManager] of the current [Reprojector],
    and a supply of fresh object identities. *)
Record World := mkWorld {
  calls : list (nat * Payload);
  gpu : list GpuEvent;
  memory : Tracker;
  next_id : nat
}.

(** External collaborators: the browser and the libraries behind it. *)
Record Env := mkEnv {
  (** [gl.getParameter(gl.MAX_TEXTURE_SIZE)] *)
  env_MAX_TEXTURE_SIZE : Z;
  (** image decoding: the load fractions reported, then the outcome *)
  env_loadImage : string + Blob -> list Q * (Error + Image);
  (** [calculateCubeResolution]: [8 * floor(w / PI / 8)] in floating point *)
  env_cubeResolution : Z -> Z -> Z;
  (** canvas crop, scale and encode *)
  env_encode : EncodeRequest -> Error + Blob;
  (** fflate's store-only [zip] of the named entries *)
  env_zip : list (string * Blob) -> Error + Blob
}.

(** ** The state-and-error monad *)

Inductive result (A : Type) :=
| Ok (a : A)
| Throw (e : Error).
Arguments Ok {A} a.
Arguments Throw {A} e.

Definition M (A : Type) : Type := World -> World * result A.

Definition ret {A} (a : A) : M A := fun w => (w, Ok a).

Definition throw {A} (e : Error) : M A := fun w => (w, Throw e).
Arguments throw {A} e%_string.

Definition bind {A B} (c : M A) (k : A -> M B) : M B :=
  fun w => match c w with
           | (w', Ok a) => k a w'
           | (w', Throw e) => (w', Throw e)
           end.

Notation "x <- c ;; k" := (bind c (fun x => k))
  (at level 61, c at next level, right associativity).
Notation "c ;;; k" := (bind c (fun _ => k))
  (at level 61, right associativity).

(** [try { c } catch (err) { h err }] *)
Definition try_catch {A} (c : M A) (h : Error -> M A) : M A :=
  fun w => match c w with
           | (w', Ok a) => (w', Ok a)
           | (w', Throw e) => h e w'
           end.

Definition lift {A} (r : Error + A) : M A :=
  match r with inl e => throw e | inr a => ret a end.

(** [for (const a of l) f(a)] *)
Fixpoint forM_ {A} (l : list A) (f : A -> M unit) : M unit :=
  match l with
  | [] => ret tt
  | a :: l' => f a ;;; forM_ l' f
  end.

Definition getMemory : M Tracker := fun w => (w, Ok (memory w)).

Definition setMemory (t : Tracker) : M unit :=
  fun w => (mkWorld (calls w) (gpu w) t (next_id w), Ok tt).

Definition emitGpu (e : GpuEvent) : M unit :=
  fun w => (mkWorld (calls w) (gpu w ++ [e]) (memory w) (next_id w), Ok tt).

(** Create a fresh object of kind [k]. *)
Definition alloc (k : ResKind) : M Resource :=
  fun w =>
    let id := next_id w in
    (mkWorld (calls w) (gpu w ++ [Allocated k id]) (memory w) (S id),
     Ok (mkResource k id None)).

(** Call [cb(p)]: the invocation is logged, then the callback returns or
    throws. *)
Definition invoke (cb : Callback) (p : Payload) : M unit :=
  fun w =>
    let w' := mkWorld (calls w ++ [(cb_id cb, p)]) (gpu w) (memory w) (next_id w) in
    match cb_run cb p with
    | None => (w', Ok tt)
    | Some e => (w', Throw e)
    end.

Definition emptyTracker : Tracker := mkTracker [] [] [] [] None.

Definition initialWorld : World := mkWorld [] [] emptyTracker 0.

(* ================================================================== *)
(** * src/utils/memory-manager.ts *)
(* ================================================================== *)

Module MemoryManager.

Definition same_object (a b : Resource) : bool := Nat.eqb (res_id a) (res_id b).

(** [Set.prototype.add] *)
Definition set_add (r : Resource) (s : list Resource) : list Resource :=
  if existsb (same_object r) s then s else s ++ [r].

Definition trackTexture (texture : Resource) : M Resource :=
  m <- getMemory ;;
  setMemory (mkTracker (set_add texture (textures m)) (geometries m)
                       (materials m) (renderTargets m) (renderer m)) ;;;
  ret texture.

Definition trackGeometry (geometry : Resource) : M Resource :=
  m <- getMemory ;;
  setMemory (mkTracker (textures m) (set_add geometry (geometries m))
                       (materials m) (renderTargets m) (renderer m)) ;;;
  ret geometry.

Definition trackMaterial (material : Resource) : M Resource :=
  m <- getMemory ;;
  setMemory (mkTracker (textures m) (geometries m)
                       (set_add material (materials m)) (renderTargets m)
                       (renderer m)) ;;;
  ret material.

Definition trackRenderTarget (target : Resource) : M Resource :=
  m <- getMemory ;;
  setMemory (mkTracker (textures m) (geometries m) (materials m)
                       (set_add target (renderTargets m)) (renderer m)) ;;;
  ret target.

Definition setRenderer (r : Renderer) : M unit :=
  m <- getMemory ;;
  setMemory (mkTracker (textures m) (geometries m) (materials m)
                       (renderTargets m) (Some r)).

(** [resource.dispose()] *)
Definition dispose (r : Resource) : M unit :=
  match res_dispose r with
  | None => emitGpu (Disposed (res_kind r) (res_id r))
  | Some e => throw e
  end.

Definition disposeAll : M unit :=
  m <- getMemory ;;
  forM_ (textures m) dispose ;;;
  m <- getMemory ;;
  setMemory (mkTracker [] (geometries m) (materials m) (renderTargets m)
                       (renderer m)) ;;;
  m <- getMemory ;;
  forM_ (geometries m) dispose ;;;
  m <- getMemory ;;
  setMemory (mkTracker (textures m) [] (materials m) (renderTargets m)
                       (renderer m)) ;;;
  m <- getMemory ;;
  forM_ (materials m) dispose ;;;
  m <- getMemory ;;
  setMemory (mkTracker (textures m) (geometries m) [] (renderTargets m)
                       (renderer m)) ;;;
  m <- getMemory ;;
  forM_ (renderTargets m) dispose ;;;
  m <- getMemory ;;
  setMemory (mkTracker (textures m) (geometries m) (materials m) []
                       (renderer m)) ;;;
  m <- getMemory ;;
  match renderer m with
  | Some r =>
      dispose (rnd_resource r) ;;;
      emitGpu (ContextLost (res_id (rnd_resource r))) ;;;
      emitGpu (CanvasWidth (rnd_domElement r) 1) ;;;
      emitGpu (CanvasHeight (rnd_domElement r) 1) ;;;
      m <- getMemory ;;
      setMemory (mkTracker (textures m) (geometries m) (materials m)
                           (renderTargets m) None)
  | None => ret tt
  end.

(** [setTimeout(resolve, 0)]: a scheduling point without observable
    effect in a sequential run. *)
Definition yieldToGC : M unit := ret tt.

(** ** What a successful [disposeAll] logs *)

Definition disposes_ok (r : Resource) : bool :=
  match res_dispose r with None => true | Some _ => false end.

Definition all_dispose_ok (t : Tracker) : bool :=
  forallb disposes_ok (textures t) && forallb disposes_ok (geometries t)
  && forallb disposes_ok (materials t) && forallb disposes_ok (renderTargets t)
  && match renderer t with
     | Some r => disposes_ok (rnd_resource r)
     | None => true
     end.

Definition disposed_event (r : Resource) : GpuEvent :=
  Disposed (res_kind r) (res_id r).

Definition release_events (t : Tracker) : list GpuEvent :=
  map disposed_event (textures t) ++ map disposed_event (geometries t)
  ++ map disposed_event (materials t) ++ map disposed_event (renderTargets t)
  ++ match renderer t with
     | Some r => [disposed_event (rnd_resource r);
                  ContextLost (res_id (rnd_resource r));
                  CanvasWidth (rnd_domElement r) 1;
                  CanvasHeight (rnd_domElement r) 1]
     | None => []
     end.

End MemoryManager.

(** A progress sink: the optional [onProgress] parameter of the pipeline
    stages. *)
Definition ProgressSink := option (ProgressInfo.t -> M unit).

(** [onProgress?.(info)] *)
Definition report (onProgress : ProgressSink) (info : ProgressInfo.t) : M unit :=
  match onProgress with
  | Some f => f info
  | None => ret tt
  end.

(* ================================================================== *)
(** * src/reprojector.ts *)
(* ================================================================== *)

Module Reprojector.
Import Num.

Definition FACE_CONFIGS : list FaceConfig :=
  [ mkFaceConfig "f" (0, 0, -1) (0, 1, 0);
    mkFaceConfig "r" (1, 0, 0) (0, 1, 0);
    mkFaceConfig "b" (0, 0, 1) (0, 1, 0);
    mkFaceConfig "l" (-1, 0, 0) (0, 1, 0);
    mkFaceConfig "u" (0, 1, 0) (0, 0, 1);
    mkFaceConfig "d" (0, -1, 0) (0, 0, -1) ].

(** The instance owns one [MemoryManager]: the [memory] of the world. *)
Record t := mk { maxTextureSize : Z }.

(** [constructor(maxTextureSize?)] *)
Definition new (maxTextureSize : option Z) : M t :=
  setMemory emptyTracker ;;;
  ret (mk (match maxTextureSize with Some m => m | None => 16384 end)).

Definition dispose : M unit := MemoryManager.disposeAll.

Definition limitMessage (cubeResolution effectiveMaxTexture : Z) : Error :=
  ("Cube resolution " ++ string_of_Z cubeResolution
   ++ " exceeds maximum texture size " ++ string_of_Z effectiveMaxTexture)%string.

Section Render.
Variables (image : Image) (cubeResolution : Z) (rendererId : nat)
          (onProgress : ProgressSink).

(** The body of [for (let i = 0; i < FACE_CONFIGS.length; i++)]: report,
    aim the camera, render into the target, read the pixels back with the
    rows flipped, and push the face.  The pixel buffers are taken to exist:
    this is so for [cubeResolution >= 1] and as far as memory allows (a
    0 x 0 [createImageData] is refused by the browser). *)
Fixpoint renderFaces (i : Z) (cfgs : list FaceConfig)
         (faces : list CubeFace.t) : M (list CubeFace.t) :=
  match cfgs with
  | [] => ret faces
  | cfg :: rest =>
      report onProgress
        (ProgressInfo.mk reprojection
           (inject_Z i / inject_Z (Z.of_nat (List.length FACE_CONFIGS)))
           None (Some (fc_name cfg))
           (Some ("Rendering cube face: " ++ fc_name cfg)%string)) ;;;
      emitGpu (RenderPass rendererId (fc_name cfg)) ;;;
      renderFaces (i + 1) rest
        (faces ++ [CubeFace.mk (fc_name cfg)
                     (FaceRender image cfg cubeResolution) cubeResolution])
  end.

End Render.

(** [reprojectToCubeFaces].  The scene, mesh and camera are plain objects
    that need no disposal and are not modelled; each rendered face is the
    symbolic canvas [FaceRender]. *)
Definition reprojectToCubeFaces (env : Env) (self : t) (image : Image)
           (cubeResolution : Z) (onProgress : ProgressSink)
  : M (list CubeFace.t) :=
  (* Create an off-screen WebGL renderer *)
  canvas <- alloc KCanvas ;;
  emitGpu (CanvasWidth (res_id canvas) cubeResolution) ;;;
  emitGpu (CanvasHeight (res_id canvas) cubeResolution) ;;;
  rnd <- alloc KRenderer ;;
  MemoryManager.setRenderer (mkRenderer rnd (res_id canvas)) ;;;
  (* Validate GPU limits *)
  let maxSize := env_MAX_TEXTURE_SIZE env in
  let effectiveMaxTexture := Z.min maxSize (maxTextureSize self) in
  if effectiveMaxTexture <? cubeResolution then
    throw (limitMessage cubeResolution effectiveMaxTexture)
  else
    (* Build the equirectangular scene *)
    texture <- alloc KTexture ;;
    MemoryManager.trackTexture texture ;;;
    geometry <- alloc KGeometry ;;
    MemoryManager.trackGeometry geometry ;;;
    material <- alloc KMaterial ;;
    MemoryManager.trackMaterial material ;;;
    renderTarget <- alloc KRenderTarget ;;
    MemoryManager.trackRenderTarget renderTarget ;;;
    (* Render each face *)
    faces <- renderFaces image cubeResolution (res_id rnd) onProgress
               0 FACE_CONFIGS [] ;;
    report onProgress
      (ProgressInfo.mk reprojection 1 None None
         (Some "Cube face reprojection complete"%string)) ;;;
    (* Free all GPU resources immediately *)
    dispose ;;;
    ret faces.

End Reprojector.

(* ================================================================== *)
(** * src/tiler.ts *)
(* ================================================================== *)

Module Tiler.
Import Num ConfigGenerator.

(** Max tiles to encode in parallel before yielding. *)
Definition TILE_BATCH_SIZE : nat := 10.

Record t := mk { quality : Q; imageFormat : ImageFormat }.

(** [constructor(quality = 0.9, imageFormat = 'jpeg')] *)
Definition new (quality : option Q) (imageFormat : option ImageFormat) : t :=
  mk (match quality with Some q => q | None => 9 # 10 end)
     (match imageFormat with Some f => f | None => jpeg end).

(** [0, 1, ..., n-1]: the values of a counter running while [c < n]. *)
Definition range (n : Z) : list Z := map Z.of_nat (seq 0 (Z.to_nat n)).

(** The nested [for y] / [for x] loops that fill [tileCoords]. *)
Definition gridCoords (tilesPerSide : Z) : list (Z * Z) :=
  flat_map (fun y => map (fun x => (x, y)) (range tilesPerSide))
           (range tilesPerSide).

(** [Promise.all(l.map(f))]: all results in the order of [l], or the
    failure of the first element that fails. *)
Fixpoint mapE {A B} (f : A -> Error + B) (l : list A) : Error + list B :=
  match l with
  | [] => inr []
  | a :: l' =>
      match f a with
      | inl e => inl e
      | inr b =>
          match mapE f l' with
          | inl e => inl e
          | inr bs => inr (b :: bs)
          end
      end
  end.

Definition tilePath (level : Z) (faceName : string) (x y : Z) (ext : string)
  : string :=
  (string_of_Z level ++ "/" ++ faceName ++ "/" ++ string_of_Z x ++ "_"
   ++ string_of_Z y ++ "." ++ ext)%string.

Definition fallbackPath (faceName ext : string) : string :=
  ("fallback/" ++ faceName ++ "." ++ ext)%string.

Section Instance.
Variables (env : Env) (self : t).

(** Both branches of [extractTile] (with or without [OffscreenCanvas])
    draw the same region into an [outputSize] square and encode it. *)
Definition extractTile (source : Canvas) (sx sy sw sh outputSize : Z)
  : Error + Blob :=
  let mimeType :=
    match imageFormat self with
    | webp => "image/webp"%string
    | jpeg => "image/jpeg"%string
    end in
  env_encode env
    (mkEncodeRequest source sx sy sw sh outputSize mimeType (quality self)).

(** [downscaleCanvas], for a source of at least one pixel (the browser
    refuses to draw from a 0 x 0 canvas). *)
Definition downscaleCanvas (source : Canvas) (newSize : Z) : Canvas :=
  Downscaled source newSize.

Definition buildTile (source : Canvas) (sourceResolution tileSize level : Z)
           (faceName : string) (x y : Z) : Error + Tile.t :=
  let sx := x * tileSize in
  let sy := y * tileSize in
  let sw := Z.min tileSize (sourceResolution - sx) in
  let sh := Z.min tileSize (sourceResolution - sy) in
  match extractTile source sx sy sw sh tileSize with
  | inl e => inl e
  | inr blob =>
      let ext := extension (imageFormat self) in
      inr (Tile.mk (tilePath level faceName x y ext) level faceName x y
                   blob (blob_size blob))
  end.

(** [generateFallbackTiles]: the loop body awaits one encode per face and
    touches nothing else. *)
Fixpoint fallbackLoop (cubeFaces : list CubeFace.t) (fallbackSize : Z)
         (tiles : list Tile.t) : Error + list Tile.t :=
  match cubeFaces with
  | [] => inr tiles
  | face :: rest =>
      match extractTile (CubeFace.canvas face) 0 0
                        (CubeFace.resolution face) (CubeFace.resolution face)
                        fallbackSize with
      | inl e => inl e
      | inr blob =>
          let ext := extension (imageFormat self) in
          fallbackLoop rest fallbackSize
            (tiles ++ [Tile.mk (fallbackPath (CubeFace.name face) ext) 0
                         (CubeFace.name face) 0 0 blob (blob_size blob)])
      end
  end.

Definition generateFallbackTiles (cubeFaces : list CubeFace.t)
           (fallbackSize : Z) : M (list Tile.t) :=
  lift (fallbackLoop cubeFaces fallbackSize []).

Section FaceTiles.
Variables (face : CubeFace.t) (tileSize maxLevel : Z)
          (onProgress : option (Q -> Z -> M unit)).

Section Level.
Variables (currentCanvas : Canvas) (currentResolution level : Z)
          (tileCoords : list (Z * Z)).

(** [for (let i = 0; i < tileCoords.length; i += TILE_BATCH_SIZE)].
    [fuel] bounds the number of iterations; [List.length tileCoords]
    iterations always suffice. *)
Fixpoint batchLoop (fuel i : nat) (tiles : list Tile.t) : M (list Tile.t) :=
  match fuel with
  | O => ret tiles
  | S fuel' =>
      if (i <? List.length tileCoords)%nat then
        let batch := firstn TILE_BATCH_SIZE (skipn i tileCoords) in
        batchResults <-
          lift (mapE (fun c => buildTile currentCanvas currentResolution
                                 tileSize level (CubeFace.name face)
                                 (fst c) (snd c)) batch) ;;
        let tiles := tiles ++ batchResults in
        let completedInLevel :=
          Nat.min (i + TILE_BATCH_SIZE) (List.length tileCoords) in
        let levelProgress :=
          ((inject_Z (maxLevel - level)
            + inject_Z (Z.of_nat completedInLevel)
              / inject_Z (Z.of_nat (List.length tileCoords)))
           / inject_Z maxLevel)%Q in
        match onProgress with
        | Some f => f levelProgress level
        | None => ret tt
        end ;;;
        batchLoop fuel' (i + TILE_BATCH_SIZE)%nat tiles
      else ret tiles
  end.

End Level.

(** [for (let level = maxLevel; level >= 1; level--)], for a tile size of
    at least 1 (with [tileSize = 0] and a positive resolution the source
    computes [tilesPerSide = Infinity] and never leaves the coordinate
    loops). *)
Fixpoint levelLoop (fuel : nat) (level : Z) (currentCanvas : Canvas)
         (currentResolution : Z) (tiles : list Tile.t) : M (list Tile.t) :=
  match fuel with
  | O => ret tiles
  | S fuel' =>
      if 1 <=? level then
        (* Down-scale for every level below max *)
        let currentResolution :=
          if level <? maxLevel then halve currentResolution
          else currentResolution in
        let currentCanvas :=
          if level <? maxLevel
          then downscaleCanvas currentCanvas currentResolution
          else currentCanvas in
        let tilesPerSide := ceil_div currentResolution tileSize in
        let tileCoords := gridCoords tilesPerSide in
        tiles <- batchLoop currentCanvas currentResolution level tileCoords
                   (List.length tileCoords) 0 tiles ;;
        (* Yield to GC between levels *)
        MemoryManager.yieldToGC ;;;
        levelLoop fuel' (level - 1) currentCanvas currentResolution tiles
      else ret tiles
  end.

Definition generateFaceTiles : M (list Tile.t) :=
  levelLoop (Z.to_nat maxLevel) maxLevel (CubeFace.canvas face)
            (CubeFace.resolution face) [].

End FaceTiles.

Section Pyramid.
Variables (totalFaces : Z) (tileSize maxLevel : Z) (onProgress : ProgressSink).

(** [for (const face of cubeFaces)] with the running [faceIndex]. *)
Fixpoint faceLoop (cubeFaces : list CubeFace.t) (faceIndex : Z)
         (tiles : list Tile.t) : M (list Tile.t) :=
  match cubeFaces with
  | [] => ret tiles
  | face :: rest =>
      faceTiles <-
        generateFaceTiles face tileSize maxLevel
          (Some (fun levelProgress level =>
             let overall :=
               ((inject_Z faceIndex + levelProgress) / inject_Z totalFaces)%Q in
             report onProgress
               (ProgressInfo.mk tiling overall (Some level)
                  (Some (CubeFace.name face))
                  (Some ("Tiling face " ++ CubeFace.name face ++ ", level "
                         ++ string_of_Z level)%string)))) ;;
      faceLoop rest (faceIndex + 1) (tiles ++ faceTiles)
  end.

End Pyramid.

Definition completeInfo : ProgressInfo.t :=
  ProgressInfo.mk tiling 1 None None (Some "Tile generation complete"%string).

Definition generateTilePyramid (cubeFaces : list CubeFace.t)
           (tileSize maxLevel : Z) (onProgress : ProgressSink)
  : M (list Tile.t) :=
  tiles <- faceLoop (Z.of_nat (List.length cubeFaces)) tileSize maxLevel
             onProgress cubeFaces 0 [] ;;
  report onProgress completeInfo ;;;
  ret tiles.

End Instance.

End Tiler.

(* ================================================================== *)
(** * src/config-generator.ts: the descriptor, and src/utils/zip-builder.ts *)
(* ================================================================== *)

Module Descriptor.
Import Num ConfigGenerator.

Record TileMetadata := mkTileMetadata {
  tileSize : Z;
  maxLevel : Z;
  cubeResolution : Z;
  imageFormat : ImageFormat;
  hasFallback : bool
}.

Definition dq : string := String (ascii_of_nat 34) EmptyString.
Definition nl : string := String (ascii_of_nat 10) EmptyString.
Definition jstr (s : string) : string := (dq ++ s ++ dq)%string.

(** [JSON.stringify(config, null, 2)] of the object built by
    [generateConfig]. *)
Definition generateConfig (metadata : TileMetadata) : string :=
  ("{" ++ nl
   ++ "  " ++ jstr "type" ++ ": " ++ jstr "multires" ++ "," ++ nl
   ++ "  " ++ jstr "multiRes" ++ ": {" ++ nl
   ++ "    " ++ jstr "basePath" ++ ": " ++ jstr "./" ++ "," ++ nl
   ++ "    " ++ jstr "path" ++ ": " ++ jstr "/%l/%s/%x_%y" ++ "," ++ nl
   ++ "    " ++ jstr "extension" ++ ": "
   ++ jstr (extension (imageFormat metadata)) ++ "," ++ nl
   ++ "    " ++ jstr "tileResolution" ++ ": "
   ++ string_of_Z (tileSize metadata) ++ "," ++ nl
   ++ "    " ++ jstr "maxLevel" ++ ": "
   ++ string_of_Z (maxLevel metadata) ++ "," ++ nl
   ++ "    " ++ jstr "cubeResolution" ++ ": "
   ++ string_of_Z (cubeResolution metadata)
   ++ (if hasFallback metadata
       then "," ++ nl ++ "    " ++ jstr "fallbackPath" ++ ": "
            ++ jstr "/fallback/%s"
       else EmptyString)
   ++ nl ++ "  }" ++ nl ++ "}")%string.

End Descriptor.

Module ZipBuilder.

(** The entries of the plain object [files] are listed in the order in
    which [for (k in files)] enumerates them: the keys that are array
    indices first, in ascending numeric order, then the other keys in
    insertion order. *)

Definition digitValue (c : ascii) : option Z :=
  let n := Z.of_nat (nat_of_ascii c) in
  if (48 <=? n) && (n <=? 57) then Some (n - 48) else None.

(** The value of a string of decimal digits (after the digits [acc]). *)
Fixpoint numeral (s : string) (acc : Z) : option Z :=
  match s with
  | EmptyString => Some acc
  | String c rest =>
      match digitValue c with
      | Some d => numeral rest (10 * acc + d)
      | None => None
      end
  end.

(** The array index a property key denotes: a canonical decimal numeral
    (no leading zero) of value at most 2^32 - 2. *)
Definition arrayIndex (key : string) : option Z :=
  match key with
  | EmptyString => None
  | String c rest =>
      match numeral key 0 with
      | Some n =>
          if (negb (Ascii.eqb c "0") || String.eqb rest EmptyString)
             && (n <=? 4294967294)
          then Some n else None
      | None => None
      end
  end.

Definition hasKey (key : string) (files : list (string * Blob)) : bool :=
  existsb (fun entry => String.eqb (fst entry) key) files.

(** Overwrite the value of an existing key, which keeps its place. *)
Fixpoint replace (key : string) (value : Blob) (files : list (string * Blob))
  : list (string * Blob) :=
  match files with
  | [] => []
  | (k, v) :: rest =>
      if String.eqb k key then (k, value) :: rest
      else (k, v) :: replace key value rest
  end.

(** Insert a new array-index key [n] after the smaller indices. *)
Fixpoint insertIndex (n : Z) (key : string) (value : Blob)
         (files : list (string * Blob)) : list (string * Blob) :=
  match files with
  | [] => [(key, value)]
  | (k, v) :: rest =>
      match arrayIndex k with
      | Some m =>
          if m <? n then (k, v) :: insertIndex n key value rest
          else (key, value) :: (k, v) :: rest
      | None => (key, value) :: (k, v) :: rest
      end
  end.

(** [files[key] = value], for a key other than [__proto__] *)
Definition assign (key : string) (value : Blob) (files : list (string * Blob))
  : list (string * Blob) :=
  if hasKey key files then replace key value files
  else
    match arrayIndex key with
    | Some n => insertIndex n key value files
    | None => files ++ [(key, value)]
    end.

Section Zip.
Variables (total : Z) (onProgress : option (Q -> M unit)).

Fixpoint addTiles (tiles : list Tile.t) (i : Z) (files : list (string * Blob))
  : M (list (string * Blob)) :=
  match tiles with
  | [] => ret files
  | tile :: rest =>
      let files := assign (Tile.path tile) (Tile.blob tile) files in
      match onProgress with
      | Some f => f (inject_Z (i + 1) / inject_Z total)%Q
      | None => ret tt
      end ;;;
      addTiles rest (i + 1) files
  end.

End Zip.

Definition createZipOutput (env : Env) (tiles : list Tile.t)
           (configJson : string) (onProgress : option (Q -> M unit))
  : M Blob :=
  let files := [("config.json"%string, mkBlob "application/json" configJson)] in
  files <- addTiles (Z.of_nat (List.length tiles)) onProgress tiles 0 files ;;
  match env_zip env files with
  | inl e => throw ("ZIP creation failed: " ++ e)%string
  | inr data => ret (mkBlob "application/zip" (blob_data data))
  end.

End ZipBuilder.

(* ================================================================== *)
(** * src/PannellumTiler.ts *)
(* ================================================================== *)

Module PannellumTiler.
Import Num ConfigGenerator.

Inductive EventType := EvProgress | EvError.

(** Canonical Pannellum face identifiers in render order. *)
Definition FACE_NAMES : list string := ["f"; "r"; "b"; "l"; "u"; "d"]%string.

Record TilerOptions := mkTilerOptions {
  opt_maxTextureSize : option Z;
  opt_debug : option bool
}.

Record ProcessConfig := mkProcessConfig {
  sourceImage : string + Blob;
  tileSize : option Z;
  maxLevel : option Z;
  cubeResolution : option Z;
  quality : option Q;
  output : string;
  fallbackTiles : option bool;
  imageFormat : option ImageFormat;
  onProgress : option Callback
}.

Record ResultMetadata := mkResultMetadata {
  totalTiles : Z;
  totalSize : Z;
  md_maxLevel : Z;
  md_cubeResolution : Z;
  md_tileSize : Z;
  faces : list string
}.

Inductive ItemType := config_item | tile_item.

Module StreamItem.
Record t := mk {
  type : ItemType;
  path : string;
  blob : Blob;
  level : option Z;
  face : option string;
  x : option Z;
  y : option Z
}.
End StreamItem.

Record ConfigEntry := mkConfigEntry { json : string; config_blob : Blob }.

(** The async generator of stream mode is the finite list of the items it
    yields, in order. *)
Inductive ProcessResult :=
| ZipResult (blob : Blob) (metadata : ResultMetadata)
| RawResult (config : ConfigEntry) (tiles : list Tile.t)
            (metadata : ResultMetadata)
| StreamResult (config : ConfigEntry) (tiles : list StreamItem.t)
               (metadata : ResultMetadata).

(** The instance: resolved options, the listener registry (an event type
    without an entry behaves as one with the empty set), and the
    [disposed] flag. *)
Record t := mk {
  maxTextureSize : Z;
  debug : bool;
  progressListeners : list Callback;
  errorListeners : list Callback;
  disposed : bool
}.

Definition new (options : option TilerOptions) : t :=
  mk (match options with
      | Some o => match opt_maxTextureSize o with Some m => m | None => 16384 end
      | None => 16384
      end)
     (match options with
      | Some o => match opt_debug o with Some d => d | None => false end
      | None => false
      end)
     [] [] false.

Definition listeners (self : t) (event : EventType) : list Callback :=
  match event with
  | EvProgress => progressListeners self
  | EvError => errorListeners self
  end.

Definition same_callback (a b : Callback) : bool := Nat.eqb (cb_id a) (cb_id b).

Definition cb_add (cb : Callback) (s : list Callback) : list Callback :=
  if existsb (same_callback cb) s then s else s ++ [cb].

Definition cb_delete (cb : Callback) (s : list Callback) : list Callback :=
  filter (fun c => negb (same_callback cb c)) s.

Definition on (self : t) (event : EventType) (callback : Callback) : t :=
  match event with
  | EvProgress =>
      mk (maxTextureSize self) (debug self)
         (cb_add callback (progressListeners self)) (errorListeners self)
         (disposed self)
  | EvError =>
      mk (maxTextureSize self) (debug self) (progressListeners self)
         (cb_add callback (errorListeners self)) (disposed self)
  end.

Definition off (self : t) (event : EventType) (callback : Callback) : t :=
  match event with
  | EvProgress =>
      mk (maxTextureSize self) (debug self)
         (cb_delete callback (progressListeners self)) (errorListeners self)
         (disposed self)
  | EvError =>
      mk (maxTextureSize self) (debug self) (progressListeners self)
         (cb_delete callback (errorListeners self)) (disposed self)
  end.

Definition dispose (self : t) : t :=
  mk (maxTextureSize self) (debug self) [] [] true.

(** [emit]: every callback of the event runs inside its own
    [try { ... } catch { }]. *)
Definition emit (self : t) (event : EventType) (data : Payload) : M unit :=
  forM_ (listeners self event)
        (fun cb => try_catch (invoke cb data) (fun _ => ret tt)).

Definition validateConfig (config : ProcessConfig) : M unit :=
  match sourceImage config with
  | inl EmptyString => throw "sourceImage is required"
  | _ =>
    if String.eqb (output config) EmptyString then
      throw "output mode is required ('zip' | 'raw' | 'stream')"
    else if negb (existsb (String.eqb (output config)) ["zip"; "raw"; "stream"]%string)
    then throw ("Invalid output mode: " ++ output config)%string
    else if match quality config with
            | Some q => negb (Qle_bool 0 q) || negb (Qle_bool q 1)
            | None => false
            end
    then throw "quality must be between 0 and 1"
    else if match tileSize config with
            | Some s => s <? 1
            | None => false
            end
    then throw "tileSize must be a positive integer"
    else ret tt
  end.

(** The unified progress broadcaster of [process]. *)
Definition progressOf (self : t) (onProgress : option Callback)
  : ProgressInfo.t -> M unit :=
  fun info =>
    match onProgress with
    | Some cb => invoke cb (OfProgress info)
    | None => ret tt
    end ;;;
    emit self EvProgress (OfProgress info).

Definition configEntry (configJson : string) : ConfigEntry :=
  mkConfigEntry configJson (mkBlob "application/json" configJson).

Definition createTileStream (tiles : list Tile.t) (configJson : string)
  : list StreamItem.t :=
  (* Yield the configuration first *)
  StreamItem.mk config_item "config.json" (mkBlob "application/json" configJson)
                None None None None
  (* Then yield each tile individually *)
  :: map (fun tile =>
            StreamItem.mk tile_item (Tile.path tile) (Tile.blob tile)
                          (Some (Tile.level tile)) (Some (Tile.face tile))
                          (Some (Tile.x tile)) (Some (Tile.y tile)))
         tiles.

Definition buildZipResult (env : Env) (tiles : list Tile.t)
           (configJson : string) (metadata : ResultMetadata)
           (progress : ProgressInfo.t -> M unit) : M ProcessResult :=
  progress (ProgressInfo.mk packaging 0 None None
              (Some "Creating ZIP archive…"%string)) ;;;
  blob <- ZipBuilder.createZipOutput env tiles configJson
            (Some (fun p =>
               progress (ProgressInfo.mk packaging p None None
                           (Some "Creating ZIP archive…"%string)))) ;;
  progress (ProgressInfo.mk packaging 1 None None
              (Some "ZIP archive complete"%string)) ;;;
  ret (ZipResult blob metadata).

Definition buildRawResult (tiles : list Tile.t) (configJson : string)
           (metadata : ResultMetadata) : ProcessResult :=
  RawResult (configEntry configJson) tiles metadata.

Definition buildStreamResult (tiles : list Tile.t) (configJson : string)
           (metadata : ResultMetadata) : ProcessResult :=
  StreamResult (configEntry configJson) (createTileStream tiles configJson)
               metadata.

(** [process(config)].  Debug logging to the console is not modelled.
    Load-progress reports arrive from an XHR event handler, so an
    exception thrown while delivering one does not reach the pipeline. *)
Definition process (env : Env) (self : t) (config : ProcessConfig)
  : M ProcessResult :=
  if disposed self then throw "PannellumTiler instance has been disposed"
  else
    validateConfig config ;;;
    let sourceImage := sourceImage config in
    let tileSize := match tileSize config with Some s => s | None => 512 end in
    let quality := match quality config with Some q => q | None => 9 # 10 end in
    let output := output config in
    let fallbackTiles :=
      match fallbackTiles config with Some b => b | None => false end in
    let imageFormat :=
      match imageFormat config with Some f => f | None => jpeg end in
    let progress := progressOf self (onProgress config) in
    try_catch
      ((* Stage 1: Load source image *)
       progress (ProgressInfo.mk loading 0 None None
                   (Some "Loading source image…"%string)) ;;;
       forM_ (fst (env_loadImage env sourceImage))
             (fun p =>
                try_catch
                  (progress (ProgressInfo.mk loading p None None
                               (Some "Loading source image…"%string)))
                  (fun _ => ret tt)) ;;;
       image <- lift (snd (env_loadImage env sourceImage)) ;;
       progress (ProgressInfo.mk loading 1 None None
                   (Some "Image loaded"%string)) ;;;
       (* Calculate dimensions *)
       let cubeResolution :=
         match cubeResolution config with
         | Some c => c
         | None => env_cubeResolution env (naturalWidth image)
                                      (naturalHeight image)
         end in
       let maxLevel :=
         match maxLevel config with
         | Some m => m
         | None => calculateMaxLevel cubeResolution tileSize
         end in
       (* Stage 2: Equirectangular -> 6 cube faces (WebGL) *)
       reprojector <- Reprojector.new (Some (maxTextureSize self)) ;;
       cubeFaces <- Reprojector.reprojectToCubeFaces env reprojector image
                      cubeResolution (Some progress) ;;
       (* Stage 3: Tile generation (Canvas) *)
       let tiler := Tiler.new (Some quality) (Some imageFormat) in
       tiles <- Tiler.generateTilePyramid env tiler cubeFaces tileSize
                  maxLevel (Some progress) ;;
       (* Optional fallback tiles *)
       fallbackTilesList <-
         (if fallbackTiles
          then Tiler.generateFallbackTiles env tiler cubeFaces 1024
          else ret []) ;;
       let allTiles := tiles ++ fallbackTilesList in
       (* Generate config.json *)
       let configJson :=
         Descriptor.generateConfig
           (Descriptor.mkTileMetadata tileSize maxLevel cubeResolution
                                      imageFormat fallbackTiles) in
       let metadata :=
         mkResultMetadata
           (Z.of_nat (List.length allTiles))
           (fold_left (fun sum t => sum + Tile.size t) allTiles 0)
           maxLevel cubeResolution tileSize FACE_NAMES in
       (* Stage 4: Package output *)
       if String.eqb output "zip" then
         buildZipResult env allTiles configJson metadata progress
       else if String.eqb output "raw" then
         ret (buildRawResult allTiles configJson metadata)
       else if String.eqb output "stream" then
         ret (buildStreamResult allTiles configJson metadata)
       else throw ("Unknown output mode: " ++ output)%string)
      (fun err =>
         emit self EvError (OfError err) ;;;
         throw err).

End PannellumTiler.

(* ================================================================== *)
(** * Vocabulary of the specification *)
(* ================================================================== *)

Module Spec.
Import Num.

(** The resolution the tiler works at on [level]: the face resolution
    halved (rounding down) once per level below [maxLevel]. *)
Definition resolutionAtLevel (faceResolution maxLevel level : Z) : Z :=
  halve_iter (Z.to_nat (maxLevel - level)) faceResolution.

(** The canvas the tiler works on at [level]: each level below [maxLevel]
    is a down-scaled copy of the level above it. *)
Fixpoint canvasBelow (n : nat) (faceCanvas : Canvas) (faceResolution : Z)
  : Canvas :=
  match n with
  | O => faceCanvas
  | S n' =>
      Downscaled (canvasBelow n' faceCanvas faceResolution)
                 (halve_iter n faceResolution)
  end.

Definition canvasAtLevel (faceCanvas : Canvas)
           (faceResolution maxLevel level : Z) : Canvas :=
  canvasBelow (Z.to_nat (maxLevel - level)) faceCanvas faceResolution.

(** [maxLevel, maxLevel - 1, ..., 1] *)
Definition levelsDescending (maxLevel : Z) : list Z :=
  map (fun k => maxLevel - Z.of_nat k) (seq 0 (Z.to_nat maxLevel)).

(** What identifies a tile: face, level, column, row. *)
Definition TileKey : Type := string * Z * Z * Z.

Definition tile_key (t : Tile.t) : TileKey :=
  (Tile.face t, Tile.level t, Tile.x t, Tile.y t).

(** Row-major enumeration of an [n] by [n] grid as (column, row). *)
Definition rowMajor (n : Z) : list (Z * Z) :=
  flat_map (fun row => map (fun col => (col, row)) (Tiler.range n))
           (Tiler.range n).

Definition levelKeys (faceName : string) (faceResolution tileSize maxLevel : Z)
           (level : Z) : list TileKey :=
  map (fun c => (faceName, level, fst c, snd c))
      (rowMajor (ceil_div (resolutionAtLevel faceResolution maxLevel level)
                          tileSize)).

(** Level-descending, row-major keys of one face. *)
Definition faceKeys (tileSize maxLevel : Z) (face : CubeFace.t)
  : list TileKey :=
  flat_map (levelKeys (CubeFace.name face) (CubeFace.resolution face)
                      tileSize maxLevel)
           (levelsDescending maxLevel).

(** [tile] is what [buildTile] makes of [key] on [face]: cropped from the
    canvas of the key's level, at that level's resolution. *)
Definition tileOf (env : Env) (self : Tiler.t) (tileSize maxLevel : Z)
           (face : CubeFace.t) (key : TileKey) (tile : Tile.t) : Prop :=
  match key with
  | (faceName, level, x, y) =>
      Tiler.buildTile env self
        (canvasAtLevel (CubeFace.canvas face) (CubeFace.resolution face)
                       maxLevel level)
        (resolutionAtLevel (CubeFace.resolution face) maxLevel level)
        tileSize level faceName x y = inr tile
  end.

(** Face-major keys of the whole pyramid. *)
Definition pyramidKeys (tileSize maxLevel : Z) (cubeFaces : list CubeFace.t)
  : list TileKey :=
  flat_map (faceKeys tileSize maxLevel) cubeFaces.

(** The six faces [reprojectToCubeFaces] returns. *)
Definition renderedFaces (image : Image) (cubeResolution : Z)
  : list CubeFace.t :=
  map (fun cfg => CubeFace.mk (fc_name cfg)
                              (FaceRender image cfg cubeResolution)
                              cubeResolution)
      Reprojector.FACE_CONFIGS.


(** [config] with another output mode. *)
Definition withOutput (config : PannellumTiler.ProcessConfig) (output : string)
  : PannellumTiler.ProcessConfig :=
  PannellumTiler.mkProcessConfig
    (PannellumTiler.sourceImage config) (PannellumTiler.tileSize config)
    (PannellumTiler.maxLevel config) (PannellumTiler.cubeResolution config)
    (PannellumTiler.quality config) output
    (PannellumTiler.fallbackTiles config) (PannellumTiler.imageFormat config)
    (PannellumTiler.onProgress config).

(** The parameters [process] resolves from its configuration. *)
Definition tileSizeOf (config : PannellumTiler.ProcessConfig) : Z :=
  match PannellumTiler.tileSize config with Some s => s | None => 512 end.

Definition fallbackOf (config : PannellumTiler.ProcessConfig) : bool :=
  match PannellumTiler.fallbackTiles config with
  | Some b => b
  | None => false
  end.

Definition formatOf (config : PannellumTiler.ProcessConfig)
  : ConfigGenerator.ImageFormat :=
  match PannellumTiler.imageFormat config with
  | Some f => f
  | None => ConfigGenerator.jpeg
  end.

Definition tilerOf (config : PannellumTiler.ProcessConfig) : Tiler.t :=
  Tiler.new
    (Some match PannellumTiler.quality config with
          | Some q => q
          | None => 9 # 10
          end)
    (Some (formatOf config)).

Definition cubeResolutionOf (env : Env) (config : PannellumTiler.ProcessConfig)
           (image : Image) : Z :=
  match PannellumTiler.cubeResolution config with
  | Some c => c
  | None => env_cubeResolution env (naturalWidth image) (naturalHeight image)
  end.

Definition maxLevelOf (env : Env) (config : PannellumTiler.ProcessConfig)
           (image : Image) : Z :=
  match PannellumTiler.maxLevel config with
  | Some m => m
  | None =>
      ConfigGenerator.calculateMaxLevel (cubeResolutionOf env config image)
                                        (tileSizeOf config)
  end.

Definition descriptorOf (env : Env) (config : PannellumTiler.ProcessConfig)
           (image : Image) : string :=
  Descriptor.generateConfig
    (Descriptor.mkTileMetadata (tileSizeOf config) (maxLevelOf env config image)
                               (cubeResolutionOf env config image)
                               (formatOf config) (fallbackOf config)).

Definition metadataOf (env : Env) (config : PannellumTiler.ProcessConfig)
           (image : Image) (allTiles : list Tile.t)
  : PannellumTiler.ResultMetadata :=
  PannellumTiler.mkResultMetadata
    (Z.of_nat (List.length allTiles))
    (fold_left (fun sum t => sum + Tile.size t) allTiles 0)
    (maxLevelOf env config image) (cubeResolutionOf env config image)
    (tileSizeOf config) PannellumTiler.FACE_NAMES.

(** The key of a streamed tile item. *)
Definition item_key (item : PannellumTiler.StreamItem.t) : option TileKey :=
  match PannellumTiler.StreamItem.face item,
        PannellumTiler.StreamItem.level item,
        PannellumTiler.StreamItem.x item,
        PannellumTiler.StreamItem.y item with
  | Some f, Some l, Some x, Some y => Some (f, l, x, y)
  | _, _, _, _ => None
  end.

(** The keys of the fallback tiles: one per face, at level 0. *)
Definition fallbackKeys (cubeFaces : list CubeFace.t) : list TileKey :=
  map (fun face => (CubeFace.name face, 0, 0, 0)) cubeFaces.

(** The pyramid's keys, each with the face it is cut from. *)
Definition pyramidWork (tileSize maxLevel : Z) (cubeFaces : list CubeFace.t)
  : list (CubeFace.t * TileKey) :=
  flat_map (fun face => map (pair face) (faceKeys tileSize maxLevel face))
           cubeFaces.

End Spec.

(* ================================================================== *)
(** * Concrete inputs used in examples *)
(* ================================================================== *)

Module Fixtures.

(** A browser with a 16384 texture limit, a 4096 x 2048 source that
    reports one load fraction, and an encoder and archiver that succeed. *)
Definition env0 : Env :=
  mkEnv 16384
        (fun _ => ([1 # 2], inr (mkImage 4096 2048)))
        (fun _ _ => 1304)
        (fun r => inr (mkBlob (er_mimeType r) "x"))
        (fun _ => inr (mkBlob "application/zip" "z")).

Definition image0 : Image := mkImage 4096 2048.

(** The same browser with an encoder that always fails. *)
Definition envEncodeFails : Env :=
  mkEnv 16384
        (fun _ => ([1 # 2], inr (mkImage 4096 2048)))
        (fun _ _ => 1304)
        (fun _ => inl "Failed to encode tile"%string)
        (fun _ => inr (mkBlob "application/zip" "z")).

(** A tracker holding three textures, the second of which fails to
    dispose, and one geometry. *)
Definition faultyTexture : Resource :=
  mkResource KTexture 1 (Some "dispose failed"%string).

Definition faultyWorld : World :=
  mkWorld [] []
          (mkTracker [mkResource KTexture 0 None; faultyTexture;
                      mkResource KTexture 2 None]
                     [mkResource KGeometry 3 None] [] [] None)
          4.

(** A tracker holding one healthy resource of each kind and a renderer. *)
Definition healthyWorld : World :=
  mkWorld [] []
          (mkTracker [mkResource KTexture 2 None]
                     [mkResource KGeometry 3 None]
                     [mkResource KMaterial 4 None]
                     [mkResource KRenderTarget 5 None]
                     (Some (mkRenderer (mkResource KRenderer 1 None) 0)))
          6.

(** Six 1024-pixel cube faces and a default tiler. *)
Definition cubeFaces0 : list CubeFace.t := Spec.renderedFaces image0 1024.

Definition tiler0 : Tiler.t := Tiler.new None None.

(** Callbacks: one that always throws, and well-behaved ones. *)
Definition throwingCallback : Callback :=
  mkCallback 0 (fun _ => Some "listener failed"%string).

Definition quietCallback (id : nat) : Callback := mkCallback id (fun _ => None).

(** [process] configurations. *)
Definition rawConfig : PannellumTiler.ProcessConfig :=
  PannellumTiler.mkProcessConfig (inl "pano.jpg"%string) None None None None
                                 "raw" None None None.

(** Stream and raw runs at cube resolution 1024 with fallback tiles. *)
Definition streamFallbackConfig : PannellumTiler.ProcessConfig :=
  PannellumTiler.mkProcessConfig (inl "pano.jpg"%string) None None
                                 (Some 1024) None "stream" (Some true) None
                                 None.

Definition rawFallbackConfig : PannellumTiler.ProcessConfig :=
  Spec.withOutput streamFallbackConfig "raw".

(** An instance capped at 1024-pixel textures, and a request for
    2048-pixel cube faces. *)
Definition cappedTiler : PannellumTiler.t :=
  PannellumTiler.new (Some (PannellumTiler.mkTilerOptions (Some 1024) None)).

Definition oversizedConfig : PannellumTiler.ProcessConfig :=
  PannellumTiler.mkProcessConfig (inl "pano.jpg"%string) None None
                                 (Some 2048) None "raw" None None None.

(** A per-call [onProgress] callback that throws. *)
Definition throwingProgressConfig : PannellumTiler.ProcessConfig :=
  PannellumTiler.mkProcessConfig (inl "pano.jpg"%string) None None None None
                                 "raw" None None (Some throwingCallback).

(** An instance with a progress listener (id 1) and an error listener
    (id 2) registered through [on]. *)
Definition listeningTiler : PannellumTiler.t :=
  PannellumTiler.on
    (PannellumTiler.on (PannellumTiler.new None) PannellumTiler.EvProgress
                       (quietCallback 1))
    PannellumTiler.EvError (quietCallback 2).

(** A platform logarithm: the correctly rounded natural logarithms of the
    arguments met in the examples, each double given by its 53-bit
    significand and binary exponent; NaN elsewhere. *)
Definition logTable : list (Float64.float * Float64.float) :=
  [ (Float64.ofZ 1, Float64.ofZ 0);
    (Float64.ofZ 2, Float64.scaled 0x162e42fefa39ef (-53));
    (Float64.ofZ 4, Float64.scaled 0x162e42fefa39ef (-52));
    (Float64.ofZ 8, Float64.scaled 0x10a2b23f3bab73 (-51));
    (* 1304 / 512 *)
    (Float64.scaled 0x146 (-7), Float64.scaled 0x1dea6e71f1503d (-53));
    (* 2^51 - 1 *)
    (Float64.scaled 0x1ffffffffffffc (-2),
     Float64.scaled 0x11acdd632f662b (-47));
    (* 985162418487295 / 7 *)
    (Float64.scaled 0x1ffffffffffff7 (-6),
     Float64.scaled 0x1049f9333fc28c (-47)) ].

Fixpoint tabulated (table : list (Float64.float * Float64.float))
         (x : Float64.float) : Float64.float :=
  match table with
  | [] => PrimFloat.nan
  | (argument, value) :: rest =>
      if PrimFloat.eqb x argument then value else tabulated rest x
  end.

Definition roundedLog : Float64.float -> Float64.float := tabulated logTable.

End Fixtures.

(* ================================================================== *)
(** * Vocabulary of further properties *)
(* ================================================================== *)

Module Laws.
Import Num.

(** The configurations [validateConfig] lets through. *)
Definition validConfig (config : PannellumTiler.ProcessConfig) : bool :=
  match PannellumTiler.sourceImage config with
  | inl EmptyString => false
  | _ => true
  end
  && existsb (String.eqb (PannellumTiler.output config))
             ["zip"; "raw"; "stream"]%string
  && match PannellumTiler.quality config with
     | Some q => Qle_bool 0 q && Qle_bool q 1
     | None => true
     end
  && match PannellumTiler.tileSize config with
     | Some s => 1 <=? s
     | None => true
     end.

(** The configurations one of the checks of [validateConfig] turns down:
    no source, an output mode that is not one of the three, a quality
    below 0 or above 1, a tile size below 1. *)
Definition rejectedConfig (config : PannellumTiler.ProcessConfig) : Prop :=
  PannellumTiler.sourceImage config = inl EmptyString
  \/ ~ In (PannellumTiler.output config) ["zip"; "raw"; "stream"]%string
  \/ (exists q, PannellumTiler.quality config = Some q
                /\ (q < 0 \/ 1 < q)%Q)
  \/ (exists s, PannellumTiler.tileSize config = Some s /\ s < 1).

(** [w'] differs from [w] at most by further callback invocations. *)
Definition steady (w w' : World) : Prop :=
  (exists cs, calls w' = calls w ++ cs)
  /\ gpu w' = gpu w /\ memory w' = memory w /\ next_id w' = next_id w.

(** A computation that returns normally and only invokes callbacks. *)
Definition Quiet {A} (c : M A) : Prop :=
  forall w, exists w' a, c w = (w', Ok a) /\ steady w w'.

Definition quietSink (onProgress : ProgressSink) : Prop :=
  match onProgress with
  | Some f => forall info, Quiet (f info)
  | None => True
  end.

(** An encoder that succeeds on every request, and an archiver that
    succeeds on every entry list. *)
Definition encoderTotal (env : Env) : Prop :=
  forall request, exists blob, env_encode env request = inr blob.

Definition zipTotal (env : Env) : Prop :=
  forall files, exists data, env_zip env files = inr data.

(** A callback that never throws. *)
Definition wellBehaved (cb : Callback) : Prop := forall p, cb_run cb p = None.

(** The progress reports of one reprojection: one per face, then the
    completion report. *)
Definition reprojectionReports : list ProgressInfo.t :=
  map (fun ic =>
         ProgressInfo.mk reprojection
           (inject_Z (fst ic) / inject_Z 6)%Q None (Some (fc_name (snd ic)))
           (Some ("Rendering cube face: " ++ fc_name (snd ic))%string))
      (combine [0; 1; 2; 3; 4; 5] Reprojector.FACE_CONFIGS)
  ++ [ProgressInfo.mk reprojection 1 None None
        (Some "Cube face reprojection complete"%string)].

(** The GPU events of one successful reprojection at resolution [c] whose
    first fresh object identity is [n]. *)
Definition reprojectionEvents (c : Z) (n : nat) : list GpuEvent :=
  [Allocated KCanvas n; CanvasWidth n c; CanvasHeight n c;
   Allocated KRenderer (n + 1); Allocated KTexture (n + 2);
   Allocated KGeometry (n + 3); Allocated KMaterial (n + 4);
   Allocated KRenderTarget (n + 5)]
  ++ map (fun cfg => RenderPass (n + 1) (fc_name cfg)) Reprojector.FACE_CONFIGS
  ++ [Disposed KTexture (n + 2); Disposed KGeometry (n + 3);
      Disposed KMaterial (n + 4); Disposed KRenderTarget (n + 5);
      Disposed KRenderer (n + 1); ContextLost (n + 1);
      CanvasWidth n 1; CanvasHeight n 1].

(** Tiles of one face: the squares of the per-level grid widths. *)
Definition tilesPerFace (tileSize maxLevel faceResolution : Z) : nat :=
  list_sum
    (map (fun level =>
            let n := Z.to_nat (ceil_div (Spec.resolutionAtLevel
                                           faceResolution maxLevel level)
                                        tileSize) in
            (n * n)%nat)
         (Spec.levelsDescending maxLevel)).

(** The metadata carried by any result shape. *)
Definition metadataOfResult (r : PannellumTiler.ProcessResult)
  : PannellumTiler.ResultMetadata :=
  match r with
  | PannellumTiler.ZipResult _ m => m
  | PannellumTiler.RawResult _ _ m => m
  | PannellumTiler.StreamResult _ _ m => m
  end.

(** Width and height of a canvas. *)
Definition canvasSize (canvas : Canvas) : Z :=
  match canvas with
  | FaceRender _ _ resolution => resolution
  | Downscaled _ newSize => newSize
  end.

(** A face the tiler can work on down to level 1: its canvas and every
    level's raster have at least one pixel. *)
Definition tileable (maxLevel : Z) (face : CubeFace.t) : Prop :=
  1 <= canvasSize (CubeFace.canvas face)
  /\ 1 <= Spec.resolutionAtLevel (CubeFace.resolution face) maxLevel 1.

(** Strings of decimal digits. *)
Definition isDigit (c : ascii) : bool :=
  match ZipBuilder.digitValue c with Some _ => true | None => false end.

Fixpoint allDigits (s : string) : bool :=
  match s with
  | EmptyString => true
  | String c rest => isDigit c && allDigits rest
  end.

(** A key that [files[key] = value] adds as an ordinary property, after
    the keys already there: no array index, and not [__proto__] (which
    would replace the prototype of [files] instead). *)
Definition plainKey (key : string) : Prop :=
  ZipBuilder.arrayIndex key = None /\ key <> "__proto__"%string.

(** The path [buildTile] gives the tile of a key. *)
Definition keyPath (ext : string) (key : Spec.TileKey) : string :=
  match key with
  | (faceName, level, x, y) => Tiler.tilePath level faceName x y ext
  end.

(** The entries [createZipOutput] hands to the archiver when all paths
    are distinct and none is an array index. *)
Definition zipEntries (tiles : list Tile.t) (configJson : string)
  : list (string * Blob) :=
  ("config.json"%string, mkBlob "application/json" configJson)
  :: map (fun tile => (Tile.path tile, Tile.blob tile)) tiles.


End Laws.

(* ################################################################## *)
(** * Properties *)
(* ################################################################## *)

(** ** Arithmetic of tile grids and level counts *)

Module NumFacts.
Import Num.

Lemma ceil_div_bounds a b :
  0 < b -> b * (ceil_div a b - 1) < a <= b * ceil_div a b.
Proof.
  intros Hb. unfold ceil_div.
  pose proof (Z.div_mod (- a) b ltac:(lia)) as Hdm.
  pose proof (Z.mod_pos_bound (- a) b Hb) as Hm.
  nia.
Qed.




Lemma halve_iter_div n r : halve_iter n r = r / 2 ^ Z.of_nat n.
Proof.
  revert r. induction n as [|n IH]; intros r.
  - simpl. now rewrite Z.div_1_r.
  - cbn [halve_iter]. rewrite IH. unfold halve.
    rewrite Nat2Z.inj_succ, Z.pow_succ_r by lia.
    rewrite Z.div_div by lia. reflexivity.
Qed.

End NumFacts.

Module ConfigGeneratorFacts.
Import Num NumFacts ConfigGenerator.

Lemma ceilLog2Ratio_spec c e :
  1 <= e <= c -> is_ceil_log2_ratio c e (ceilLog2Ratio c e).
Proof.
  intros [He Hc]. unfold is_ceil_log2_ratio, ceilLog2Ratio.
  pose proof (ceil_div_bounds c e ltac:(lia)) as Hq.
  set (q := ceil_div c e) in *.
  assert (Hq1 : 1 <= q) by nia.
  split; [apply Z.log2_up_nonneg|].
  destruct (Z.eq_dec q 1) as [->|Hne].
  - rewrite Z.log2_up_1. split; [lia | now left].
  - pose proof (Z.log2_up_spec q ltac:(lia)) as [Hlo Hhi].
    pose proof (Z.log2_up_pos q ltac:(lia)) as Hpos.
    rewrite <- Z.sub_1_r in Hlo.
    split; [nia | right; nia].
Qed.

Lemma is_ceil_log2_ratio_unique c e k k' :
  1 <= e ->
  is_ceil_log2_ratio c e k -> is_ceil_log2_ratio c e k' -> k = k'.
Proof.
  intros He (Hk & Hu & Hl) (Hk' & Hu' & Hl').
  destruct (Z.lt_trichotomy k k') as [Hlt|[Heq|Hgt]]; [exfalso|exact Heq|exfalso].
  - destruct Hl' as [->|Hl']; [lia|].
    assert (2 ^ k <= 2 ^ (k' - 1)) by (apply Z.pow_le_mono_r; lia). nia.
  - destruct Hl as [->|Hl]; [lia|].
    assert (2 ^ k' <= 2 ^ (k - 1)) by (apply Z.pow_le_mono_r; lia). nia.
Qed.

(** The level count leaves level 1 with a resolution between 1 and the
    tile size. *)
Lemma calculateMaxLevel_bounds c t :
  1 <= c -> 1 <= t ->
  let m := calculateMaxLevel c t in
  1 <= m /\ 1 <= c / 2 ^ (m - 1) <= t.
Proof.
  intros Hc Ht. cbv zeta. unfold calculateMaxLevel.
  set (e := Z.min t c).
  assert (He : 1 <= e <= c) by (unfold e; lia).
  destruct (ceilLog2Ratio_spec c e He) as (Hk & Hu & Hl).
  set (k := ceilLog2Ratio c e) in *.
  replace (k + 1 - 2) with (k - 1) by lia.
  destruct (Z.eq_dec k 0) as [Hk0 | Hk0].
  - (* the ratio is 1: a single level *)
    rewrite Hk0 in *. change (2 <=? 0 + 1) with false. cbn [andb].
    change (Z.max 1 (0 + 1) - 1) with 0. rewrite Z.pow_0_r, Z.div_1_r.
    rewrite Z.pow_0_r in Hu. clearbody k. subst e. change (0 + 1) with 1. lia.
  - destruct Hl as [Hl | Hl]; [contradiction|].
    assert (Hk1 : 1 <= k) by lia.
    assert (Hp1 : 0 < 2 ^ (k - 1)) by (apply Z.pow_pos_nonneg; lia).
    assert (Hp : 2 ^ k = 2 * 2 ^ (k - 1)).
    { replace k with (Z.succ (k - 1)) at 1 by lia. apply Z.pow_succ_r. lia. }
    assert (Het : e <= t) by (unfold e; lia).
    assert (Hfl : e <= c / 2 ^ (k - 1)) by (apply Z.div_le_lower_bound; nia).
    replace (2 <=? k + 1) with true by (symmetry; apply Z.leb_le; lia).
    cbn [andb].
    destruct (Z.eqb_spec (c / 2 ^ (k - 1)) e) as [Heq | Hne].
    + (* the correction applies: level 1 is exactly one tile wide *)
      replace (k + 1 - 1) with k by lia.
      rewrite Z.max_r by lia. rewrite Heq. lia.
    + rewrite Z.max_r by lia. replace (k + 1 - 1) with k by lia.
      split; [lia|]. split.
      * apply Z.div_le_lower_bound; [lia|].
        assert (e + 1 <= c / 2 ^ (k - 1)) by lia.
        pose proof (Z.mul_div_le c (2 ^ (k - 1)) Hp1). nia.
      * apply Z.div_le_upper_bound; [lia|]. nia.
Qed.

Lemma resolutionAtLevel_div r m l :
  l <= m -> Spec.resolutionAtLevel r m l = r / 2 ^ (m - l).
Proof.
  intros H. unfold Spec.resolutionAtLevel.
  rewrite halve_iter_div, Z2Nat.id by lia. reflexivity.
Qed.

Lemma calculateMaxLevel_unfold c t k :
  1 <= c -> 1 <= t -> is_ceil_log2_ratio c (Z.min t c) k ->
  calculateMaxLevel c t
  = Z.max 1 (if (2 <=? k + 1) && (c / 2 ^ (k + 1 - 2) =? Z.min t c)
             then k + 1 - 1 else k + 1).
Proof.
  intros Hc Ht Hk. unfold calculateMaxLevel.
  assert (He : 1 <= Z.min t c <= c) by lia.
  pose proof (ceilLog2Ratio_spec c (Z.min t c) He) as Hk'.
  now rewrite (is_ceil_log2_ratio_unique _ _ _ _ (proj1 He) Hk Hk').
Qed.

(** Where the rounding of the logarithm quotient is harmless, the doubles
    yield the level count of the exact logarithm. *)
Lemma calculateMaxLevel_in_doubles log c t :
  1 <= c -> 1 <= t -> rounds_to_ceiling log c t ->
  InDoubles.calculateMaxLevel log c t = Some (calculateMaxLevel c t).
Proof.
  intros Hc Ht (k & Hk & Hround).
  rewrite (calculateMaxLevel_unfold c t k Hc Ht Hk).
  unfold InDoubles.calculateMaxLevel.
  destruct Hround as [-> | [-> Hpow]]; [reflexivity|].
  destruct Hk as (Hk0 & _ & _).
  set (e := Z.min t c) in *.
  assert (He : 1 <= e) by (unfold e; lia).
  assert (Hp : 0 < 2 ^ k) by (apply Z.pow_pos_nonneg; lia).
  assert (Hdiv : c / 2 ^ k = e)
    by (symmetry; apply (Z.div_unique c (2 ^ k) e 0); lia).
  replace (k + 1 + 1 - 2) with k by lia.
  rewrite Hdiv, Z.eqb_refl.
  replace (2 <=? k + 1 + 1) with true by (symmetry; apply Z.leb_le; lia).
  cbn [andb]. f_equal. replace (k + 1 + 1 - 1) with (k + 1) by lia.
  destruct (Z.eq_dec k 0) as [->|Hne]; [reflexivity|].
  assert (Hp1 : 0 < 2 ^ (k - 1)) by (apply Z.pow_pos_nonneg; lia).
  assert (Hstep : 2 ^ k = 2 * 2 ^ (k - 1)).
  { replace k with (Z.succ (k - 1)) at 1 by lia. apply Z.pow_succ_r. lia. }
  assert (Hdiv1 : c / 2 ^ (k - 1) = 2 * e)
    by (symmetry; apply (Z.div_unique c (2 ^ (k - 1)) (2 * e) 0); nia).
  replace (k + 1 - 2) with (k - 1) by lia. rewrite Hdiv1.
  replace (2 * e =? e) with false by (symmetry; apply Z.eqb_neq; lia).
  now rewrite andb_false_r.
Qed.




End ConfigGeneratorFacts.

(** ** Reasoning about monadic code *)

Module MonadFacts.

Lemma bind_Ok_inv {A B} (c : M A) (k : A -> M B) w w' b :
  bind c k w = (w', Ok b) ->
  exists a w1, c w = (w1, Ok a) /\ k a w1 = (w', Ok b).
Proof.
  unfold bind. destruct (c w) as [w1 [a|e]]; intros H.
  - exists a, w1. auto.
  - discriminate.
Qed.

Lemma bind_Ok {A B} (c : M A) (k : A -> M B) w w1 a :
  c w = (w1, Ok a) -> bind c k w = k a w1.
Proof. unfold bind. now intros ->. Qed.

Lemma bind_Throw {A B} (c : M A) (k : A -> M B) w w1 e :
  c w = (w1, Throw e) -> bind c k w = (w1, Throw e).
Proof. unfold bind. now intros ->. Qed.

End MonadFacts.

(** ** The resource tracker *)

Module MemoryManagerFacts.
Import MemoryManager MonadFacts.

Lemma forM_dispose_ok (l : list Resource) (w : World) :
  forallb disposes_ok l = true ->
  forM_ l dispose w =
  (mkWorld (calls w) (gpu w ++ map disposed_event l) (memory w) (next_id w),
   Ok tt).
Proof.
  revert w. induction l as [|r l IH]; intros w Hok.
  - destruct w. cbn. now rewrite app_nil_r.
  - cbn in Hok. apply andb_true_iff in Hok as [Hr Hl].
    cbn [forM_]. unfold bind at 1. unfold dispose at 1.
    unfold disposes_ok in Hr. destruct (res_dispose r); [discriminate|].
    unfold emitGpu at 1. rewrite (IH _ Hl). cbn.
    now rewrite <- app_assoc.
Qed.

Lemma disposeAll_releases (w : World) :
  all_dispose_ok (memory w) = true ->
  disposeAll w =
  (mkWorld (calls w) (gpu w ++ release_events (memory w)) emptyTracker
           (next_id w), Ok tt).
Proof.
  destruct w as [cs g [ts gs ms rs rd] n]. unfold all_dispose_ok. cbn.
  rewrite !andb_true_iff. intros [[[[Ht Hg] Hm] Hr] Hd].
  unfold disposeAll, release_events, bind, getMemory, setMemory. cbn.
  rewrite (forM_dispose_ok ts _ Ht). cbn.
  rewrite (forM_dispose_ok gs _ Hg). cbn.
  rewrite (forM_dispose_ok ms _ Hm). cbn.
  rewrite (forM_dispose_ok rs _ Hr). cbn.
  destruct rd as [[r c]|]; cbn.
  - unfold disposes_ok in Hd. cbn in Hd. unfold dispose, emitGpu.
    destruct (res_dispose r); [discriminate|]. cbn.
    unfold emptyTracker, disposed_event. repeat rewrite <- app_assoc. reflexivity.
  - unfold ret, emptyTracker. now rewrite !app_nil_r, <- !app_assoc.
Qed.

Lemma forM_dispose_throw (l : list Resource) (w : World) :
  forallb disposes_ok l = false ->
  exists w' e, forM_ l dispose w = (w', Throw e) /\ memory w' = memory w.
Proof.
  revert w. induction l as [|r l IH]; intros w Hbad; [discriminate|].
  cbn in Hbad. cbn [forM_]. unfold bind at 1, dispose at 1.
  unfold disposes_ok in Hbad at 1.
  destruct (res_dispose r) as [e|].
  - exists w, e. split; reflexivity.
  - cbn in Hbad. unfold emitGpu at 1.
    destruct (IH (mkWorld (calls w) (gpu w ++ [Disposed (res_kind r) (res_id r)])
                          (memory w) (next_id w)) Hbad) as (w' & e & Hrun & Hmem).
    exists w', e. split; [exact Hrun | exact Hmem].
Qed.

(** A [dispose()] that throws is not caught: [disposeAll] throws too. *)
Lemma disposeAll_propagates (w : World) :
  all_dispose_ok (memory w) = false ->
  exists w' e, disposeAll w = (w', Throw e).
Proof.
  destruct w as [cs g [ts gs ms rs rd] n]. unfold all_dispose_ok. cbn.
  intros Hbad.
  unfold disposeAll, bind, getMemory, setMemory. cbn.
  destruct (forallb disposes_ok ts) eqn:Ht.
  2:{ destruct (forM_dispose_throw ts (mkWorld cs g (mkTracker ts gs ms rs rd) n) Ht)
        as (w' & e & -> & _). eauto. }
  rewrite (forM_dispose_ok ts _ Ht). cbn.
  destruct (forallb disposes_ok gs) eqn:Hg.
  2:{ match goal with |- context [forM_ gs dispose ?w0] =>
        destruct (forM_dispose_throw gs w0 Hg) as (w' & e & -> & _) end. eauto. }
  rewrite (forM_dispose_ok gs _ Hg). cbn.
  destruct (forallb disposes_ok ms) eqn:Hm.
  2:{ match goal with |- context [forM_ ms dispose ?w0] =>
        destruct (forM_dispose_throw ms w0 Hm) as (w' & e & -> & _) end. eauto. }
  rewrite (forM_dispose_ok ms _ Hm). cbn.
  destruct (forallb disposes_ok rs) eqn:Hr.
  2:{ match goal with |- context [forM_ rs dispose ?w0] =>
        destruct (forM_dispose_throw rs w0 Hr) as (w' & e & -> & _) end. eauto. }
  rewrite (forM_dispose_ok rs _ Hr). cbn.
  cbn in Hbad. destruct rd as [[r c]|]; [|discriminate]. cbn in *.
  unfold dispose, disposes_ok in *. destruct (res_dispose r); [|discriminate].
  cbn. eauto.
Qed.

(** A normal return of [disposeAll] leaves nothing tracked. *)
Lemma disposeAll_Ok_empties (w w' : World) :
  disposeAll w = (w', Ok tt) -> memory w' = emptyTracker.
Proof.
  intros Hrun. destruct (all_dispose_ok (memory w)) eqn:Hok.
  - rewrite (disposeAll_releases w Hok) in Hrun. now inversion Hrun.
  - destruct (disposeAll_propagates w Hok) as (w1 & e & Hthrow).
    rewrite Hthrow in Hrun. discriminate.
Qed.

(** C5 (as amended): when every tracked resource, and the renderer,
    disposes without raising, disposeAll returns normally, has disposed
    each of them category by category, leaves every set empty and the
    renderer unset, and a further call returns normally without any
    effect; this covers the empty tracker. *)
Theorem disposeAll_releases_and_is_idempotent (w : World) :
  all_dispose_ok (memory w) = true ->
  exists w1,
    disposeAll w = (w1, Ok tt)
    /\ memory w1 = emptyTracker
    /\ gpu w1 = gpu w ++ release_events (memory w)
    /\ disposeAll w1 = (w1, Ok tt).
Proof.
  intros Hok. eexists. split; [apply (disposeAll_releases w Hok)|].
  cbn. repeat split.
Qed.

Lemma disposeAll_releases_and_is_idempotent_witness :
  all_dispose_ok (memory Fixtures.healthyWorld) = true
  /\ exists w1,
       disposeAll Fixtures.healthyWorld = (w1, Ok tt)
       /\ memory w1 = emptyTracker
       /\ gpu w1 = gpu Fixtures.healthyWorld
                   ++ release_events (memory Fixtures.healthyWorld)
       /\ disposeAll w1 = (w1, Ok tt).
Proof.
  split; [reflexivity|].
  apply (disposeAll_releases_and_is_idempotent Fixtures.healthyWorld).
  reflexivity.
Defined.

(** C5 fails as stated: with a texture whose dispose() throws, disposeAll
    throws, the textures after it and the geometry are never disposed, and
    no set is cleared. *)
Lemma disposeAll_failure_not_swallowed :
  snd (disposeAll Fixtures.faultyWorld) = Throw "dispose failed"%string
  /\ memory (fst (disposeAll Fixtures.faultyWorld))
     = memory Fixtures.faultyWorld
  /\ gpu (fst (disposeAll Fixtures.faultyWorld)) = [Disposed KTexture 0].
Proof. repeat split. Qed.

End MemoryManagerFacts.

(** ** The reprojection engine *)

Module ReprojectorFacts.
Import Reprojector MonadFacts MemoryManagerFacts.

(** C2 (as amended): for every cubeResolution above min(platform texture
    limit, configured cap), reprojectToCubeFaces throws the limit error.
    At that point the off-screen canvas and the renderer have been
    allocated and the renderer is registered with the tracker (the limit
    is read from the renderer's context); no texture, geometry, material or
    render target has been allocated, no face rendered, and no progress
    reported. *)
Theorem limit_checked_after_renderer_creation
        (env : Env) (self : t) (image : Image) (cubeResolution : Z)
        (onProgress : ProgressSink) (w : World) :
  Z.min (env_MAX_TEXTURE_SIZE env) (maxTextureSize self) < cubeResolution ->
  reprojectToCubeFaces env self image cubeResolution onProgress w =
  (mkWorld (calls w)
           (gpu w ++ [Allocated KCanvas (next_id w);
                      CanvasWidth (next_id w) cubeResolution;
                      CanvasHeight (next_id w) cubeResolution;
                      Allocated KRenderer (S (next_id w))])
           (mkTracker (textures (memory w)) (geometries (memory w))
                      (materials (memory w)) (renderTargets (memory w))
                      (Some (mkRenderer
                               (mkResource KRenderer (S (next_id w)) None)
                               (next_id w))))
           (S (S (next_id w))),
   Throw (limitMessage cubeResolution
            (Z.min (env_MAX_TEXTURE_SIZE env) (maxTextureSize self)))).
Proof.
  intros Hlimit. apply Z.ltb_lt in Hlimit.
  unfold reprojectToCubeFaces, bind, alloc, emitGpu, MemoryManager.setRenderer,
    getMemory, setMemory.
  cbn. rewrite Hlimit. unfold throw. cbn.
  repeat rewrite <- app_assoc. reflexivity.
Qed.

Lemma limit_checked_after_renderer_creation_witness :
  Z.min (env_MAX_TEXTURE_SIZE Fixtures.env0) (maxTextureSize (mk 1024)) < 2048
  /\ reprojectToCubeFaces Fixtures.env0 (mk 1024) Fixtures.image0 2048 None
                          initialWorld
     = (mkWorld []
                [Allocated KCanvas 0; CanvasWidth 0 2048;
                 CanvasHeight 0 2048; Allocated KRenderer 1]
                (mkTracker [] [] [] []
                           (Some (mkRenderer (mkResource KRenderer 1 None) 0)))
                2,
        Throw (limitMessage 2048 1024)).
Proof.
  split; [reflexivity|].
  apply (limit_checked_after_renderer_creation
           Fixtures.env0 (mk 1024) Fixtures.image0 2048 None initialWorld).
  reflexivity.
Defined.

(** C2 fails as stated: when the limit error is thrown the canvas and the
    renderer context are already allocated. *)
Lemma limit_error_after_gpu_allocation :
  let run := reprojectToCubeFaces Fixtures.env0 (mk 1024) Fixtures.image0
                                  2048 None initialWorld in
  snd run = Throw "Cube resolution 2048 exceeds maximum texture size 1024"%string
  /\ In (Allocated KCanvas 0) (gpu (fst run))
  /\ In (Allocated KRenderer 1) (gpu (fst run)).
Proof. cbn. intuition. Qed.

End ReprojectorFacts.

(** ** The orchestrator *)

Module PannellumTilerFacts.
Import PannellumTiler MonadFacts MemoryManagerFacts.

(** [emit] delivers the event to every registered listener, in
    registration order, and never throws, whatever the listeners do. *)
Lemma emit_runs_every_listener (self : t) (event : EventType) (data : Payload)
      (w : World) :
  emit self event data w =
  (mkWorld (calls w ++ map (fun cb => (cb_id cb, data)) (listeners self event))
           (gpu w) (memory w) (next_id w),
   Ok tt).
Proof.
  unfold emit. generalize (listeners self event) as l. intros l. revert w.
  induction l as [|cb l IH]; intros w.
  - destruct w. cbn. now rewrite app_nil_r.
  - cbn [forM_ map]. unfold bind at 1, try_catch at 1, invoke at 1.
    destruct (cb_run cb data); cbn; rewrite IH; cbn;
      now rewrite <- app_assoc.
Qed.

(** C1, at a failing input: a cube resolution above the texture limit makes
    process throw while the renderer is still registered with the tracker
    and nothing has been disposed. *)
Theorem limit_violation_leaves_renderer_tracked :
  let run := process Fixtures.env0 Fixtures.cappedTiler
                     Fixtures.oversizedConfig initialWorld in
  snd run = Throw "Cube resolution 2048 exceeds maximum texture size 1024"%string
  /\ renderer (memory (fst run))
     = Some (mkRenderer (mkResource KRenderer 1 None) 0)
  /\ gpu (fst run) = [Allocated KCanvas 0; CanvasWidth 0 2048;
                      CanvasHeight 0 2048; Allocated KRenderer 1].
Proof. vm_compute. repeat split. Qed.

(** A tile encoding failure, by contrast, surfaces after the reprojection
    has already released everything it tracked. *)
Lemma encoding_failure_after_release :
  let run := process Fixtures.envEncodeFails (new None) Fixtures.rawConfig
                     initialWorld in
  snd run = Throw "Failed to encode tile"%string
  /\ memory (fst run) = emptyTracker
  /\ In (Disposed KRenderer 1) (gpu (fst run))
  /\ In (ContextLost 1) (gpu (fst run)).
Proof. vm_compute. intuition. Qed.

(** C6, at a failing input: a per-call onProgress callback that throws
    aborts process on the first progress report; the progress listener
    registered through on() (id 1) is never invoked, the error listener
    (id 2) receives the callback's error, and the source is never
    loaded. *)
Theorem throwing_onProgress_aborts_process :
  let run := process Fixtures.env0 Fixtures.listeningTiler
                     Fixtures.throwingProgressConfig initialWorld in
  snd run = Throw "listener failed"%string
  /\ calls (fst run)
     = [(0%nat, OfProgress (ProgressInfo.mk loading 0 None None
                              (Some "Loading source image…"%string)));
        (2%nat, OfError "listener failed"%string)]
  /\ gpu (fst run) = [].
Proof. vm_compute. repeat split. Qed.

End PannellumTilerFacts.


(** ** The tile pyramid generator *)

Module TilerFacts.
Import Num NumFacts ConfigGenerator Tiler MonadFacts.

Lemma mapE_inr {A B} (f : A -> Error + B) (l : list A) (bs : list B) :
  mapE f l = inr bs -> Forall2 (fun a b => f a = inr b) l bs.
Proof.
  revert bs. induction l as [|a l IH]; intros bs H; cbn in H.
  - inversion H. constructor.
  - destruct (f a) as [e|b] eqn:Hfa; [discriminate|].
    destruct (mapE f l) as [e|bs'] eqn:Hl; [discriminate|].
    inversion H; subst. constructor; auto.
Qed.

Lemma lift_Ok_inv {A} (r : Error + A) w w' a :
  lift r w = (w', Ok a) -> r = inr a /\ w' = w.
Proof.
  destruct r as [e|a0]; cbn; unfold throw, ret; intros H; inversion H; auto.
Qed.

Lemma Forall2_map_l {A B C} (P : B -> C -> Prop) (f : A -> B) l rs :
  Forall2 (fun a => P (f a)) l rs -> Forall2 P (map f l) rs.
Proof. induction 1; cbn; constructor; auto. Qed.

Lemma halve_iter_S n r : halve_iter (S n) r = halve (halve_iter n r).
Proof.
  revert r. induction n as [|n IH]; intros r; [reflexivity|].
  cbn [halve_iter] in *. now rewrite IH.
Qed.

Section Instance.
Variables (env : Env) (self : t).

Section FaceTiles.
Variables (face : CubeFace.t) (tileSize maxLevel : Z)
          (onProgress : option (Q -> Z -> M unit)).

Lemma batchLoop_complete canvas resolution level coords :
  forall fuel i acc w w' tiles,
    (List.length coords <= i + fuel * TILE_BATCH_SIZE)%nat ->
    batchLoop env self face tileSize maxLevel onProgress canvas resolution
              level coords fuel i acc w = (w', Ok tiles) ->
    exists rs,
      tiles = acc ++ rs
      /\ Forall2 (fun c tile =>
                    buildTile env self canvas resolution tileSize level
                              (CubeFace.name face) (fst c) (snd c) = inr tile)
                 (skipn i coords) rs.
Proof.
  induction fuel as [|fuel IH]; intros i acc w w' tiles Hfuel Hrun.
  - cbn in Hrun. inversion Hrun; subst. exists []. rewrite app_nil_r.
    split; [reflexivity|].
    rewrite skipn_all2 by (unfold TILE_BATCH_SIZE in *; lia).
    constructor.
  - cbn [batchLoop] in Hrun.
    destruct (i <? List.length coords)%nat eqn:Hi.
    + apply bind_Ok_inv in Hrun as (batch & w1 & Hbatch & Hrun).
      apply lift_Ok_inv in Hbatch as [Hbatch ->].
      apply mapE_inr in Hbatch.
      apply bind_Ok_inv in Hrun as ([] & w2 & _ & Hrun).
      apply IH in Hrun as (rs & -> & Hrs);
        [|unfold TILE_BATCH_SIZE in *; lia].
      exists (batch ++ rs). split; [now rewrite app_assoc|].
      rewrite <- (firstn_skipn TILE_BATCH_SIZE (skipn i coords)).
      apply Forall2_app; [exact Hbatch|].
      rewrite skipn_skipn. now rewrite Nat.add_comm.
    + cbn in Hrun. inversion Hrun; subst. exists []. rewrite app_nil_r.
      split; [reflexivity|]. apply Nat.ltb_ge in Hi.
      rewrite skipn_all2 by lia. constructor.
Qed.

(** The canvas and resolution the level loop holds when it enters
    [level]: those of the level above, or the face's own at the top. *)
Let entering (level : Z) : Canvas * Z :=
  if level <? maxLevel
  then (Spec.canvasAtLevel (CubeFace.canvas face) (CubeFace.resolution face)
                           maxLevel (level + 1),
        Spec.resolutionAtLevel (CubeFace.resolution face) maxLevel (level + 1))
  else (CubeFace.canvas face, CubeFace.resolution face).

Lemma levelLoop_complete :
  forall fuel level canvas resolution acc w w' tiles,
    level = Z.of_nat fuel -> level <= maxLevel ->
    (canvas, resolution) = entering level ->
    levelLoop env self face tileSize maxLevel onProgress fuel level canvas
              resolution acc w = (w', Ok tiles) ->
    exists rs,
      tiles = acc ++ rs
      /\ Forall2 (Spec.tileOf env self tileSize maxLevel face)
                 (flat_map (Spec.levelKeys (CubeFace.name face)
                              (CubeFace.resolution face) tileSize maxLevel)
                           (map (fun k => level - Z.of_nat k) (seq 0 fuel)))
                 rs.
Proof.
  induction fuel as [|fuel IH];
    intros level canvas resolution acc w w' tiles Hlevel Hmax Hstate Hrun.
  - cbn in Hrun. inversion Hrun; subst. exists []. rewrite app_nil_r.
    split; [reflexivity | constructor].
  - cbn [levelLoop] in Hrun.
    replace (1 <=? level) with true in Hrun by (symmetry; apply Z.leb_le; lia).
    (* the state after the down-scaling step is that of [level] *)
    set (res' := if level <? maxLevel then halve resolution else resolution) in *.
    set (canvas' := if level <? maxLevel then downscaleCanvas canvas res'
                    else canvas) in *.
    assert (Hres : res' = Spec.resolutionAtLevel (CubeFace.resolution face)
                                                 maxLevel level).
    { unfold res', entering, Spec.resolutionAtLevel in *.
      destruct (Z.ltb_spec level maxLevel) as [Hlt|Hge];
        injection Hstate as -> ->.
      - replace (Z.to_nat (maxLevel - level))
          with (S (Z.to_nat (maxLevel - (level + 1)))) by lia.
        now rewrite halve_iter_S.
      - replace (maxLevel - level) with 0 by lia. reflexivity. }
    assert (Hcanvas : canvas' = Spec.canvasAtLevel (CubeFace.canvas face)
                                  (CubeFace.resolution face) maxLevel level).
    { unfold canvas'. rewrite Hres.
      unfold entering, Spec.canvasAtLevel, Spec.resolutionAtLevel in *.
      destruct (Z.ltb_spec level maxLevel) as [Hlt|Hge];
        injection Hstate as -> ->.
      - replace (Z.to_nat (maxLevel - level))
          with (S (Z.to_nat (maxLevel - (level + 1)))) by lia.
        reflexivity.
      - replace (maxLevel - level) with 0 by lia. reflexivity. }
    clearbody res' canvas'. subst res' canvas'.
    apply bind_Ok_inv in Hrun as (tiles1 & w1 & Hbatch & Hrun).
    apply batchLoop_complete in Hbatch as (rs1 & -> & Hrs1);
      [|unfold TILE_BATCH_SIZE; lia].
    apply bind_Ok_inv in Hrun as ([] & w2 & _ & Hrun).
    apply IH in Hrun as (rs2 & -> & Hrs2); [ | lia | lia | ].
    + exists (rs1 ++ rs2). split; [now rewrite app_assoc|].
      cbn [seq map flat_map]. apply Forall2_app.
      * rewrite Z.sub_0_r. unfold Spec.levelKeys.
        apply Forall2_map_l. cbn [skipn] in Hrs1. exact Hrs1.
      * rewrite <- seq_shift, map_map.
        erewrite map_ext; [exact Hrs2|].
        intros k. cbn beta. lia.
    + unfold entering.
      replace (level - 1 <? maxLevel) with true by (symmetry; apply Z.ltb_lt; lia).
      now replace (level - 1 + 1) with level by lia.
Qed.

Lemma generateFaceTiles_complete w w' tiles :
  generateFaceTiles env self face tileSize maxLevel onProgress w
  = (w', Ok tiles) ->
  Forall2 (Spec.tileOf env self tileSize maxLevel face)
          (Spec.faceKeys tileSize maxLevel face) tiles.
Proof.
  unfold generateFaceTiles. intros Hrun.
  destruct (Z.le_gt_cases maxLevel 0) as [Hle|Hgt].
  - replace (Z.to_nat maxLevel) with O in Hrun by lia. cbn in Hrun.
    inversion Hrun; subst. unfold Spec.faceKeys, Spec.levelsDescending.
    replace (Z.to_nat maxLevel) with O by lia. constructor.
  - apply levelLoop_complete in Hrun as (rs & -> & Hrs); [exact Hrs|lia|lia|].
    unfold entering. now rewrite Z.ltb_irrefl.
Qed.

End FaceTiles.

Lemma faceLoop_complete totalFaces tileSize maxLevel onProgress :
  forall cubeFaces faceIndex acc w w' tiles,
    faceLoop env self totalFaces tileSize maxLevel onProgress cubeFaces
             faceIndex acc w = (w', Ok tiles) ->
    exists rs,
      tiles = acc ++ rs
      /\ Forall2 (fun wk => Spec.tileOf env self tileSize maxLevel (fst wk) (snd wk))
                 (Spec.pyramidWork tileSize maxLevel cubeFaces) rs.
Proof.
  induction cubeFaces as [|face rest IH]; intros faceIndex acc w w' tiles Hrun.
  - cbn in Hrun. inversion Hrun; subst. exists []. rewrite app_nil_r.
    split; [reflexivity | constructor].
  - cbn [faceLoop] in Hrun.
    apply bind_Ok_inv in Hrun as (faceTiles & w1 & Hface & Hrun).
    apply generateFaceTiles_complete in Hface.
    apply IH in Hrun as (rs & -> & Hrs).
    exists (faceTiles ++ rs). split; [now rewrite app_assoc|].
    cbn [Spec.pyramidWork flat_map]. apply Forall2_app; [|exact Hrs].
    apply Forall2_map_l. exact Hface.
Qed.

Lemma generateTilePyramid_complete cubeFaces tileSize maxLevel onProgress
      w w' tiles :
  generateTilePyramid env self cubeFaces tileSize maxLevel onProgress w
  = (w', Ok tiles) ->
  Forall2 (fun wk => Spec.tileOf env self tileSize maxLevel (fst wk) (snd wk))
          (Spec.pyramidWork tileSize maxLevel cubeFaces) tiles.
Proof.
  unfold generateTilePyramid. intros Hrun.
  apply bind_Ok_inv in Hrun as (tiles0 & w1 & Hloop & Hrun).
  apply bind_Ok_inv in Hrun as ([] & w2 & _ & Hrun).
  inversion Hrun; subst.
  apply faceLoop_complete in Hloop as (rs & -> & Hrs). exact Hrs.
Qed.

(** What [buildTile] puts into a tile. *)
Lemma tileOf_fields tileSize maxLevel face key tile :
  Spec.tileOf env self tileSize maxLevel face key tile ->
  Spec.tile_key tile = key
  /\ Tile.path tile
     = tilePath (Tile.level tile) (Tile.face tile) (Tile.x tile) (Tile.y tile)
                (extension (imageFormat self)).
Proof.
  destruct key as [[[faceName level] x] y]. unfold Spec.tileOf, buildTile.
  destruct (extractTile _ _ _ _ _ _ _ _) as [e|blob]; [discriminate|].
  intros H. inversion H; subst. split; reflexivity.
Qed.

Lemma pyramidWork_keys tileSize maxLevel cubeFaces :
  map snd (Spec.pyramidWork tileSize maxLevel cubeFaces)
  = Spec.pyramidKeys tileSize maxLevel cubeFaces.
Proof.
  unfold Spec.pyramidWork, Spec.pyramidKeys.
  induction cubeFaces as [|face rest IH]; [reflexivity|].
  cbn [flat_map]. rewrite map_app, IH, map_map. cbn [snd].
  now rewrite map_id.
Qed.

Lemma generateTilePyramid_keys cubeFaces tileSize maxLevel onProgress
      w w' tiles :
  generateTilePyramid env self cubeFaces tileSize maxLevel onProgress w
  = (w', Ok tiles) ->
  map Spec.tile_key tiles = Spec.pyramidKeys tileSize maxLevel cubeFaces.
Proof.
  intros Hrun. apply generateTilePyramid_complete in Hrun.
  rewrite <- pyramidWork_keys.
  induction Hrun as [|wk tile wks tiles Htile _ IH]; [reflexivity|].
  cbn [map]. rewrite IH.
  now destruct (tileOf_fields _ _ _ _ _ Htile) as [-> _].
Qed.

Lemma fallbackLoop_complete fallbackSize :
  forall cubeFaces acc tiles,
    fallbackLoop env self cubeFaces fallbackSize acc = inr tiles ->
    exists rs,
      tiles = acc ++ rs
      /\ Forall2 (fun face tile =>
                    exists blob,
                      extractTile env self (CubeFace.canvas face) 0 0
                                  (CubeFace.resolution face)
                                  (CubeFace.resolution face) fallbackSize
                      = inr blob
                      /\ tile = Tile.mk (fallbackPath (CubeFace.name face)
                                           (extension (imageFormat self)))
                                        0 (CubeFace.name face) 0 0 blob
                                        (blob_size blob))
                 cubeFaces rs.
Proof.
  induction cubeFaces as [|face rest IH]; intros acc tiles Hrun; cbn in Hrun.
  - inversion Hrun; subst. exists []. rewrite app_nil_r.
    split; [reflexivity | constructor].
  - destruct (extractTile _ _ _ _ _ _ _ _) as [e|blob] eqn:Hblob;
      [discriminate|].
    apply IH in Hrun as (rs & -> & Hrs).
    eexists (_ :: rs). split; [rewrite <- app_assoc; reflexivity|].
    constructor; [|exact Hrs]. exists blob. split; [exact Hblob|reflexivity].
Qed.

End Instance.
End TilerFacts.

(** ** Keys are enumerated without repetition *)

Module KeyFacts.
Import Num NumFacts Tiler.

Lemma NoDup_map_inj {A B} (f : A -> B) (l : list A) :
  (forall a b, In a l -> In b l -> f a = f b -> a = b) ->
  NoDup l -> NoDup (map f l).
Proof.
  intros Hinj Hl. induction Hl as [|a l Hnotin Hl IH]; cbn; constructor.
  - intros Hin. apply in_map_iff in Hin as (b & Hfb & Hb).
    apply Hinj in Hfb; [subst; contradiction | now right | now left].
  - apply IH. intros x y Hx Hy. apply Hinj; now right.
Qed.

(** Lists produced for different elements are told apart by a tag. *)
Lemma NoDup_flat_map_tagged {A B T} (f : A -> list B) (g : A -> T)
      (tag : B -> T) (l : list A) :
  NoDup (map g l) ->
  (forall a, In a l -> NoDup (f a)) ->
  (forall a x, In a l -> In x (f a) -> tag x = g a) ->
  NoDup (flat_map f l).
Proof.
  induction l as [|a l IH]; intros Hg Hf Htag; cbn; [constructor|].
  cbn in Hg. apply NoDup_cons_iff in Hg as [Hnotin Hg].
  apply NoDup_app.
  - apply Hf. now left.
  - apply IH; [exact Hg | intros; apply Hf; now right
               | intros; apply Htag; [now right | assumption]].
  - intros x Hxa Hxl. apply in_flat_map in Hxl as (b & Hb & Hxb).
    apply Hnotin. apply in_map_iff. exists b. split; [|exact Hb].
    rewrite <- (Htag a x) by (auto; now left).
    symmetry. apply Htag; [now right | exact Hxb].
Qed.

Lemma range_NoDup n : NoDup (range n).
Proof.
  unfold range. apply NoDup_map_inj; [|apply seq_NoDup].
  intros a b _ _. apply Nat2Z.inj.
Qed.

Lemma in_range n z : In z (range n) <-> 0 <= z < n.
Proof.
  unfold range. rewrite in_map_iff. split.
  - intros (k & <- & Hk). apply in_seq in Hk. lia.
  - intros Hz. exists (Z.to_nat z). split; [lia|]. apply in_seq. lia.
Qed.

Lemma in_rowMajor n c : In c (Spec.rowMajor n) <-> 0 <= fst c < n /\ 0 <= snd c < n.
Proof.
  unfold Spec.rowMajor. rewrite in_flat_map. split.
  - intros (row & Hrow & Hc). apply in_map_iff in Hc as (col & <- & Hcol).
    cbn. now rewrite in_range in *.
  - intros [Hx Hy]. exists (snd c). rewrite in_range. split; [exact Hy|].
    apply in_map_iff. exists (fst c). rewrite in_range.
    split; [now destruct c | exact Hx].
Qed.

Lemma rowMajor_NoDup n : NoDup (Spec.rowMajor n).
Proof.
  unfold Spec.rowMajor.
  apply (NoDup_flat_map_tagged _ (fun row => row) snd).
  - rewrite map_id. apply range_NoDup.
  - intros row _. apply NoDup_map_inj; [|apply range_NoDup].
    intros a b _ _ H. now inversion H.
  - intros row c _ Hc. apply in_map_iff in Hc as (col & <- & _). reflexivity.
Qed.

Lemma levelsDescending_NoDup maxLevel : NoDup (Spec.levelsDescending maxLevel).
Proof.
  unfold Spec.levelsDescending. apply NoDup_map_inj; [|apply seq_NoDup].
  intros a b _ _ H. lia.
Qed.

Lemma in_levelsDescending maxLevel level :
  In level (Spec.levelsDescending maxLevel) <-> 1 <= level <= maxLevel.
Proof.
  unfold Spec.levelsDescending. rewrite in_map_iff. split.
  - intros (k & <- & Hk). apply in_seq in Hk. lia.
  - intros Hl. exists (Z.to_nat (maxLevel - level)). split; [lia|].
    apply in_seq. lia.
Qed.

Lemma in_levelKeys faceName faceResolution tileSize maxLevel level key :
  In key (Spec.levelKeys faceName faceResolution tileSize maxLevel level) ->
  fst (fst (fst key)) = faceName /\ snd (fst (fst key)) = level
  /\ 1 <= ceil_div (Spec.resolutionAtLevel faceResolution maxLevel level)
                   tileSize.
Proof.
  unfold Spec.levelKeys. intros Hin.
  apply in_map_iff in Hin as (c & <- & Hc). apply in_rowMajor in Hc.
  cbn. repeat split; lia.
Qed.

Lemma levelKeys_NoDup faceName faceResolution tileSize maxLevel level :
  NoDup (Spec.levelKeys faceName faceResolution tileSize maxLevel level).
Proof.
  unfold Spec.levelKeys. apply NoDup_map_inj; [|apply rowMajor_NoDup].
  intros [a1 a2] [b1 b2] _ _ H. now inversion H.
Qed.

Lemma in_faceKeys tileSize maxLevel face key :
  In key (Spec.faceKeys tileSize maxLevel face) ->
  fst (fst (fst key)) = CubeFace.name face
  /\ 1 <= snd (fst (fst key)) <= maxLevel
  /\ 1 <= ceil_div (Spec.resolutionAtLevel (CubeFace.resolution face) maxLevel
                      (snd (fst (fst key)))) tileSize.
Proof.
  unfold Spec.faceKeys. intros Hin.
  apply in_flat_map in Hin as (level & Hlevel & Hkey).
  apply in_levelsDescending in Hlevel.
  apply in_levelKeys in Hkey as (Hn & Hl & Hr). rewrite Hl. auto.
Qed.

Lemma faceKeys_NoDup tileSize maxLevel face :
  NoDup (Spec.faceKeys tileSize maxLevel face).
Proof.
  unfold Spec.faceKeys.
  apply (NoDup_flat_map_tagged _ (fun level => level)
                               (fun key => snd (fst (fst key)))).
  - rewrite map_id. apply levelsDescending_NoDup.
  - intros level _. apply levelKeys_NoDup.
  - intros level key _ Hkey. now apply in_levelKeys in Hkey.
Qed.

Lemma pyramidKeys_NoDup tileSize maxLevel cubeFaces :
  NoDup (map CubeFace.name cubeFaces) ->
  NoDup (Spec.pyramidKeys tileSize maxLevel cubeFaces).
Proof.
  intros Hnames. unfold Spec.pyramidKeys.
  apply (NoDup_flat_map_tagged _ CubeFace.name
                               (fun key => fst (fst (fst key)))).
  - exact Hnames.
  - intros face _. apply faceKeys_NoDup.
  - intros face key _ Hkey. now apply in_faceKeys in Hkey.
Qed.

Lemma in_pyramidKeys tileSize maxLevel cubeFaces key :
  In key (Spec.pyramidKeys tileSize maxLevel cubeFaces) ->
  exists face,
    In face cubeFaces
    /\ fst (fst (fst key)) = CubeFace.name face
    /\ 1 <= snd (fst (fst key)) <= maxLevel
    /\ 1 <= ceil_div (Spec.resolutionAtLevel (CubeFace.resolution face)
                        maxLevel (snd (fst (fst key)))) tileSize.
Proof.
  unfold Spec.pyramidKeys. intros Hin.
  apply in_flat_map in Hin as (face & Hface & Hkey).
  exists face. split; [exact Hface|]. now apply in_faceKeys.
Qed.

Lemma range_length n : List.length (range n) = Z.to_nat n.
Proof. unfold range. now rewrite length_map, length_seq. Qed.

Lemma range_nth n j :
  (j < Z.to_nat n)%nat -> nth_error (range n) j = Some (Z.of_nat j).
Proof.
  intros Hj. unfold range. rewrite nth_error_map, nth_error_seq.
  apply Nat.ltb_lt in Hj. now rewrite Hj.
Qed.

Lemma rowMajor_length n :
  List.length (Spec.rowMajor n) = (Z.to_nat n * Z.to_nat n)%nat.
Proof.
  unfold Spec.rowMajor.
  assert (Hrows : forall rows,
             List.length (flat_map (fun row : Z => map (fun col => (col, row))
                                                       (range n)) rows)
             = (List.length rows * Z.to_nat n)%nat).
  { induction rows as [|row rows IH]; [reflexivity|].
    cbn [flat_map List.length]. rewrite length_app, length_map, IH.
    rewrite range_length. lia. }
  now rewrite Hrows, range_length.
Qed.

(** Row-major means: the tile in column [x] of row [y] sits at index
    [y * n + x]. *)
Lemma rowMajor_nth n x y :
  0 <= x < n -> 0 <= y < n ->
  nth_error (Spec.rowMajor n) (Z.to_nat (y * n + x)) = Some (x, y).
Proof.
  intros Hx Hy. unfold Spec.rowMajor.
  assert (Hrows : forall rows i,
             nth_error rows i = Some y ->
             nth_error (flat_map (fun row : Z => map (fun col => (col, row))
                                                     (range n)) rows)
                       (i * Z.to_nat n + Z.to_nat x)
             = Some (x, y)).
  { induction rows as [|row rows IH]; intros i Hi;
      [destruct i; discriminate|].
    cbn [flat_map]. destruct i as [|i]; cbn in Hi.
    - inversion Hi; subst row. cbn [Nat.mul Nat.add].
      rewrite nth_error_app1 by (rewrite length_map, range_length; lia).
      rewrite nth_error_map, range_nth by lia. cbn. f_equal. f_equal. lia.
    - rewrite nth_error_app2 by (rewrite length_map, range_length; lia).
      rewrite length_map, range_length.
      replace (S i * Z.to_nat n + Z.to_nat x - Z.to_nat n)%nat
        with (i * Z.to_nat n + Z.to_nat x)%nat by lia.
      now apply IH. }
  replace (Z.to_nat (y * n + x))
    with (Z.to_nat y * Z.to_nat n + Z.to_nat x)%nat by nia.
  apply Hrows. rewrite range_nth by lia. f_equal. lia.
Qed.

End KeyFacts.

(** ** Paths, and level overrides *)

Module PyramidFacts.
Import Num NumFacts ConfigGenerator ConfigGeneratorFacts Tiler MonadFacts TilerFacts KeyFacts.





(** C8: every tile of generateTilePyramid has path
    {level}/{face}/{column}_{row}.{ext} built from its own fields, with ext
    jpg for jpeg and webp for webp; generateFallbackTiles yields exactly one
    tile per face, at level 0, with path fallback/{face}.{ext}. *)
Theorem tile_paths_follow_convention
        (env : Env) (self : t) (cubeFaces : list CubeFace.t)
        (tileSize maxLevel fallbackSize : Z) (onProgress : ProgressSink)
        (w w1 w2 w3 : World) (tiles fallback : list Tile.t) :
  generateTilePyramid env self cubeFaces tileSize maxLevel onProgress w
  = (w1, Ok tiles) ->
  generateFallbackTiles env self cubeFaces fallbackSize w2
  = (w3, Ok fallback) ->
  let ext := match imageFormat self with
             | jpeg => "jpg"%string
             | webp => "webp"%string
             end in
  Forall (fun tile =>
            Tile.path tile
            = (string_of_Z (Tile.level tile) ++ "/" ++ Tile.face tile ++ "/"
               ++ string_of_Z (Tile.x tile) ++ "_"
               ++ string_of_Z (Tile.y tile) ++ "." ++ ext)%string)
         tiles
  /\ Forall2 (fun face tile =>
                Tile.level tile = 0
                /\ Tile.face tile = CubeFace.name face
                /\ Tile.path tile
                   = ("fallback/" ++ CubeFace.name face ++ "." ++ ext)%string)
             cubeFaces fallback.
Proof.
  intros Hpyramid Hfallback ext.
  assert (Hext : ext = extension (imageFormat self))
    by (unfold ext, extension; now destruct (imageFormat self)).
  rewrite Hext. split.
  - apply generateTilePyramid_complete in Hpyramid.
    induction Hpyramid as [|wk tile wks tiles Htile _ IH]; constructor.
    + now destruct (tileOf_fields _ _ _ _ _ _ _ Htile) as [_ ->].
    + exact IH.
  - clear Hpyramid. unfold generateFallbackTiles in Hfallback.
    apply lift_Ok_inv in Hfallback as [Hfallback _].
    apply fallbackLoop_complete in Hfallback as (rs & -> & Hrs).
    cbn [app]. induction Hrs as [|face tile faces rs Htile _ IH]; constructor.
    + destruct Htile as (blob & _ & ->). cbn. auto.
    + exact IH.
Qed.

Lemma tile_paths_follow_convention_witness :
  exists tiles fallback,
    snd (generateTilePyramid Fixtures.env0 Fixtures.tiler0 Fixtures.cubeFaces0
                             512 2 None initialWorld) = Ok tiles
    /\ snd (generateFallbackTiles Fixtures.env0 Fixtures.tiler0
                                  Fixtures.cubeFaces0 1024 initialWorld)
       = Ok fallback
    /\ List.length tiles = 30%nat /\ List.length fallback = 6%nat
    /\ Forall (fun tile =>
                 Tile.path tile
                 = (string_of_Z (Tile.level tile) ++ "/" ++ Tile.face tile
                    ++ "/" ++ string_of_Z (Tile.x tile) ++ "_"
                    ++ string_of_Z (Tile.y tile) ++ "." ++ "jpg")%string)
              tiles
    /\ Forall2 (fun face tile =>
                  Tile.level tile = 0
                  /\ Tile.face tile = CubeFace.name face
                  /\ Tile.path tile
                     = ("fallback/" ++ CubeFace.name face ++ "." ++ "jpg")%string)
               Fixtures.cubeFaces0 fallback.
Proof.
  pose (p := generateTilePyramid Fixtures.env0 Fixtures.tiler0
               Fixtures.cubeFaces0 512 2 None initialWorld).
  pose (f := generateFallbackTiles Fixtures.env0 Fixtures.tiler0
               Fixtures.cubeFaces0 1024 initialWorld).
  assert (Hp : exists w1 tiles, p = (w1, Ok tiles) /\ List.length tiles = 30%nat)
    by (vm_compute; eauto).
  assert (Hf : exists w3 fb, f = (w3, Ok fb) /\ List.length fb = 6%nat)
    by (vm_compute; eauto).
  destruct Hp as (w1 & tiles & Hp & Hlen), Hf as (w3 & fb & Hf & Hlenf).
  exists tiles, fb. fold p f. rewrite Hp, Hf.
  split; [reflexivity|]. split; [reflexivity|].
  split; [exact Hlen|]. split; [exact Hlenf|].
  exact (tile_paths_follow_convention
           Fixtures.env0 Fixtures.tiler0 Fixtures.cubeFaces0 512 2 1024 None
           initialWorld w1 initialWorld w3 tiles fb Hp Hf).
Defined.





End PyramidFacts.

(** ** Tile paths are distinct, and none is an array index *)

Module PathFacts.
Import Num Tiler MonadFacts TilerFacts KeyFacts Laws.

Lemma string_of_uint_digits d : allDigits (NilEmpty.string_of_uint d) = true.
Proof. induction d; cbn; auto. Qed.

Lemma string_of_Z_digits z : 0 <= z -> allDigits (string_of_Z z) = true.
Proof.
  intros Hz. unfold string_of_Z. destruct z as [|p|p]; [reflexivity| |lia].
  cbn [Z.to_int NilZero.string_of_int]. unfold NilZero.string_of_uint.
  destruct (Pos.to_uint p); [reflexivity | apply string_of_uint_digits ..].
Qed.

Lemma string_of_Z_nonempty z : string_of_Z z <> EmptyString.
Proof.
  unfold string_of_Z. destruct z as [|p|p]; cbn; try discriminate.
  unfold NilZero.string_of_uint. destruct (Pos.to_uint p); discriminate.
Qed.

Lemma string_of_Z_inj z z' : string_of_Z z = string_of_Z z' -> z = z'.
Proof.
  assert (Hparse : forall n,
             NilZero.int_of_string (string_of_Z n) = Some (Z.to_int n)).
  { intros n. unfold string_of_Z. apply NilZero.isi.
    all: destruct n as [|q|q]; cbn; try discriminate.
    all: intros Heq; inversion Heq as [Hnil].
    all: exact (DecimalPos.Unsigned.to_uint_nonnil q Hnil). }
  intros Heq. apply DecimalZ.to_int_inj.
  pose proof (Hparse z) as Hz. rewrite Heq, Hparse in Hz. now inversion Hz.
Qed.

(** A string of digits followed by a separator is read in one way only. *)
Lemma digits_then_separator s1 :
  forall s2 c1 c2 r1 r2,
    allDigits s1 = true -> allDigits s2 = true ->
    isDigit c1 = false -> isDigit c2 = false ->
    (s1 ++ String c1 r1)%string = (s2 ++ String c2 r2)%string ->
    s1 = s2 /\ c1 = c2 /\ r1 = r2.
Proof.
  induction s1 as [|a s1 IH]; intros [|b s2] c1 c2 r1 r2 H1 H2 Hc1 Hc2 Heq;
    cbn in *.
  - inversion Heq. auto.
  - inversion Heq; subst. apply andb_true_iff in H2 as [H2 _]. congruence.
  - inversion Heq; subst. apply andb_true_iff in H1 as [H1 _]. congruence.
  - inversion Heq; subst.
    apply andb_true_iff in H1 as [_ H1]. apply andb_true_iff in H2 as [_ H2].
    destruct (IH s2 c1 c2 r1 r2 H1 H2 Hc1 Hc2) as (-> & -> & ->); auto.
Qed.

Lemma tilePath_shape level faceName x y ext :
  tilePath level faceName x y ext
  = (string_of_Z level
     ++ String "/" (faceName
        ++ String "/" (string_of_Z x
           ++ String "_" (string_of_Z y ++ String "." ext))))%string.
Proof. reflexivity. Qed.

(** Level, face, column and row can be read back from a path. *)
Lemma tilePath_inj l f x y l' f' x' y' ext ext' :
  0 <= l -> 0 <= l' -> 0 <= x -> 0 <= x' -> 0 <= y -> 0 <= y' ->
  In f PannellumTiler.FACE_NAMES -> In f' PannellumTiler.FACE_NAMES ->
  tilePath l f x y ext = tilePath l' f' x' y' ext' ->
  (f, l, x, y) = (f', l', x', y').
Proof.
  intros Hl Hl' Hx Hx' Hy Hy' Hf Hf' Heq. rewrite !tilePath_shape in Heq.
  apply digits_then_separator in Heq as (Hlevel & _ & Heq);
    try (now apply string_of_Z_digits); try reflexivity.
  apply string_of_Z_inj in Hlevel. subst l'.
  assert (Hface : f = f'
                  /\ (string_of_Z x
                      ++ String "_" (string_of_Z y ++ String "." ext))%string
                     = (string_of_Z x'
                        ++ String "_" (string_of_Z y' ++ String "." ext'))%string).
  { unfold PannellumTiler.FACE_NAMES in Hf, Hf'. cbn [In] in Hf, Hf'.
    destruct Hf as [<-|[<-|[<-|[<-|[<-|[<-|[]]]]]]];
      destruct Hf' as [<-|[<-|[<-|[<-|[<-|[<-|[]]]]]]];
      cbn in Heq; try discriminate; injection Heq as Heq; auto. }
  destruct Hface as [<- Hrest].
  apply digits_then_separator in Hrest as (Hcol & _ & Hrest);
    try (now apply string_of_Z_digits); try reflexivity.
  apply string_of_Z_inj in Hcol. subst x'.
  apply digits_then_separator in Hrest as (Hrow & _ & _);
    try (now apply string_of_Z_digits); try reflexivity.
  apply string_of_Z_inj in Hrow. now subst y'.
Qed.

(** A pyramid path starts with a digit. *)
Lemma tilePath_head l f x y ext c r :
  0 <= l -> isDigit c = false -> tilePath l f x y ext <> String c r.
Proof.
  intros Hl Hc Heq. rewrite tilePath_shape in Heq.
  change (String c r) with (EmptyString ++ String c r)%string in Heq.
  apply digits_then_separator in Heq as (Hempty & _);
    try (now apply string_of_Z_digits); try reflexivity; try exact Hc.
  exact (string_of_Z_nonempty l Hempty).
Qed.

Lemma numeral_separator s c r :
  forall acc, isDigit c = false ->
              ZipBuilder.numeral (s ++ String c r) acc = None.
Proof.
  unfold isDigit. induction s as [|a s IH]; intros acc Hc; cbn.
  - destruct (ZipBuilder.digitValue c); [discriminate | reflexivity].
  - destruct (ZipBuilder.digitValue a); [now apply IH | reflexivity].
Qed.

(** A key with a character that is not a digit is no array index. *)
Lemma arrayIndex_separator s c r :
  isDigit c = false -> ZipBuilder.arrayIndex (s ++ String c r) = None.
Proof.
  intros Hc. unfold ZipBuilder.arrayIndex.
  pose proof (numeral_separator s c r 0 Hc) as Hnum.
  destruct (s ++ String c r)%string; [reflexivity|]. now rewrite Hnum.
Qed.

Lemma tilePath_no_index l f x y ext :
  ZipBuilder.arrayIndex (tilePath l f x y ext) = None.
Proof. rewrite tilePath_shape. now apply arrayIndex_separator. Qed.

Lemma fallbackPath_no_index f ext :
  ZipBuilder.arrayIndex (fallbackPath f ext) = None.
Proof. exact (arrayIndex_separator EmptyString "f" _ eq_refl). Qed.

Lemma pyramidKeys_coords tileSize maxLevel cubeFaces key :
  In key (Spec.pyramidKeys tileSize maxLevel cubeFaces) ->
  0 <= snd (fst key) /\ 0 <= snd key.
Proof.
  unfold Spec.pyramidKeys, Spec.faceKeys, Spec.levelKeys. intros Hin.
  apply in_flat_map in Hin as (face & _ & Hin).
  apply in_flat_map in Hin as (level & _ & Hin).
  apply in_map_iff in Hin as (c & <- & Hc). apply in_rowMajor in Hc.
  cbn. lia.
Qed.

Section Run.
Variables (env : Env) (self : t).

(** The paths of a pyramid are the paths of its keys. *)
Lemma pyramid_paths cubeFaces tileSize maxLevel onProgress w w' tiles :
  generateTilePyramid env self cubeFaces tileSize maxLevel onProgress w
  = (w', Ok tiles) ->
  map Tile.path tiles
  = map (keyPath (ConfigGenerator.extension (imageFormat self)))
        (Spec.pyramidKeys tileSize maxLevel cubeFaces).
Proof.
  intros Hrun. apply generateTilePyramid_complete in Hrun.
  rewrite <- pyramidWork_keys.
  induction Hrun as [|wk tile wks tiles Htile _ IH]; [reflexivity|].
  cbn [map]. rewrite IH. f_equal.
  destruct (tileOf_fields _ _ _ _ _ _ _ Htile) as [Hkey Hpath].
  rewrite Hpath, <- Hkey. reflexivity.
Qed.

Lemma fallback_paths cubeFaces fallbackSize w w' tiles :
  generateFallbackTiles env self cubeFaces fallbackSize w = (w', Ok tiles) ->
  map Tile.path tiles
  = map (fun face => fallbackPath (CubeFace.name face)
                       (ConfigGenerator.extension (imageFormat self)))
        cubeFaces.
Proof.
  unfold generateFallbackTiles. intros Hrun.
  apply lift_Ok_inv in Hrun as [Hrun _].
  apply fallbackLoop_complete in Hrun as (rs & -> & Hrs). cbn [app].
  induction Hrs as [|face tile faces rs (blob & _ & ->) _ IH];
    [reflexivity|].
  cbn [map]. now rewrite IH.
Qed.

(** The tiles of one run over the six faces have pairwise distinct paths,
    none of them config.json and none an array index. *)
Lemma run_paths cubeFaces tileSize maxLevel onProgress (withFallback : bool)
      w1 w2 w3 pyramid fallback :
  map CubeFace.name cubeFaces = PannellumTiler.FACE_NAMES ->
  generateTilePyramid env self cubeFaces tileSize maxLevel onProgress w1
  = (w2, Ok pyramid) ->
  (if withFallback then generateFallbackTiles env self cubeFaces 1024
   else ret []) w2 = (w3, Ok fallback) ->
  NoDup (map Tile.path (pyramid ++ fallback))
  /\ forall p, In p (map Tile.path (pyramid ++ fallback)) ->
               ~ In p ["config.json"%string]
               /\ ZipBuilder.arrayIndex p = None.
Proof.
  intros Hnames Hpyramid Hfallback.
  set (ext := ConfigGenerator.extension (imageFormat self)).
  pose proof (pyramid_paths _ _ _ _ _ _ _ Hpyramid) as Hpp. fold ext in Hpp.
  assert (Hfp : map Tile.path fallback
                = if withFallback
                  then map (fun n => fallbackPath n ext)
                           PannellumTiler.FACE_NAMES
                  else []).
  { destruct withFallback.
    - rewrite (fallback_paths _ _ _ _ _ Hfallback). fold ext.
      now rewrite <- Hnames, map_map.
    - unfold ret in Hfallback. now inversion Hfallback. }
  assert (Hkey : forall key,
             In key (Spec.pyramidKeys tileSize maxLevel cubeFaces) ->
             exists l f x y,
               key = (f, l, x, y) /\ 0 <= l /\ 0 <= x /\ 0 <= y
               /\ In f PannellumTiler.FACE_NAMES).
  { intros [[[f l] x] y] Hin.
    destruct (pyramidKeys_coords _ _ _ _ Hin) as [Hx Hy].
    apply in_pyramidKeys in Hin as (face & Hface & Hname & Hlevel & _).
    cbn [fst snd] in *. exists l, f, x, y. repeat split; try lia.
    rewrite <- Hnames, Hname. now apply in_map. }
  assert (Hfb : forall p,
             In p (map Tile.path fallback) ->
             exists r, p = String "f" r).
  { intros p Hp. rewrite Hfp in Hp. destruct withFallback; [|contradiction].
    apply in_map_iff in Hp as (n & <- & _). eexists. reflexivity. }
  rewrite map_app. split.
  - apply NoDup_app.
    + rewrite Hpp. apply NoDup_map_inj.
      * intros a b Ha Hb Heq.
        destruct (Hkey a Ha) as (l & f & x & y & -> & Hl & Hx & Hy & Hf).
        destruct (Hkey b Hb) as (l' & f' & x' & y' & -> & Hl' & Hx' & Hy' & Hf').
        cbn [keyPath] in Heq. now apply tilePath_inj in Heq.
      * apply pyramidKeys_NoDup. rewrite Hnames.
        unfold PannellumTiler.FACE_NAMES.
        repeat constructor; cbn; intuition discriminate.
    + rewrite Hfp. destruct withFallback; [|constructor].
      unfold PannellumTiler.FACE_NAMES, fallbackPath.
      repeat constructor; cbn; intuition discriminate.
    + intros p Hp Hf. destruct (Hfb p Hf) as [r ->].
      rewrite Hpp in Hp. apply in_map_iff in Hp as (key & Hpath & Hin).
      destruct (Hkey key Hin) as (l & f & x & y & -> & Hl & _).
      cbn [keyPath] in Hpath. now apply tilePath_head in Hpath.
  - intros p Hp. apply in_app_iff in Hp as [Hp|Hp].
    + rewrite Hpp in Hp. apply in_map_iff in Hp as (key & <- & Hin).
      destruct (Hkey key Hin) as (l & f & x & y & -> & Hl & _).
      cbn [keyPath]. split; [|apply tilePath_no_index].
      intros [Heq|[]]. symmetry in Heq. now apply tilePath_head in Heq.
    + destruct (Hfb p Hp) as [r ->]. split.
      * intros [Heq|[]]. discriminate.
      * exact (arrayIndex_separator EmptyString "f" r eq_refl).
Qed.

End Run.

End PathFacts.

(** ** The entries of the archive *)

Module ZipFacts.
Import MonadFacts Laws.

Lemma hasKey_In key files :
  ZipBuilder.hasKey key files = true <-> In key (map fst files).
Proof.
  unfold ZipBuilder.hasKey. rewrite existsb_exists. split.
  - intros ([k v] & Hin & Heq). apply String.eqb_eq in Heq. cbn in Heq.
    subst. now apply (in_map fst) in Hin.
  - intros Hin. apply in_map_iff in Hin as ([k v] & <- & Hin).
    exists (k, v). split; [exact Hin | apply String.eqb_refl].
Qed.

Lemma hasKey_fresh key files :
  ~ In key (map fst files) -> ZipBuilder.hasKey key files = false.
Proof.
  intros Hfresh. destruct (ZipBuilder.hasKey key files) eqn:Hk;
    [|reflexivity].
  apply hasKey_In in Hk. contradiction.
Qed.

(** A new key that is no array index goes last. *)
Lemma assign_fresh key value files :
  ~ In key (map fst files) -> ZipBuilder.arrayIndex key = None ->
  ZipBuilder.assign key value files = files ++ [(key, value)].
Proof.
  intros Hfresh Hindex. unfold ZipBuilder.assign.
  now rewrite (hasKey_fresh key files Hfresh), Hindex.
Qed.











(** The entries depend on the tiles only, not on the progress callback. *)
Lemma addTiles_files total onProgress :
  forall tiles i files w w' out,
    ZipBuilder.addTiles total onProgress tiles i files w = (w', Ok out) ->
    out = fold_left (fun fs tile =>
                       ZipBuilder.assign (Tile.path tile) (Tile.blob tile) fs)
                    tiles files.
Proof.
  induction tiles as [|tile tiles IH]; intros i files w w' out Hrun.
  - cbn in Hrun. unfold ret in Hrun. now inversion Hrun.
  - cbn [ZipBuilder.addTiles] in Hrun.
    apply bind_Ok_inv in Hrun as ([] & w1 & _ & Hrun).
    apply IH in Hrun. exact Hrun.
Qed.

Lemma assign_all_distinct :
  forall tiles files,
    NoDup (map Tile.path tiles) ->
    (forall p, In p (map Tile.path tiles) ->
               ~ In p (map fst files) /\ ZipBuilder.arrayIndex p = None) ->
    fold_left (fun fs tile =>
                 ZipBuilder.assign (Tile.path tile) (Tile.blob tile) fs)
              tiles files
    = files ++ map (fun tile => (Tile.path tile, Tile.blob tile)) tiles.
Proof.
  induction tiles as [|tile tiles IH]; intros files Hnodup Hfresh.
  - cbn. now rewrite app_nil_r.
  - cbn [fold_left map]. cbn in Hnodup.
    apply NoDup_cons_iff in Hnodup as [Hnotin Hnodup].
    destruct (Hfresh (Tile.path tile) ltac:(now left)) as [Hnew Hindex].
    rewrite (assign_fresh _ _ _ Hnew Hindex). rewrite IH.
    + now rewrite <- app_assoc.
    + exact Hnodup.
    + intros p Hp. destruct (Hfresh p ltac:(now right)) as [Hp1 Hp2].
      split; [|exact Hp2]. rewrite map_app, in_app_iff. cbn.
      intros [Hin|[<-|[]]]; contradiction.
Qed.

Lemma addTiles_distinct total :
  forall tiles i files w,
    NoDup (map Tile.path tiles) ->
    (forall p, In p (map Tile.path tiles) ->
               ~ In p (map fst files) /\ ZipBuilder.arrayIndex p = None) ->
    ZipBuilder.addTiles total None tiles i files w
    = (w, Ok (files ++ map (fun tile => (Tile.path tile, Tile.blob tile))
                           tiles)).
Proof.
  induction tiles as [|tile tiles IH]; intros i files w Hnodup Hfresh.
  - cbn. now rewrite app_nil_r.
  - cbn [ZipBuilder.addTiles map]. cbn in Hnodup.
    apply NoDup_cons_iff in Hnodup as [Hnotin Hnodup].
    destruct (Hfresh (Tile.path tile) ltac:(now left)) as [Hnew Hindex].
    rewrite (assign_fresh _ _ _ Hnew Hindex).
    unfold bind at 1. unfold ret at 1. rewrite IH.
    + now rewrite <- app_assoc.
    + exact Hnodup.
    + intros p Hp. destruct (Hfresh p ltac:(now right)) as [Hp1 Hp2].
      split; [|exact Hp2]. rewrite map_app, in_app_iff. cbn.
      intros [Hin|[<-|[]]]; contradiction.
Qed.

(** What a successful [createZipOutput] archived, for distinct paths. *)
Lemma createZipOutput_entries env tiles configJson onProgress w w' blob :
  NoDup (map Tile.path tiles) ->
  (forall p, In p (map Tile.path tiles) ->
             ~ In p ["config.json"%string]
             /\ ZipBuilder.arrayIndex p = None) ->
  ZipBuilder.createZipOutput env tiles configJson onProgress w
  = (w', Ok blob) ->
  exists archive,
    env_zip env (zipEntries tiles configJson) = inr archive
    /\ blob = mkBlob "application/zip" (blob_data archive).
Proof.
  intros Hnodup Hfresh. unfold ZipBuilder.createZipOutput. intros Hrun.
  apply bind_Ok_inv in Hrun as (files & w1 & Hadd & Hrun).
  apply addTiles_files in Hadd.
  rewrite (assign_all_distinct
             tiles [("config.json"%string,
                     mkBlob "application/json" configJson)] Hnodup Hfresh)
    in Hadd.
  cbn [app] in Hadd.
  fold (zipEntries tiles configJson) in Hadd. subst files.
  destruct (env_zip env (zipEntries tiles configJson)) as [e|archive];
    [unfold throw in Hrun; discriminate|].
  unfold ret in Hrun. inversion Hrun. eauto.
Qed.

End ZipFacts.

(** ** The whole pipeline *)

Module PipelineFacts.
Import Num NumFacts ConfigGenerator PannellumTiler MonadFacts TilerFacts
       KeyFacts PannellumTilerFacts MemoryManagerFacts.

Lemma rethrow_Ok {A} (c : M A) (self : t) w w' (a : A) :
  try_catch c (fun err => emit self EvError (OfError err) ;;; throw err) w
  = (w', Ok a) <-> c w = (w', Ok a).
Proof.
  unfold try_catch. destruct (c w) as [w1 [a1|e]]; [tauto|].
  unfold bind. rewrite emit_runs_every_listener. unfold throw.
  split; discriminate.
Qed.

Lemma validateConfig_Ok config w w' :
  validateConfig config w = (w', Ok tt) ->
  w' = w
  /\ In (output config) ["zip"; "raw"; "stream"]%string
  /\ 1 <= Spec.tileSizeOf config
  /\ forall mode, In mode ["zip"; "raw"; "stream"]%string ->
                  validateConfig (Spec.withOutput config mode) w = (w, Ok tt).
Proof.
  unfold validateConfig, Spec.tileSizeOf.
  cbn [Spec.withOutput sourceImage tileSize quality output].
  destruct (sourceImage config) as [[|ch s]|b];
    try (unfold throw; discriminate).
  all: destruct (String.eqb (output config) EmptyString);
    [unfold throw; discriminate|].
  all: destruct (existsb _ _) eqn:Hmode; cbn [negb];
    [|unfold throw; discriminate].
  all: destruct (match quality config with Some _ => _ | None => _ end);
    [unfold throw; discriminate|].
  all: destruct (tileSize config) as [size|];
    [destruct (Z.ltb_spec size 1); [unfold throw; discriminate|]|].
  all: unfold ret; intros Hret; inversion Hret; subst; split; [reflexivity|].
  all: split;
    [apply existsb_exists in Hmode as (m & Hm & Heq);
     apply String.eqb_eq in Heq; now subst|].
  all: split; [lia|].
  all: intros mode [<-|[<-|[<-|[]]]]; reflexivity.
Qed.

Lemma renderFaces_Ok image cubeResolution rendererId onProgress :
  forall cfgs i acc w w' faces,
    Reprojector.renderFaces image cubeResolution rendererId onProgress i cfgs
                            acc w = (w', Ok faces) ->
    faces = acc ++ map (fun cfg => CubeFace.mk (fc_name cfg)
                                     (FaceRender image cfg cubeResolution)
                                     cubeResolution) cfgs.
Proof.
  induction cfgs as [|cfg rest IH]; intros i acc w w' faces Hrun.
  - cbn in Hrun. inversion Hrun. now rewrite app_nil_r.
  - cbn [Reprojector.renderFaces] in Hrun.
    apply bind_Ok_inv in Hrun as ([] & w1 & _ & Hrun).
    apply bind_Ok_inv in Hrun as ([] & w2 & _ & Hrun).
    apply IH in Hrun. rewrite Hrun, <- app_assoc. reflexivity.
Qed.

(** A successful reprojection returns the six faces in canonical order and
    leaves nothing tracked. *)
Lemma reprojectToCubeFaces_Ok env self image cubeResolution onProgress
      w w' faces :
  Reprojector.reprojectToCubeFaces env self image cubeResolution onProgress w
  = (w', Ok faces) ->
  faces = Spec.renderedFaces image cubeResolution
  /\ memory w' = emptyTracker.
Proof.
  unfold Reprojector.reprojectToCubeFaces. intros Hrun.
  apply bind_Ok_inv in Hrun as (canvas & w1 & _ & Hrun).
  apply bind_Ok_inv in Hrun as ([] & w2 & _ & Hrun).
  apply bind_Ok_inv in Hrun as ([] & w3 & _ & Hrun).
  apply bind_Ok_inv in Hrun as (rnd & w4 & _ & Hrun).
  apply bind_Ok_inv in Hrun as ([] & w5 & _ & Hrun).
  destruct (_ <? _); [unfold throw in Hrun; discriminate|].
  apply bind_Ok_inv in Hrun as (texture & w6 & _ & Hrun).
  apply bind_Ok_inv in Hrun as (? & w7 & _ & Hrun).
  apply bind_Ok_inv in Hrun as (geometry & w8 & _ & Hrun).
  apply bind_Ok_inv in Hrun as (? & w9 & _ & Hrun).
  apply bind_Ok_inv in Hrun as (material & w10 & _ & Hrun).
  apply bind_Ok_inv in Hrun as (? & w11 & _ & Hrun).
  apply bind_Ok_inv in Hrun as (target & w12 & _ & Hrun).
  apply bind_Ok_inv in Hrun as (? & w13 & _ & Hrun).
  apply bind_Ok_inv in Hrun as (faces0 & w14 & Hfaces & Hrun).
  apply bind_Ok_inv in Hrun as ([] & w15 & _ & Hrun).
  apply bind_Ok_inv in Hrun as ([] & w16 & Hdispose & Hrun).
  inversion Hrun; subst.
  apply renderFaces_Ok in Hfaces. apply disposeAll_Ok_empties in Hdispose.
  split; [exact Hfaces | exact Hdispose].
Qed.

(** What a successful [process] has done: the source was decoded, the six
    faces rendered, the pyramid and (when requested) the fallback tiles
    generated with the fixed size 1024, and their concatenation handed to
    the output builder of the requested mode. *)
Lemma process_Ok_inv env self config w w' r :
  process env self config w = (w', Ok r) ->
  exists image w1 w2 w3 pyramid fallback,
    snd (env_loadImage env (sourceImage config)) = inr image
    /\ 1 <= Spec.tileSizeOf config
    /\ let cubeFaces :=
         Spec.renderedFaces image (Spec.cubeResolutionOf env config image) in
       let allTiles := pyramid ++ fallback in
       let configJson := Spec.descriptorOf env config image in
       let metadata := Spec.metadataOf env config image allTiles in
       Tiler.generateTilePyramid env (Spec.tilerOf config) cubeFaces
         (Spec.tileSizeOf config) (Spec.maxLevelOf env config image)
         (Some (progressOf self (onProgress config))) w1
       = (w2, Ok pyramid)
       /\ (if Spec.fallbackOf config
           then Tiler.generateFallbackTiles env (Spec.tilerOf config)
                                            cubeFaces 1024
           else ret []) w2 = (w3, Ok fallback)
       /\ (output config = "raw"%string ->
           w' = w3 /\ r = buildRawResult allTiles configJson metadata)
       /\ (output config = "stream"%string ->
           w' = w3 /\ r = buildStreamResult allTiles configJson metadata)
       /\ (output config = "zip"%string ->
           buildZipResult env allTiles configJson metadata
                          (progressOf self (onProgress config)) w3
           = (w', Ok r))
       /\ process env self (Spec.withOutput config "raw") w
          = (w3, Ok (buildRawResult allTiles configJson metadata))
       /\ process env self (Spec.withOutput config "stream") w
          = (w3, Ok (buildStreamResult allTiles configJson metadata)).
Proof.
  unfold process. destruct (disposed self) eqn:Hdisposed;
    [unfold throw; discriminate|].
  intros Hrun.
  apply bind_Ok_inv in Hrun as ([] & w0 & Hvalid & Hrun).
  apply validateConfig_Ok in Hvalid as (-> & Hmode & Hsize & Hmodes).
  apply rethrow_Ok in Hrun.
  apply bind_Ok_inv in Hrun as ([] & wa & H1 & Hrun).
  apply bind_Ok_inv in Hrun as ([] & wb & H2 & Hrun).
  apply bind_Ok_inv in Hrun as (image & wc & H3 & Hrun).
  apply bind_Ok_inv in Hrun as ([] & wd & H4 & Hrun).
  apply bind_Ok_inv in Hrun as (reprojector & we & H5 & Hrun).
  apply bind_Ok_inv in Hrun as (cubeFaces & w1 & H6 & Hrun).
  apply bind_Ok_inv in Hrun as (pyramid & w2 & H7 & Hrun).
  apply bind_Ok_inv in Hrun as (fallback & w3 & H8 & Hrun).
  pose proof H3 as Himage. apply lift_Ok_inv in Himage as [Himage _].
  pose proof H6 as Hfaces. apply reprojectToCubeFaces_Ok in Hfaces as [Hfaces _].
  exists image, w1, w2, w3, pyramid, fallback.
  split; [exact Himage|]. split; [exact Hsize|].
  cbv zeta. subst cubeFaces.
  split; [exact H7|]. split; [exact H8|].
  split; [|split; [|split; [|split]]].
  - intros Hraw. rewrite Hraw in Hrun. cbn in Hrun. unfold ret in Hrun.
    inversion Hrun. split; reflexivity.
  - intros Hstream. rewrite Hstream in Hrun. cbn in Hrun. unfold ret in Hrun.
    inversion Hrun. split; reflexivity.
  - intros Hzip. rewrite Hzip in Hrun. exact Hrun.
  - cbn [Spec.withOutput sourceImage tileSize maxLevel cubeResolution quality
           output fallbackTiles imageFormat onProgress].
    rewrite (bind_Ok _ _ _ _ _ (Hmodes "raw"%string ltac:(cbn; tauto))).
    apply rethrow_Ok.
    rewrite (bind_Ok _ _ _ _ _ H1). rewrite (bind_Ok _ _ _ _ _ H2).
    rewrite (bind_Ok _ _ _ _ _ H3). rewrite (bind_Ok _ _ _ _ _ H4).
    rewrite (bind_Ok _ _ _ _ _ H5). rewrite (bind_Ok _ _ _ _ _ H6).
    rewrite (bind_Ok _ _ _ _ _ H7). rewrite (bind_Ok _ _ _ _ _ H8).
    reflexivity.
  - cbn [Spec.withOutput sourceImage tileSize maxLevel cubeResolution quality
           output fallbackTiles imageFormat onProgress].
    rewrite (bind_Ok _ _ _ _ _ (Hmodes "stream"%string ltac:(cbn; tauto))).
    apply rethrow_Ok.
    rewrite (bind_Ok _ _ _ _ _ H1). rewrite (bind_Ok _ _ _ _ _ H2).
    rewrite (bind_Ok _ _ _ _ _ H3). rewrite (bind_Ok _ _ _ _ _ H4).
    rewrite (bind_Ok _ _ _ _ _ H5). rewrite (bind_Ok _ _ _ _ _ H6).
    rewrite (bind_Ok _ _ _ _ _ H7). rewrite (bind_Ok _ _ _ _ _ H8).
    reflexivity.
Qed.


Lemma renderedFaces_names image cubeResolution :
  map CubeFace.name (Spec.renderedFaces image cubeResolution) = FACE_NAMES.
Proof. reflexivity. Qed.

Lemma FACE_NAMES_NoDup : NoDup FACE_NAMES.
Proof.
  unfold FACE_NAMES. repeat constructor; cbn; intuition discriminate.
Qed.

Lemma stream_item_keys tiles configJson :
  map Spec.item_key (tl (createTileStream tiles configJson))
  = map (fun tile => Some (Spec.tile_key tile)) tiles.
Proof. unfold createTileStream. cbn [tl]. now rewrite map_map. Qed.

Lemma fallback_keys env self cubeFaces fallbackSize w w' fallback :
  Tiler.generateFallbackTiles env self cubeFaces fallbackSize w
  = (w', Ok fallback) ->
  w' = w
  /\ map Spec.tile_key fallback = Spec.fallbackKeys cubeFaces
  /\ Forall2 (fun face tile =>
                exists request blob,
                  env_encode env request = inr blob
                  /\ er_outputSize request = fallbackSize
                  /\ er_source request = CubeFace.canvas face
                  /\ (er_sx request, er_sy request) = (0, 0)
                  /\ (er_sw request, er_sh request)
                     = (CubeFace.resolution face, CubeFace.resolution face)
                  /\ Tile.blob tile = blob
                  /\ Tile.level tile = 0
                  /\ Tile.face tile = CubeFace.name face)
             cubeFaces fallback.
Proof.
  unfold Tiler.generateFallbackTiles. intros Hrun.
  apply lift_Ok_inv in Hrun as [Hrun ->]. split; [reflexivity|].
  apply fallbackLoop_complete in Hrun as (rs & -> & Hrs). cbn [app].
  unfold Spec.fallbackKeys.
  induction Hrs as [|face tile faces rs (blob & Hblob & ->) _ [IHk IHf]];
    [split; [reflexivity | constructor]|].
  split; [cbn [map]; now rewrite IHk|].
  constructor; [|exact IHf].
  eexists _, blob. split; [exact Hblob|]. cbn. repeat split.
Qed.

Lemma all_keys_NoDup tileSize maxLevel cubeFaces (withFallback : bool) :
  NoDup (map CubeFace.name cubeFaces) ->
  NoDup (Spec.pyramidKeys tileSize maxLevel cubeFaces
         ++ (if withFallback then Spec.fallbackKeys cubeFaces else [])).
Proof.
  intros Hnames. apply NoDup_app.
  - now apply pyramidKeys_NoDup.
  - destruct withFallback; [|constructor].
    unfold Spec.fallbackKeys.
    rewrite <- (map_map CubeFace.name (fun n => (n, 0, 0, 0))).
    apply NoDup_map_inj; [|exact Hnames].
    intros a b _ _ H. now inversion H.
  - intros key Hp Hf. apply in_pyramidKeys in Hp as (_ & _ & _ & Hlevel & _).
    destruct withFallback; [|contradiction].
    apply in_map_iff in Hf as (face & <- & _). cbn in Hlevel. lia.
Qed.

(** C7 (as amended): in stream mode the sequence starts with the
    descriptor (config.json) and continues with every pyramid tile exactly
    once, face-major in the order f, r, b, l, u, d, levels descending from
    maxLevel to 1 within a face, row-major within a level; when
    fallbackTiles is set the six fallback tiles (level 0, one per face in
    the same face order) follow; no tile item occurs twice, and the length
    of the sequence is the raw mode's tile count plus 1. *)
Theorem stream_sequence_order
        (env : Env) (self : t) (config : ProcessConfig) (w w' : World)
        (cfg : ConfigEntry) (items : list StreamItem.t) (md : ResultMetadata) :
  output config = "stream"%string ->
  process env self config w = (w', Ok (StreamResult cfg items md)) ->
  exists image first rest rawTiles,
    snd (env_loadImage env (sourceImage config)) = inr image
    /\ items = first :: rest
    /\ StreamItem.type first = config_item
    /\ StreamItem.path first = "config.json"%string
    /\ Forall (fun item => StreamItem.type item = tile_item) rest
    /\ (let cubeFaces :=
          Spec.renderedFaces image (Spec.cubeResolutionOf env config image) in
        map CubeFace.name cubeFaces = ["f"; "r"; "b"; "l"; "u"; "d"]%string
        /\ map Spec.item_key rest
           = map Some
               (Spec.pyramidKeys (Spec.tileSizeOf config)
                                 (Spec.maxLevelOf env config image) cubeFaces
                ++ (if Spec.fallbackOf config
                    then Spec.fallbackKeys cubeFaces else [])))
    /\ NoDup (map Spec.item_key rest)
    /\ process env self (Spec.withOutput config "raw") w
       = (w', Ok (RawResult cfg rawTiles md))
    /\ List.length items = S (List.length rawTiles).
Proof.
  intros Hmode Hrun.
  apply process_Ok_inv in Hrun
    as (image & w1 & w2 & w3 & pyramid & fallback & Himage & _ & Hrun).
  cbv zeta in Hrun.
  destruct Hrun as (Hpyramid & Hfallback & _ & Hstream & _ & Hraw & _).
  destruct (Hstream Hmode) as [-> Hr]. unfold buildStreamResult in Hr.
  inversion Hr; subst cfg items md. clear Hr Hstream.
  set (cubeFaces := Spec.renderedFaces image
                      (Spec.cubeResolutionOf env config image)) in *.
  assert (Hkeys :
            map Spec.tile_key (pyramid ++ fallback)
            = Spec.pyramidKeys (Spec.tileSizeOf config)
                               (Spec.maxLevelOf env config image) cubeFaces
              ++ (if Spec.fallbackOf config
                  then Spec.fallbackKeys cubeFaces else [])).
  { rewrite map_app.
    rewrite (generateTilePyramid_keys _ _ _ _ _ _ _ _ _ Hpyramid). f_equal.
    destruct (Spec.fallbackOf config).
    - now apply fallback_keys in Hfallback as (_ & -> & _).
    - unfold ret in Hfallback. now inversion Hfallback. }
  eexists image, _, _, (pyramid ++ fallback).
  split; [exact Himage|]. split; [reflexivity|].
  split; [reflexivity|]. split; [reflexivity|].
  split; [apply Forall_forall; intros item Hitem;
          apply in_map_iff in Hitem as (tile & <- & _); reflexivity|].
  assert (Hitems :
            map Spec.item_key
                (map (fun tile =>
                        StreamItem.mk tile_item (Tile.path tile)
                          (Tile.blob tile) (Some (Tile.level tile))
                          (Some (Tile.face tile)) (Some (Tile.x tile))
                          (Some (Tile.y tile))) (pyramid ++ fallback))
            = map Some (map Spec.tile_key (pyramid ++ fallback)))
    by (now rewrite !map_map).
  split; [split; [reflexivity | now rewrite Hitems, Hkeys]|].
  split.
  - rewrite Hitems, Hkeys. apply NoDup_map_inj.
    + intros a b _ _ H. now inversion H.
    + apply all_keys_NoDup. unfold cubeFaces. rewrite renderedFaces_names.
      apply FACE_NAMES_NoDup.
  - split; [exact Hraw|]. unfold createTileStream. cbn [List.length].
    f_equal. apply length_map.
Qed.


Lemma stream_sequence_order_witness :
  output Fixtures.streamFallbackConfig = "stream"%string
  /\ exists cfg items md rawTiles,
       snd (process Fixtures.env0 (new None) Fixtures.streamFallbackConfig
                    initialWorld) = Ok (StreamResult cfg items md)
       /\ snd (process Fixtures.env0 (new None) Fixtures.rawFallbackConfig
                       initialWorld) = Ok (RawResult cfg rawTiles md)
       /\ NoDup (map Spec.item_key (tl items))
       /\ List.length items = S (List.length rawTiles).
Proof.
  split; [reflexivity|].
  pose (run := process Fixtures.env0 (new None) Fixtures.streamFallbackConfig
                       initialWorld).
  assert (Hrun : exists w' cfg items md, run = (w', Ok (StreamResult cfg items md)))
    by (vm_compute; eauto 6).
  destruct Hrun as (w' & cfg & items & md & Hrun).
  destruct (stream_sequence_order Fixtures.env0 (new None)
              Fixtures.streamFallbackConfig initialWorld w' cfg items md
              eq_refl Hrun)
    as (image & first & rest & rawTiles & _ & -> & _ & _ & _ & _ & Hnodup
        & Hraw & Hlen).
  exists cfg, (first :: rest), md, rawTiles. fold run. rewrite Hrun.
  split; [reflexivity|].
  split; [unfold Fixtures.rawFallbackConfig; now rewrite Hraw|].
  split; [exact Hnodup | exact Hlen].
Defined.

(** C7 fails as stated: with fallbackTiles set, the tile for face d at
    level 1 is followed in the stream by a tile for face f at level 0, so
    the tile items as a whole are neither face-major nor confined to the
    levels maxLevel down to 1. *)
Lemma stream_fallback_items_follow_pyramid :
  exists cfg items md,
    snd (process Fixtures.env0 (new None) Fixtures.streamFallbackConfig
                 initialWorld) = Ok (StreamResult cfg items md)
    /\ nth_error (map Spec.item_key items) 30
       = Some (Some ("d"%string, 1, 0, 0))
    /\ nth_error (map Spec.item_key items) 31
       = Some (Some ("f"%string, 0, 0, 0))
    /\ map Spec.item_key (tl items)
       <> map Some (Spec.pyramidKeys 512 2 Fixtures.cubeFaces0).
Proof.
  eexists _, _, _. split; [vm_compute; reflexivity|].
  split; [vm_compute; reflexivity|]. split; [vm_compute; reflexivity|].
  intros H. apply (f_equal (@List.length _)) in H. vm_compute in H.
  discriminate.
Qed.

(** What a successful [buildZipResult] archived, for distinct paths. *)
Lemma buildZipResult_entries env tiles configJson metadata progress w w' r :
  NoDup (map Tile.path tiles) ->
  (forall p, In p (map Tile.path tiles) ->
             ~ In p ["config.json"%string]
             /\ ZipBuilder.arrayIndex p = None) ->
  buildZipResult env tiles configJson metadata progress w = (w', Ok r) ->
  exists archive,
    env_zip env (Laws.zipEntries tiles configJson) = inr archive
    /\ r = ZipResult (mkBlob "application/zip" (blob_data archive)) metadata.
Proof.
  intros Hnodup Hfresh. unfold buildZipResult. intros Hrun.
  apply bind_Ok_inv in Hrun as ([] & w1 & _ & Hrun).
  apply bind_Ok_inv in Hrun as (blob & w2 & Hzip & Hrun).
  apply bind_Ok_inv in Hrun as ([] & w3 & _ & Hrun).
  unfold ret in Hrun. inversion Hrun; subst.
  destruct (ZipFacts.createZipOutput_entries _ _ _ _ _ _ _ Hnodup Hfresh Hzip)
    as (archive & Harchive & ->).
  eauto.
Qed.

(** C9: with fallbackTiles set, whatever the other fields of the
    configuration, the fallback tiles are encoded at output size 1024 from
    the whole of each face, there are exactly six of them, and they come
    after all pyramid tiles in the result: in the tile list of raw mode,
    in the items of the stream (after config.json), and in the entries of
    the archive (after config.json). *)
Theorem fallback_tiles_fixed_size
        (env : Env) (self : t) (config : ProcessConfig) (w w' : World)
        (r : ProcessResult) :
  fallbackTiles config = Some true ->
  process env self config w = (w', Ok r) ->
  exists image pyramid fallback,
    snd (env_loadImage env (sourceImage config)) = inr image
    /\ let cubeFaces :=
         Spec.renderedFaces image (Spec.cubeResolutionOf env config image) in
       let allTiles := pyramid ++ fallback in
       map Spec.tile_key pyramid
       = Spec.pyramidKeys (Spec.tileSizeOf config)
                          (Spec.maxLevelOf env config image) cubeFaces
       /\ List.length fallback = 6%nat
       /\ Forall2 (fun face tile =>
                     exists request blob,
                       env_encode env request = inr blob
                       /\ er_outputSize request = 1024
                       /\ er_source request = CubeFace.canvas face
                       /\ (er_sx request, er_sy request) = (0, 0)
                       /\ (er_sw request, er_sh request)
                          = (CubeFace.resolution face, CubeFace.resolution face)
                       /\ Tile.blob tile = blob
                       /\ Tile.level tile = 0
                       /\ Tile.face tile = CubeFace.name face)
                  cubeFaces fallback
       /\ (output config = "raw"%string ->
           exists c m, r = RawResult c allTiles m)
       /\ (output config = "stream"%string ->
           exists c m items,
             r = StreamResult c items m
             /\ map StreamItem.path items
                = "config.json"%string :: map Tile.path allTiles
             /\ map StreamItem.blob items
                = config_blob c :: map Tile.blob allTiles
             /\ map Spec.item_key items
                = None :: map (fun tile => Some (Spec.tile_key tile)) allTiles)
       /\ (output config = "zip"%string ->
           exists m archive,
             env_zip env (Laws.zipEntries allTiles
                            (Spec.descriptorOf env config image))
             = inr archive
             /\ r = ZipResult (mkBlob "application/zip" (blob_data archive))
                              m).
Proof.
  intros Hflag Hrun.
  apply process_Ok_inv in Hrun
    as (image & w1 & w2 & w3 & pyramid & fallback & Himage & _ & Hrun).
  cbv zeta in Hrun.
  destruct Hrun as (Hpyramid & Hfallback & Hraw & Hstream & Hzip & _).
  destruct (PathFacts.run_paths env (Spec.tilerOf config) _ _ _ _
              (Spec.fallbackOf config) _ _ _ _ _
              (renderedFaces_names image _) Hpyramid Hfallback)
    as [Hnodup Hfresh].
  unfold Spec.fallbackOf in Hfallback. rewrite Hflag in Hfallback.
  apply fallback_keys in Hfallback as (-> & _ & Hsix).
  exists image, pyramid, fallback. split; [exact Himage|]. cbv zeta.
  split; [exact (generateTilePyramid_keys _ _ _ _ _ _ _ _ _ Hpyramid)|].
  split; [now rewrite <- (Forall2_length Hsix)|].
  split; [exact Hsix|].
  split; [intros Hm; destruct (Hraw Hm) as [_ ->];
          unfold buildRawResult; eexists _, _; reflexivity|].
  split.
  - intros Hm. destruct (Hstream Hm) as [_ ->]. unfold buildStreamResult.
    eexists (configEntry _), _, _. split; [reflexivity|].
    unfold createTileStream. cbn [map StreamItem.path StreamItem.blob
                                      configEntry config_blob].
    rewrite !map_map. cbn [StreamItem.path StreamItem.blob].
    repeat split.
  - intros Hm.
    destruct (buildZipResult_entries _ _ _ _ _ _ _ _ Hnodup Hfresh (Hzip Hm))
      as (archive & Harchive & ->).
    eauto.
Qed.

Lemma fallback_tiles_fixed_size_witness :
  fallbackTiles Fixtures.streamFallbackConfig = Some true
  /\ output Fixtures.streamFallbackConfig = "stream"%string
  /\ exists c items m pyramid fallback,
       snd (process Fixtures.env0 (new None) Fixtures.streamFallbackConfig
                    initialWorld) = Ok (StreamResult c items m)
       /\ List.length pyramid = 30%nat
       /\ List.length fallback = 6%nat
       /\ map StreamItem.path items
          = "config.json"%string :: map Tile.path (pyramid ++ fallback).
Proof.
  split; [reflexivity|]. split; [reflexivity|].
  pose (run := process Fixtures.env0 (new None) Fixtures.streamFallbackConfig
                       initialWorld).
  assert (Hrun : exists w' c items m, run = (w', Ok (StreamResult c items m)))
    by (vm_compute; eauto 6).
  destruct Hrun as (w' & c & items & m & Hrun).
  destruct (fallback_tiles_fixed_size Fixtures.env0 (new None)
              Fixtures.streamFallbackConfig initialWorld w'
              (StreamResult c items m) eq_refl Hrun)
    as (image & pyramid & fallback & Himage & Hkeys & Hsix & _ & _ & Hstream
        & _).
  destruct (Hstream eq_refl) as (c' & m' & items' & Heq & Hpaths & _).
  inversion Heq; subst c' items' m'.
  exists c, items, m, pyramid, fallback.
  fold run. rewrite Hrun. split; [reflexivity|].
  split; [|split; [exact Hsix | exact Hpaths]].
  rewrite <- (length_map Spec.tile_key), Hkeys.
  vm_compute in Himage. inversion Himage; subst. reflexivity.
Defined.

End PipelineFacts.


(* ################################################################## *)
(** * Further properties of the code *)
(* ################################################################## *)

(** ** Instance life cycle, validation and listeners *)

Module LifecycleLaws.
Import PannellumTiler MonadFacts PannellumTilerFacts Laws.

(** X1: dispose is idempotent and empties the listener registry, and every
    later process call fails with the disposal error before validation,
    without invoking a callback or touching the GPU; this holds even for a
    listener registered after the disposal, which is never notified. *)
Theorem process_after_dispose
        (env : Env) (self : t) (config : ProcessConfig) (w : World)
        (event : EventType) (cb : Callback) :
  dispose (dispose self) = dispose self
  /\ (forall ev, listeners (dispose self) ev = [])
  /\ process env (dispose self) config w
     = (w, Throw "PannellumTiler instance has been disposed"%string)
  /\ process env (on (dispose self) event cb) config w
     = (w, Throw "PannellumTiler instance has been disposed"%string).
Proof.
  split; [reflexivity|]. split; [now intros []|]. split; [reflexivity|].
  now destruct event.
Qed.

Lemma validateConfig_world config w :
  fst (validateConfig config w) = w.
Proof.
  unfold validateConfig.
  destruct (sourceImage config) as [[|ch s]|b]; try reflexivity.
  all: repeat match goal with
         | |- context [if ?b then _ else _] => destruct b
         end; reflexivity.
Qed.

Lemma validateConfig_valid config w :
  validConfig config = true <-> validateConfig config w = (w, Ok tt).
Proof.
  unfold validConfig, validateConfig.
  destruct (sourceImage config) as [[|ch s]|b]; cbn [andb].
  1: split; [discriminate | unfold throw; discriminate].
  all: destruct (String.eqb (output config) EmptyString) eqn:Hempty;
    [apply String.eqb_eq in Hempty; rewrite Hempty; cbn;
     split; [discriminate | unfold throw; discriminate]|].
  all: destruct (existsb _ _); cbn [negb andb];
    [|split; [discriminate | unfold throw; discriminate]].
  all: destruct (quality config) as [q|];
    [destruct (Qle_bool 0 q), (Qle_bool q 1); cbn [negb orb andb];
     try (split; [discriminate | unfold throw; discriminate])|].
  all: destruct (tileSize config) as [size|];
    [destruct (Z.leb_spec 1 size), (Z.ltb_spec size 1); try lia;
     try (split; [discriminate | unfold throw; discriminate])|].
  all: split; reflexivity.
Qed.

Lemma rejected_not_valid config :
  rejectedConfig config -> validConfig config = false.
Proof.
  intros Hr. apply not_true_is_false. intros Hv. unfold validConfig in Hv.
  apply andb_true_iff in Hv as [Hv Hsize].
  apply andb_true_iff in Hv as [Hv Hquality].
  apply andb_true_iff in Hv as [Hsource Hmode].
  destruct Hr as [Hr|[Hr|[(q & Hq & Hr)|(size & Hs & Hr)]]].
  - rewrite Hr in Hsource. discriminate.
  - apply Hr. apply existsb_exists in Hmode as (m & Hm & Heq).
    apply String.eqb_eq in Heq. now subst.
  - rewrite Hq in Hquality. apply andb_true_iff in Hquality as [H0 H1].
    apply Qle_bool_iff in H0, H1.
    destruct Hr as [Hr|Hr];
      [exact (Qlt_not_le _ _ Hr H0) | exact (Qlt_not_le _ _ Hr H1)].
  - rewrite Hs in Hsize. apply Z.leb_le in Hsize. lia.
Qed.

(** X2: validateConfig lets through every configuration with a non-empty
    source, an output mode among zip, raw and stream, a quality (if given)
    in [0, 1] and a tile size (if given) of at least 1; it turns down
    every configuration with no source, another output mode, a quality
    below 0 or above 1, or a tile size below 1, and process then fails
    with the same error before any callback runs, any image is loaded or
    any GPU object is created. *)
Theorem invalid_config_rejected_up_front
        (env : Env) (self : t) (config : ProcessConfig) (w : World) :
  (validConfig config = true -> validateConfig config w = (w, Ok tt))
  /\ (rejectedConfig config ->
      exists e,
        validateConfig config w = (w, Throw e)
        /\ (disposed self = false ->
            process env self config w = (w, Throw e))).
Proof.
  split; [apply validateConfig_valid|].
  intros Hbad. apply rejected_not_valid in Hbad.
  pose proof (validateConfig_world config w) as Hw.
  destruct (validateConfig config w) as [w0 [[]|e]] eqn:Hv; cbn in Hw; subst w0.
  - apply validateConfig_valid in Hv. congruence.
  - exists e. split; [reflexivity|]. intros Hlive.
    unfold process. rewrite Hlive. unfold bind. now rewrite Hv.
Qed.

Lemma invalid_config_rejected_up_front_witness :
  rejectedConfig (mkProcessConfig (inl "pano.jpg"%string) None None None
                                  (Some (3 # 2)) "raw" None None None)
  /\ disposed Fixtures.listeningTiler = false
  /\ process Fixtures.env0 Fixtures.listeningTiler
             (mkProcessConfig (inl "pano.jpg"%string) None None None
                              (Some (3 # 2)) "raw" None None None)
             initialWorld
     = (initialWorld, Throw "quality must be between 0 and 1"%string).
Proof.
  assert (Hbad : rejectedConfig
                   (mkProcessConfig (inl "pano.jpg"%string) None None None
                                    (Some (3 # 2)) "raw" None None None)).
  { right. right. left. exists (3 # 2). split; [reflexivity|].
    right. unfold Qlt. cbn. lia. }
  split; [exact Hbad|]. split; [reflexivity|].
  destruct (proj2 (invalid_config_rejected_up_front
                     Fixtures.env0 Fixtures.listeningTiler
                     (mkProcessConfig (inl "pano.jpg"%string) None None None
                                      (Some (3 # 2)) "raw" None None None)
                     initialWorld) Hbad) as (e & Hv & He).
  rewrite (He eq_refl). f_equal. vm_compute in Hv. now inversion Hv.
Defined.

Lemma cb_add_spec cb s :
  cb_add cb (cb_add cb s) = cb_add cb s
  /\ existsb (same_callback cb) (cb_add cb s) = true.
Proof.
  assert (Hin : existsb (same_callback cb) (cb_add cb s) = true).
  { unfold cb_add. destruct (existsb (same_callback cb) s) eqn:Hs; [exact Hs|].
    rewrite existsb_app. cbn. unfold same_callback at 2.
    now rewrite Nat.eqb_refl, orb_true_r. }
  split; [|exact Hin]. unfold cb_add at 1. now rewrite Hin.
Qed.

(** X3: on() has set semantics and off() removes: registering a callback
    twice is the same as registering it once, after off() no listener of
    that event has the callback's identity, and neither touches the
    listeners of the other event. *)
Theorem on_off_registry (self : t) (event other : EventType) (cb : Callback) :
  on (on self event cb) event cb = on self event cb
  /\ existsb (same_callback cb) (listeners (on self event cb) event) = true
  /\ existsb (same_callback cb) (listeners (off self event cb) event) = false
  /\ (other <> event ->
      listeners (on self event cb) other = listeners self other
      /\ listeners (off self event cb) other = listeners self other).
Proof.
  destruct (cb_add_spec cb (progressListeners self)) as [Hp1 Hp2].
  destruct (cb_add_spec cb (errorListeners self)) as [He1 He2].
  assert (Hdel : forall s, existsb (same_callback cb) (cb_delete cb s) = false).
  { intros s. unfold cb_delete. induction s as [|c s IH]; [reflexivity|].
    cbn. destruct (same_callback cb c) eqn:Hc; cbn; [exact IH|].
    now rewrite Hc, IH. }
  destruct event; cbn.
  - rewrite Hp1. split; [reflexivity|]. split; [exact Hp2|].
    split; [apply Hdel|]. intros Hne. destruct other; [congruence|].
    split; reflexivity.
  - rewrite He1. split; [reflexivity|]. split; [exact He2|].
    split; [apply Hdel|]. intros Hne. destruct other; [|congruence].
    split; reflexivity.
Qed.

Lemma on_off_registry_witness :
  EvError <> EvProgress
  /\ listeners (on (new None) EvProgress (Fixtures.quietCallback 1)) EvError = []
  /\ listeners (off Fixtures.listeningTiler EvProgress (Fixtures.quietCallback 1))
               EvError
     = listeners Fixtures.listeningTiler EvError.
Proof.
  assert (Hne : EvError <> EvProgress) by discriminate.
  split; [exact Hne|]. split.
  - exact (proj1 (proj2 (proj2 (proj2
             (on_off_registry (new None) EvProgress EvError
                              (Fixtures.quietCallback 1)))) Hne)).
  - exact (proj2 (proj2 (proj2 (proj2
             (on_off_registry Fixtures.listeningTiler EvProgress EvError
                              (Fixtures.quietCallback 1)))) Hne)).
Defined.

(** X4: emit delivers the event to every listener of that event exactly
    once, in registration order, whether or not a listener throws; it
    never throws itself, invokes no listener of the other event and leaves
    the GPU state alone. *)
Theorem emit_isolates_listeners
        (self : t) (event : EventType) (data : Payload) (w : World) :
  snd (emit self event data w) = Ok tt
  /\ calls (fst (emit self event data w))
     = calls w ++ map (fun cb => (cb_id cb, data)) (listeners self event)
  /\ gpu (fst (emit self event data w)) = gpu w
  /\ memory (fst (emit self event data w)) = memory w.
Proof. rewrite emit_runs_every_listener. repeat split. Qed.

Lemma try_rethrow_Throw {A} (c : M A) (self : t) w w' e :
  try_catch c (fun err => emit self EvError (OfError err) ;;; throw err) w
  = (w', Throw e) ->
  exists w1,
    c w = (w1, Throw e)
    /\ calls w' = calls w1 ++ map (fun cb => (cb_id cb, OfError e))
                                  (errorListeners self)
    /\ gpu w' = gpu w1 /\ memory w' = memory w1.
Proof.
  unfold try_catch. destruct (c w) as [w1 [a|e0]]; [discriminate|].
  unfold bind. rewrite emit_runs_every_listener. unfold throw.
  intros H. inversion H; subst. exists w1. repeat split.
Qed.

(** X5: when process fails inside the pipeline (after validation, on an
    instance that is not disposed), every error listener registered
    through on() has been invoked with the very error that is thrown, as
    the last callbacks of the run. *)
Theorem pipeline_failure_reaches_error_listeners
        (env : Env) (self : t) (config : ProcessConfig) (w w' : World)
        (e : Error) :
  disposed self = false ->
  validConfig config = true ->
  process env self config w = (w', Throw e) ->
  exists before,
    calls w' = before ++ map (fun cb => (cb_id cb, OfError e))
                             (errorListeners self).
Proof.
  intros Hlive Hvalid. unfold process. rewrite Hlive.
  apply (validateConfig_valid config w) in Hvalid.
  rewrite (bind_Ok _ _ _ _ _ Hvalid).
  intros Hrun. apply try_rethrow_Throw in Hrun as (w1 & _ & Hcalls & _).
  eauto.
Qed.

Lemma pipeline_failure_reaches_error_listeners_witness :
  disposed Fixtures.listeningTiler = false
  /\ validConfig Fixtures.throwingProgressConfig = true
  /\ exists w' before,
       process Fixtures.env0 Fixtures.listeningTiler
               Fixtures.throwingProgressConfig initialWorld
       = (w', Throw "listener failed"%string)
       /\ calls w' = before ++ [(2%nat, OfError "listener failed"%string)].
Proof.
  split; [reflexivity|]. split; [reflexivity|].
  pose (run := process Fixtures.env0 Fixtures.listeningTiler
                       Fixtures.throwingProgressConfig initialWorld).
  assert (Hrun : exists w', run = (w', Throw "listener failed"%string))
    by (vm_compute; eauto).
  destruct Hrun as (w' & Hrun).
  destruct (pipeline_failure_reaches_error_listeners
              Fixtures.env0 Fixtures.listeningTiler
              Fixtures.throwingProgressConfig initialWorld w' _
              eq_refl eq_refl Hrun) as (before & Hcalls).
  exists w', before. split; [exact Hrun | exact Hcalls].
Defined.

End LifecycleLaws.


(** ** Resource tracking and reprojection *)

Module ResourceLaws.
Import MemoryManager MonadFacts MemoryManagerFacts Laws.

Lemma set_add_twice r s : set_add r (set_add r s) = set_add r s.
Proof.
  unfold set_add at 1.
  assert (Hin : existsb (same_object r) (set_add r s) = true).
  { unfold set_add. destruct (existsb (same_object r) s) eqn:Hs; [exact Hs|].
    rewrite existsb_app. cbn. unfold same_object at 2.
    now rewrite Nat.eqb_refl, orb_true_r. }
  now rewrite Hin.
Qed.

(** X6: each track function returns the resource it was given and has set
    semantics (tracking an object twice is tracking it once), so that a
    resource tracked twice is disposed exactly once by disposeAll, which
    leaves the tracker empty. *)
Theorem tracking_twice_disposes_once (r : Resource) (w : World) :
  (trackTexture r ;;; trackTexture r) w = trackTexture r w
  /\ (trackGeometry r ;;; trackGeometry r) w = trackGeometry r w
  /\ (trackMaterial r ;;; trackMaterial r) w = trackMaterial r w
  /\ (trackRenderTarget r ;;; trackRenderTarget r) w = trackRenderTarget r w
  /\ snd (trackTexture r w) = Ok r
  /\ (memory w = emptyTracker -> res_dispose r = None ->
      (trackTexture r ;;; trackTexture r ;;; disposeAll) w
      = (mkWorld (calls w) (gpu w ++ [Disposed (res_kind r) (res_id r)])
                 emptyTracker (next_id w), Ok tt)).
Proof.
  destruct w as [cs g [ts gs ms rs rd] n].
  unfold trackTexture, trackGeometry, trackMaterial, trackRenderTarget,
    bind, getMemory, setMemory, ret. cbn.
  rewrite !set_add_twice.
  split; [reflexivity|]. split; [reflexivity|]. split; [reflexivity|].
  split; [reflexivity|]. split; [reflexivity|].
  intros Hempty Hok. inversion Hempty; subst. cbn.
  unfold disposeAll, bind, getMemory, setMemory, dispose, emitGpu, ret. cbn.
  rewrite Hok. reflexivity.
Qed.

Lemma tracking_twice_disposes_once_witness :
  memory initialWorld = emptyTracker
  /\ res_dispose (mkResource KTexture 7 None) = None
  /\ (trackTexture (mkResource KTexture 7 None) ;;;
      trackTexture (mkResource KTexture 7 None) ;;; disposeAll) initialWorld
     = (mkWorld [] [Disposed KTexture 7] emptyTracker 0, Ok tt).
Proof.
  split; [reflexivity|]. split; [reflexivity|].
  exact (proj2 (proj2 (proj2 (proj2 (proj2
           (tracking_twice_disposes_once (mkResource KTexture 7 None)
                                         initialWorld)))))
           eq_refl eq_refl).
Defined.

(** X7: for a cube resolution of at least 1 and at most 16384 (the
    default cap, for which the pixel buffers can be allocated) that is
    within the texture limit, on a fresh tracker and with a progress
    callback that does not throw, reprojectToCubeFaces returns the six
    faces f, r, b, l, u, d at the requested resolution, reports progress
    once per face (i/6) and once on completion (1), renders each face
    once, disposes every GPU object it allocated (texture, geometry,
    material, render target, renderer), loses the context, shrinks the
    canvas to 1 x 1 and leaves the tracker empty. *)
Theorem reprojection_succeeds_and_releases
        (env : Env) (self : Reprojector.t) (image : Image)
        (cubeResolution : Z) (cb : Callback) (w : World) :
  1 <= cubeResolution <= 16384 ->
  cubeResolution
  <= Z.min (env_MAX_TEXTURE_SIZE env) (Reprojector.maxTextureSize self) ->
  wellBehaved cb ->
  memory w = emptyTracker ->
  Reprojector.reprojectToCubeFaces
    env self image cubeResolution
    (Some (fun info => invoke cb (OfProgress info))) w
  = (mkWorld (calls w ++ map (fun info => (cb_id cb, OfProgress info))
                             reprojectionReports)
             (gpu w ++ reprojectionEvents cubeResolution (next_id w))
             emptyTracker (next_id w + 6),
     Ok (Spec.renderedFaces image cubeResolution)).
Proof.
  intros _ Hlimit Hcb Hmem. destruct w as [cs g m n]. cbn in Hmem. subst m.
  assert (Hlt : (Z.min (env_MAX_TEXTURE_SIZE env)
                       (Reprojector.maxTextureSize self) <? cubeResolution)
                = false) by (apply Z.ltb_ge; exact Hlimit).
  unfold Reprojector.reprojectToCubeFaces, Reprojector.dispose, disposeAll,
    setRenderer, trackTexture, trackGeometry, trackMaterial,
    trackRenderTarget, alloc, emitGpu, bind, getMemory, setMemory, ret,
    dispose.
  cbn. rewrite Hlt. unfold report, invoke. cbn. rewrite !Hcb. cbn.
  unfold reprojectionReports, reprojectionEvents, emptyTracker,
    Spec.renderedFaces. cbn.
  repeat rewrite <- app_assoc. cbn.
  replace (S (S (S (S (S (S n)))))) with (n + 6)%nat by lia.
  replace (S n) with (n + 1)%nat by lia.
  replace (S (n + 1)) with (n + 2)%nat by lia.
  replace (S (n + 2)) with (n + 3)%nat by lia.
  replace (S (n + 3)) with (n + 4)%nat by lia.
  replace (S (n + 4)) with (n + 5)%nat by lia.
  reflexivity.
Qed.

Lemma reprojection_succeeds_and_releases_witness :
  1 <= 1024 <= 16384
  /\ 1024 <= Z.min (env_MAX_TEXTURE_SIZE Fixtures.env0)
                   (Reprojector.maxTextureSize (Reprojector.mk 16384))
  /\ wellBehaved (Fixtures.quietCallback 9)
  /\ memory initialWorld = emptyTracker
  /\ Reprojector.reprojectToCubeFaces
       Fixtures.env0 (Reprojector.mk 16384) Fixtures.image0 1024
       (Some (fun info => invoke (Fixtures.quietCallback 9) (OfProgress info)))
       initialWorld
     = (mkWorld (map (fun info => (9%nat, OfProgress info)) reprojectionReports)
                (reprojectionEvents 1024 0) emptyTracker 6,
        Ok Fixtures.cubeFaces0).
Proof.
  assert (Hcb : wellBehaved (Fixtures.quietCallback 9)) by (intros p; reflexivity).
  split; [lia|]. split; [cbn; lia|]. split; [exact Hcb|].
  split; [reflexivity|].
  apply (reprojection_succeeds_and_releases
           Fixtures.env0 (Reprojector.mk 16384) Fixtures.image0 1024
           (Fixtures.quietCallback 9) initialWorld);
    [lia | cbn; lia | exact Hcb | reflexivity].
Defined.

End ResourceLaws.


(** ** Runs that complete *)

Module QuietFacts.
Import MonadFacts PannellumTilerFacts Laws.

Lemma steady_refl w : steady w w.
Proof. repeat split. exists []. now rewrite app_nil_r. Qed.

Lemma steady_trans w1 w2 w3 : steady w1 w2 -> steady w2 w3 -> steady w1 w3.
Proof.
  intros ([cs1 H1] & Hg1 & Hm1 & Hn1) ([cs2 H2] & Hg2 & Hm2 & Hn2).
  repeat split; try congruence.
  exists (cs1 ++ cs2). now rewrite H2, H1, app_assoc.
Qed.

Lemma Quiet_ret {A} (a : A) : Quiet (ret a).
Proof. intros w. exists w, a. split; [reflexivity | apply steady_refl]. Qed.

Lemma Quiet_bind {A B} (c : M A) (k : A -> M B) :
  Quiet c -> (forall a, Quiet (k a)) -> Quiet (bind c k).
Proof.
  intros Hc Hk w. destruct (Hc w) as (w1 & a & Hrun & Hs1).
  destruct (Hk a w1) as (w2 & b & Hrun2 & Hs2).
  exists w2, b. split; [|eapply steady_trans; eassumption].
  now rewrite (bind_Ok _ _ _ _ _ Hrun).
Qed.

Lemma Quiet_try {A} (c : M A) h : Quiet c -> Quiet (try_catch c h).
Proof.
  intros Hc w. destruct (Hc w) as (w1 & a & Hrun & Hs).
  exists w1, a. split; [|exact Hs]. unfold try_catch. now rewrite Hrun.
Qed.

Lemma Quiet_forM {A} (l : list A) (f : A -> M unit) :
  (forall a, Quiet (f a)) -> Quiet (forM_ l f).
Proof.
  intros Hf. induction l as [|a l IH]; [apply Quiet_ret|].
  cbn [forM_]. apply Quiet_bind; [apply Hf | intros _; exact IH].
Qed.

Lemma Quiet_emit self event data : Quiet (PannellumTiler.emit self event data).
Proof.
  intros w. eexists _, tt. split; [apply emit_runs_every_listener|].
  repeat split. cbn. eauto.
Qed.

Lemma Quiet_invoke cb p : wellBehaved cb -> Quiet (invoke cb p).
Proof.
  intros Hcb w. eexists _, tt. unfold invoke. rewrite Hcb.
  split; [reflexivity|]. repeat split. cbn. eauto.
Qed.

Lemma Quiet_progressOf self onProgress info :
  match onProgress with Some cb => wellBehaved cb | None => True end ->
  Quiet (PannellumTiler.progressOf self onProgress info).
Proof.
  intros Hcb. unfold PannellumTiler.progressOf. apply Quiet_bind.
  - destruct onProgress; [now apply Quiet_invoke | apply Quiet_ret].
  - intros _. apply Quiet_emit.
Qed.

Lemma Quiet_report onProgress info :
  quietSink onProgress -> Quiet (report onProgress info).
Proof.
  destruct onProgress as [f|]; cbn; [intros H; apply H | intros _; apply Quiet_ret].
Qed.

End QuietFacts.

Module TilerLaws.
Import Num NumFacts ConfigGenerator ConfigGeneratorFacts Tiler MonadFacts
       TilerFacts KeyFacts QuietFacts Laws.

Lemma mapE_total {A B} (f : A -> Error + B) (l : list A) :
  (forall a, exists b, f a = inr b) -> exists bs, mapE f l = inr bs.
Proof.
  intros Hf. induction l as [|a l [bs IH]]; [now exists []|].
  destruct (Hf a) as [b Hb]. exists (b :: bs). cbn. now rewrite Hb, IH.
Qed.

Section Instance.
Variables (env : Env) (self : t).
Hypothesis Hencode : encoderTotal env.

Lemma buildTile_total source resolution tileSize level faceName x y :
  exists tile,
    buildTile env self source resolution tileSize level faceName x y
    = inr tile.
Proof.
  unfold buildTile, extractTile.
  destruct (Hencode (mkEncodeRequest source (x * tileSize) (y * tileSize)
              (Z.min tileSize (resolution - x * tileSize))
              (Z.min tileSize (resolution - y * tileSize)) tileSize
              match imageFormat self with
              | webp => "image/webp"%string
              | jpeg => "image/jpeg"%string
              end (quality self))) as [blob ->].
  eauto.
Qed.

Lemma batchLoop_quiet face tileSize maxLevel onProgress canvas resolution
      level coords :
  (match onProgress with
   | Some f => forall p l, Quiet (f p l)
   | None => True
   end) ->
  forall fuel i acc,
    Quiet (batchLoop env self face tileSize maxLevel onProgress canvas
                     resolution level coords fuel i acc).
Proof.
  intros Hsink. induction fuel as [|fuel IH]; intros i acc;
    [apply Quiet_ret|].
  cbn [batchLoop]. destruct (i <? List.length coords)%nat; [|apply Quiet_ret].
  apply Quiet_bind.
  - destruct (mapE_total
                (fun c => buildTile env self canvas resolution tileSize level
                                    (CubeFace.name face) (fst c) (snd c))
                (firstn TILE_BATCH_SIZE (skipn i coords))) as [bs ->];
      [intros c; apply buildTile_total | apply Quiet_ret].
  - intros batch. apply Quiet_bind; [|intros _; apply IH].
    destruct onProgress as [f|]; [apply Hsink | apply Quiet_ret].
Qed.

Lemma levelLoop_quiet face tileSize maxLevel onProgress :
  (match onProgress with
   | Some f => forall p l, Quiet (f p l)
   | None => True
   end) ->
  forall fuel level canvas resolution acc,
    Quiet (levelLoop env self face tileSize maxLevel onProgress fuel level
                     canvas resolution acc).
Proof.
  intros Hsink. induction fuel as [|fuel IH];
    intros level canvas resolution acc; [apply Quiet_ret|].
  cbn [levelLoop]. destruct (1 <=? level); [|apply Quiet_ret].
  apply Quiet_bind; [now apply batchLoop_quiet|].
  intros tiles. apply Quiet_bind; [apply Quiet_ret | intros _; apply IH].
Qed.

Lemma generateTilePyramid_quiet cubeFaces tileSize maxLevel onProgress :
  quietSink onProgress ->
  Quiet (generateTilePyramid env self cubeFaces tileSize maxLevel onProgress).
Proof.
  intros Hsink. unfold generateTilePyramid.
  assert (Hloop : forall faces i acc,
             Quiet (faceLoop env self (Z.of_nat (List.length cubeFaces))
                             tileSize maxLevel onProgress faces i acc)).
  { induction faces as [|face rest IH]; intros i acc; [apply Quiet_ret|].
    cbn [faceLoop]. apply Quiet_bind; [|intros faceTiles; apply IH].
    unfold generateFaceTiles. apply levelLoop_quiet.
    intros p l. now apply Quiet_report. }
  apply Quiet_bind; [apply Hloop|]. intros tiles.
  apply Quiet_bind; [now apply Quiet_report | intros _; apply Quiet_ret].
Qed.

Lemma fallbackLoop_total fallbackSize :
  forall cubeFaces acc,
    exists tiles, fallbackLoop env self cubeFaces fallbackSize acc = inr tiles.
Proof.
  induction cubeFaces as [|face rest IH]; intros acc; cbn; [eauto|].
  unfold extractTile.
  destruct (Hencode (mkEncodeRequest (CubeFace.canvas face) 0 0
              (CubeFace.resolution face) (CubeFace.resolution face)
              fallbackSize
              match imageFormat self with
              | webp => "image/webp"%string
              | jpeg => "image/jpeg"%string
              end (quality self))) as [blob ->].
  apply IH.
Qed.

End Instance.

Lemma faceKeys_length tileSize maxLevel face :
  List.length (Spec.faceKeys tileSize maxLevel face)
  = tilesPerFace tileSize maxLevel (CubeFace.resolution face).
Proof.
  unfold Spec.faceKeys, tilesPerFace.
  induction (Spec.levelsDescending maxLevel) as [|level levels IH];
    [reflexivity|].
  cbn [flat_map map list_sum]. rewrite length_app, IH. f_equal.
  unfold Spec.levelKeys. now rewrite length_map, rowMajor_length.
Qed.

(** X8: for a tile size of at least 1 and faces whose canvas and whose
    raster at every level have at least one pixel, when the encoder never
    fails and the progress sink only invokes callbacks that return,
    generateTilePyramid completes: it returns, for every face in input
    order, one tile per grid cell of every level from maxLevel down to 1,
    and changes nothing but the callback log. *)
Theorem pyramid_completes
        (env : Env) (self : t) (cubeFaces : list CubeFace.t)
        (tileSize maxLevel : Z) (onProgress : ProgressSink) (w : World) :
  1 <= tileSize ->
  Forall (tileable maxLevel) cubeFaces ->
  encoderTotal env ->
  quietSink onProgress ->
  exists w' tiles,
    generateTilePyramid env self cubeFaces tileSize maxLevel onProgress w
    = (w', Ok tiles)
    /\ steady w w'
    /\ map Spec.tile_key tiles = Spec.pyramidKeys tileSize maxLevel cubeFaces
    /\ List.length tiles
       = list_sum (map (fun face => tilesPerFace tileSize maxLevel
                                      (CubeFace.resolution face)) cubeFaces).
Proof.
  intros _ _ Henc Hsink.
  destruct (generateTilePyramid_quiet env self Henc cubeFaces tileSize
              maxLevel onProgress Hsink w) as (w' & tiles & Hrun & Hsteady).
  exists w', tiles. split; [exact Hrun|]. split; [exact Hsteady|].
  pose proof (generateTilePyramid_keys _ _ _ _ _ _ _ _ _ Hrun) as Hkeys.
  split; [exact Hkeys|].
  rewrite <- (length_map Spec.tile_key), Hkeys. unfold Spec.pyramidKeys.
  clear Hrun Hsteady Hkeys.
  induction cubeFaces as [|face rest IH]; [reflexivity|].
  cbn [flat_map map list_sum]. now rewrite length_app, faceKeys_length, IH.
Qed.

Lemma pyramid_completes_witness :
  1 <= 512
  /\ Forall (tileable 2) Fixtures.cubeFaces0
  /\ encoderTotal Fixtures.env0
  /\ quietSink None
  /\ exists tiles,
       generateTilePyramid Fixtures.env0 Fixtures.tiler0 Fixtures.cubeFaces0
                           512 2 None initialWorld
       = (initialWorld, Ok tiles)
       /\ List.length tiles = 30%nat.
Proof.
  assert (Henc : encoderTotal Fixtures.env0) by (intros r; eexists; reflexivity).
  assert (Hfaces : Forall (tileable 2) Fixtures.cubeFaces0)
    by (repeat constructor; vm_compute; discriminate).
  split; [lia|]. split; [exact Hfaces|].
  split; [exact Henc|]. split; [exact I|].
  destruct (pyramid_completes Fixtures.env0 Fixtures.tiler0 Fixtures.cubeFaces0
              512 2 None initialWorld ltac:(lia) Hfaces Henc I)
    as (w' & tiles & Hrun & _ & _ & Hlen).
  exists tiles. split; [|exact Hlen].
  rewrite Hrun. f_equal.
  assert (Hw : fst (generateTilePyramid Fixtures.env0 Fixtures.tiler0
                      Fixtures.cubeFaces0 512 2 None initialWorld)
               = initialWorld) by (vm_compute; reflexivity).
  now rewrite Hrun in Hw.
Defined.

Lemma Forall2_In_l {A B} (P : A -> B -> Prop) l l' a :
  Forall2 P l l' -> In a l -> exists b, P a b.
Proof.
  induction 1 as [|x y l l' Hxy _ IH]; intros Hin; [contradiction|].
  destruct Hin as [<-|Hin]; eauto.
Qed.

(** X9: a single tile that cannot be encoded makes the whole
    generateTilePyramid call throw: no partial tile list is ever
    returned. *)
Theorem one_failed_tile_fails_pyramid
        (env : Env) (self : t) (cubeFaces : list CubeFace.t)
        (tileSize maxLevel : Z) (onProgress : ProgressSink) (w : World)
        (face : CubeFace.t) (key : Spec.TileKey) :
  In face cubeFaces ->
  In key (Spec.faceKeys tileSize maxLevel face) ->
  (forall tile, ~ Spec.tileOf env self tileSize maxLevel face key tile) ->
  exists w' e,
    generateTilePyramid env self cubeFaces tileSize maxLevel onProgress w
    = (w', Throw e).
Proof.
  intros Hface Hkey Hfail.
  destruct (generateTilePyramid env self cubeFaces tileSize maxLevel
                                onProgress w) as [w' [tiles|e]] eqn:Hrun;
    [exfalso | eauto].
  apply generateTilePyramid_complete in Hrun.
  assert (Hwork : In (face, key) (Spec.pyramidWork tileSize maxLevel cubeFaces)).
  { unfold Spec.pyramidWork. apply in_flat_map. exists face.
    split; [exact Hface | now apply in_map]. }
  destruct (Forall2_In_l _ _ _ _ Hrun Hwork) as [tile Htile].
  exact (Hfail tile Htile).
Qed.

Lemma one_failed_tile_fails_pyramid_witness :
  exists face,
    In face Fixtures.cubeFaces0
    /\ In ("d"%string, 1, 0, 0) (Spec.faceKeys 512 2 face)
    /\ snd (generateTilePyramid Fixtures.envEncodeFails Fixtures.tiler0
                                Fixtures.cubeFaces0 512 2 None initialWorld)
       = Throw "Failed to encode tile"%string.
Proof.
  pose (face := CubeFace.mk "d"
                  (FaceRender Fixtures.image0
                     (mkFaceConfig "d" (0, -1, 0) (0, 0, -1)) 1024) 1024).
  assert (Hface : In face Fixtures.cubeFaces0) by (vm_compute; tauto).
  assert (Hkey : In ("d"%string, 1, 0, 0) (Spec.faceKeys 512 2 face))
    by (vm_compute; tauto).
  exists face. split; [exact Hface|]. split; [exact Hkey|].
  destruct (one_failed_tile_fails_pyramid
              Fixtures.envEncodeFails Fixtures.tiler0 Fixtures.cubeFaces0
              512 2 None initialWorld face ("d"%string, 1, 0, 0) Hface Hkey)
    as (w' & e & Hrun).
  - intros tile Htile. cbn in Htile. discriminate.
  - rewrite Hrun. cbn. f_equal. vm_compute in Hrun. now inversion Hrun.
Defined.

End TilerLaws.


(** ** Tile geometry and level counts *)

Module GeometryLaws.
Import Num NumFacts ConfigGenerator ConfigGeneratorFacts Tiler KeyFacts Laws.

(** X10: for a tile of the grid, buildTile crops inside the raster: the
    crop starts at (column * tileSize, row * tileSize), is between 1 and
    tileSize pixels wide and high, never reaches beyond the raster edge,
    is a full tileSize wide except in the last column (and high except in
    the last row), where it ends exactly at the edge; the output size is
    always tileSize. *)
Theorem tile_crops_stay_inside
        (env : Env) (self : t) (source : Canvas)
        (resolution tileSize level : Z) (faceName : string) (x y : Z)
        (tile : Tile.t) :
  1 <= tileSize -> 1 <= resolution ->
  0 <= x < ceil_div resolution tileSize ->
  0 <= y < ceil_div resolution tileSize ->
  buildTile env self source resolution tileSize level faceName x y
  = inr tile ->
  exists request,
    env_encode env request = inr (Tile.blob tile)
    /\ er_source request = source
    /\ er_outputSize request = tileSize
    /\ er_sx request = x * tileSize /\ er_sy request = y * tileSize
    /\ 1 <= er_sw request <= tileSize /\ 1 <= er_sh request <= tileSize
    /\ er_sx request + er_sw request <= resolution
    /\ er_sy request + er_sh request <= resolution
    /\ (x + 1 < ceil_div resolution tileSize -> er_sw request = tileSize)
    /\ (y + 1 < ceil_div resolution tileSize -> er_sh request = tileSize)
    /\ (x + 1 = ceil_div resolution tileSize ->
        er_sx request + er_sw request = resolution)
    /\ (y + 1 = ceil_div resolution tileSize ->
        er_sy request + er_sh request = resolution).
Proof.
  intros Ht Hr Hx Hy. unfold buildTile, extractTile.
  pose proof (ceil_div_bounds resolution tileSize ltac:(lia)) as Hq.
  set (q := ceil_div resolution tileSize) in *.
  match goal with
  | |- context [env_encode env ?r] =>
      set (request := r); destruct (env_encode env request) as [e|blob] eqn:Henc
  end; [discriminate|].
  intros Htile. inversion Htile; subst tile. exists request. cbn.
  split; [exact Henc|]. repeat split; try lia; try nia.
Qed.

Lemma tile_crops_stay_inside_witness :
  1 <= 512 /\ 1 <= 1304 /\ 0 <= 2 < ceil_div 1304 512
  /\ exists tile request,
       buildTile Fixtures.env0 Fixtures.tiler0
                 (FaceRender Fixtures.image0
                    (mkFaceConfig "f" (0, 0, -1) (0, 1, 0)) 1304)
                 1304 512 3 "f" 2 0 = inr tile
       /\ env_encode Fixtures.env0 request = inr (Tile.blob tile)
       /\ er_sx request = 1024 /\ er_sw request = 280
       /\ er_sy request = 0 /\ er_sh request = 512.
Proof.
  split; [lia|]. split; [lia|]. split; [vm_compute; split; congruence|].
  pose (run := buildTile Fixtures.env0 Fixtures.tiler0
                 (FaceRender Fixtures.image0
                    (mkFaceConfig "f" (0, 0, -1) (0, 1, 0)) 1304)
                 1304 512 3 "f" 2 0).
  assert (Hrun : exists tile, run = inr tile) by (vm_compute; eauto).
  destruct Hrun as [tile Hrun].
  destruct (tile_crops_stay_inside _ _ _ 1304 512 3 "f"%string 2 0 tile
              ltac:(lia) ltac:(lia)
              ltac:(vm_compute; split; congruence)
              ltac:(vm_compute; split; congruence) Hrun)
    as (request & Henc & _ & _ & Hsx & Hsy & _ & _ & _ & _ & _ & Hfull & Hlast & _).
  exists tile, request. fold run. split; [exact Hrun|]. split; [exact Henc|].
  split; [rewrite Hsx; reflexivity|].
  split; [specialize (Hlast eq_refl); lia|].
  split; [rewrite Hsy; reflexivity|].
  apply Hfull. vm_compute. reflexivity.
Defined.

(** X11: the coordinate list of a level enumerates the n x n grid
    row-major: it has n * n entries, none repeated, it holds exactly the
    pairs with 0 <= column, row < n, and the tile in column x of row y is
    at index y * n + x. *)
Theorem tile_grid_is_row_major (n : Z) :
  List.length (gridCoords n) = (Z.to_nat n * Z.to_nat n)%nat
  /\ NoDup (gridCoords n)
  /\ (forall c, In c (gridCoords n) <-> 0 <= fst c < n /\ 0 <= snd c < n)
  /\ (forall x y, 0 <= x < n -> 0 <= y < n ->
                  nth_error (gridCoords n) (Z.to_nat (y * n + x))
                  = Some (x, y)).
Proof.
  change (gridCoords n) with (Spec.rowMajor n).
  split; [apply rowMajor_length|]. split; [apply rowMajor_NoDup|].
  split; [intros c; apply in_rowMajor | apply rowMajor_nth].
Qed.

Lemma tile_grid_is_row_major_witness :
  0 <= 2 < 3 /\ 0 <= 1 < 3
  /\ nth_error (gridCoords 3) 5 = Some (2, 1).
Proof.
  split; [lia|]. split; [lia|].
  exact (proj2 (proj2 (proj2 (tile_grid_is_row_major 3))) 2 1
           ltac:(lia) ltac:(lia)).
Defined.

(** X12: calculateMaxLevel is 1 whenever the face fits into one tile
    (cubeResolution <= tileSize), and k + 1 whenever the face is exactly
    2^k tiles wide (cubeResolution = tileSize * 2^k). *)
Theorem maxLevel_of_exact_ratios :
  (forall cubeResolution tileSize,
      1 <= cubeResolution <= tileSize ->
      calculateMaxLevel cubeResolution tileSize = 1)
  /\ (forall tileSize k,
         1 <= tileSize -> 0 <= k ->
         calculateMaxLevel (tileSize * 2 ^ k) tileSize = k + 1).
Proof.
  split.
  - intros c t Hct.
    rewrite (calculateMaxLevel_unfold c t 0); [reflexivity | lia | lia |].
    unfold is_ceil_log2_ratio. rewrite Z.pow_0_r. lia.
  - intros t k Ht Hk.
    assert (Hpow : 1 <= 2 ^ k) by (apply (Z.pow_le_mono_r 2 0 k); lia).
    assert (Hmin : Z.min t (t * 2 ^ k) = t) by nia.
    rewrite (calculateMaxLevel_unfold (t * 2 ^ k) t k); [| nia | lia |].
    + rewrite Hmin. replace (k + 1 - 2) with (k - 1) by lia.
      destruct (Z.eq_dec k 0) as [->|Hk0]; [reflexivity|].
      assert (Hstep : 2 ^ k = 2 * 2 ^ (k - 1)).
      { replace k with (Z.succ (k - 1)) at 1 by lia.
        apply Z.pow_succ_r. lia. }
      assert (Hp1 : 0 < 2 ^ (k - 1)) by (apply Z.pow_pos_nonneg; lia).
      replace (t * 2 ^ k) with (2 * t * 2 ^ (k - 1)) by (rewrite Hstep; ring).
      rewrite Z.div_mul by lia.
      replace (2 * t =? t) with false by (symmetry; apply Z.eqb_neq; lia).
      rewrite andb_false_r. lia.
    + rewrite Hmin. unfold is_ceil_log2_ratio. split; [exact Hk|].
      split; [lia|]. destruct (Z.eq_dec k 0) as [->|Hk0]; [now left|right].
      assert (2 ^ (k - 1) < 2 ^ k) by (apply Z.pow_lt_mono_r; lia). nia.
Qed.

Lemma maxLevel_of_exact_ratios_witness :
  1 <= 300 <= 512 /\ calculateMaxLevel 300 512 = 1
  /\ 1 <= 512 /\ 0 <= 5 /\ calculateMaxLevel (512 * 2 ^ 5) 512 = 5 + 1.
Proof.
  destruct maxLevel_of_exact_ratios as [Hclamp Hexact].
  split; [lia|]. split; [apply Hclamp; lia|].
  split; [lia|]. split; [lia|]. apply Hexact; lia.
Defined.

(** With the logarithm at its exact value the level count is tight. *)
Lemma exact_maxLevel_tight (cubeResolution tileSize : Z) :
  1 <= cubeResolution -> 1 <= tileSize ->
  let maxLevel := calculateMaxLevel cubeResolution tileSize in
  (forall level, 1 <= level <= maxLevel ->
                 1 <= Spec.resolutionAtLevel cubeResolution maxLevel level)
  /\ (2 <= maxLevel ->
      2 <= ceil_div (Spec.resolutionAtLevel cubeResolution maxLevel 2)
                    tileSize).
Proof.
  intros Hc Ht maxLevel.
  destruct (calculateMaxLevel_bounds cubeResolution tileSize Hc Ht)
    as [Hm [Hlow _]].
  fold maxLevel in Hm, Hlow. split.
  - intros level Hlevel. rewrite resolutionAtLevel_div by lia.
    eapply Z.le_trans; [exact Hlow|].
    apply Z.div_le_compat_l; [lia|]. split.
    + apply Z.pow_pos_nonneg; lia.
    + apply Z.pow_le_mono_r; lia.
  - intros Htwo. rewrite resolutionAtLevel_div by lia.
    assert (Hwide : tileSize < cubeResolution / 2 ^ (maxLevel - 2)).
    { revert Htwo. unfold maxLevel, calculateMaxLevel.
      set (e := Z.min tileSize cubeResolution).
      assert (He : 1 <= e <= cubeResolution) by (unfold e; lia).
      destruct (ceilLog2Ratio_spec cubeResolution e He) as (Hk & Hu & Hl).
      set (k := ceilLog2Ratio cubeResolution e) in *.
      replace (k + 1 - 2) with (k - 1) by lia.
      destruct (Z.eq_dec k 0) as [Hk0|Hk0].
      { rewrite Hk0. cbn. lia. }
      destruct Hl as [Hl|Hl]; [contradiction|].
      assert (Hp1 : 0 < 2 ^ (k - 1)) by (apply Z.pow_pos_nonneg; lia).
      assert (Hfl : e <= cubeResolution / 2 ^ (k - 1))
        by (apply Z.div_le_lower_bound; nia).
      assert (Het : e = tileSize).
      { unfold e. apply Z.min_l.
        destruct (Z.le_gt_cases tileSize cubeResolution) as [|Hgt]; [assumption|].
        exfalso. assert (e = cubeResolution) by (unfold e; lia). nia. }
      replace (2 <=? k + 1) with true by (symmetry; apply Z.leb_le; lia).
      cbn [andb].
      destruct (Z.eqb_spec (cubeResolution / 2 ^ (k - 1)) e) as [Heq|Hne].
      - replace (k + 1 - 1) with k by lia. intros Hk2.
        rewrite Z.max_r in * by lia.
        assert (Hp2 : 0 < 2 ^ (k - 2)) by (apply Z.pow_pos_nonneg; lia).
        assert (Hstep : 2 ^ (k - 1) = 2 * 2 ^ (k - 2)).
        { replace (k - 1) with (Z.succ (k - 2)) by lia.
          apply Z.pow_succ_r. lia. }
        apply Z.lt_le_trans with (2 * tileSize); [lia|].
        apply Z.div_le_lower_bound; [lia|]. nia.
      - intros _. rewrite Z.max_r by lia.
        replace (k + 1 - 2) with (k - 1) by lia. lia. }
    pose proof (ceil_div_bounds (cubeResolution / 2 ^ (maxLevel - 2)) tileSize
                                ltac:(lia)) as Hq.
    nia.
Qed.

(** X13: for integers below 2^53 at which the rounding of the logarithm
    quotient is harmless, the level count of calculateMaxLevel is tight: no level from 1 to maxLevel
    has resolution 0, and when there is a level 2 it is more than one
    tile wide, so that no smaller level count would let the lowest level
    fit a single tile. *)
Theorem maxLevel_is_tight
        (log : Float64.float -> Float64.float) (cubeResolution tileSize : Z) :
  1 <= cubeResolution < 2 ^ 53 -> 1 <= tileSize < 2 ^ 53 ->
  rounds_to_ceiling log cubeResolution tileSize ->
  exists maxLevel,
    InDoubles.calculateMaxLevel log cubeResolution tileSize = Some maxLevel
    /\ (forall level, 1 <= level <= maxLevel ->
                      1 <= Spec.resolutionAtLevel cubeResolution maxLevel
                                                  level)
    /\ (2 <= maxLevel ->
        2 <= ceil_div (Spec.resolutionAtLevel cubeResolution maxLevel 2)
                      tileSize).
Proof.
  intros [Hc _] [Ht _] Hround.
  exists (calculateMaxLevel cubeResolution tileSize).
  split; [now apply calculateMaxLevel_in_doubles|].
  exact (exact_maxLevel_tight cubeResolution tileSize Hc Ht).
Qed.

Lemma maxLevel_is_tight_witness :
  1 <= 1304 < 2 ^ 53 /\ 1 <= 512 < 2 ^ 53
  /\ rounds_to_ceiling Fixtures.roundedLog 1304 512
  /\ InDoubles.calculateMaxLevel Fixtures.roundedLog 1304 512 = Some 3
  /\ 2 <= ceil_div (Spec.resolutionAtLevel 1304 3 2) 512.
Proof.
  assert (Hround : rounds_to_ceiling Fixtures.roundedLog 1304 512).
  { exists 2. split; [unfold is_ceil_log2_ratio; cbn; lia | now left]. }
  split; [lia|]. split; [lia|]. split; [exact Hround|].
  destruct (maxLevel_is_tight Fixtures.roundedLog 1304 512
              ltac:(lia) ltac:(lia) Hround) as (maxLevel & Hm & _ & Hwide).
  assert (Hthree : InDoubles.calculateMaxLevel Fixtures.roundedLog 1304 512
                   = Some 3) by reflexivity.
  rewrite Hthree in Hm. inversion Hm; subst maxLevel.
  split; [reflexivity|]. apply Hwide. lia.
Defined.

End GeometryLaws.


(** ** Packaging and whole runs *)

Module PipelineLaws.
Import Num NumFacts ConfigGenerator PannellumTiler MonadFacts TilerFacts
       KeyFacts PannellumTilerFacts MemoryManagerFacts PipelineFacts
       QuietFacts TilerLaws LifecycleLaws Laws.

(** X14: for tiles with pairwise distinct paths, none of them
    config.json, an array index or __proto__ (such as the paths the tiler
    makes), createZipOutput hands the archiver config.json first and then
    one entry per tile, in tile order, each with the tile's own blob; it
    returns the archive as an application/zip blob, or throws
    'ZIP creation failed: ...' when the archiver fails. *)
Theorem zip_entries_follow_tiles
        (env : Env) (tiles : list Tile.t) (configJson : string) (w : World) :
  NoDup (map Tile.path tiles) ->
  ~ In "config.json"%string (map Tile.path tiles) ->
  Forall (fun tile => plainKey (Tile.path tile)) tiles ->
  ZipBuilder.createZipOutput env tiles configJson None w
  = (w, match env_zip env (zipEntries tiles configJson) with
        | inl e => Throw ("ZIP creation failed: " ++ e)%string
        | inr data => Ok (mkBlob "application/zip" (blob_data data))
        end).
Proof.
  intros Hnodup Hconfig Hindex. unfold ZipBuilder.createZipOutput.
  unfold bind. rewrite ZipFacts.addTiles_distinct.
  - cbn [app]. fold (zipEntries tiles configJson).
    now destruct (env_zip env (zipEntries tiles configJson)).
  - exact Hnodup.
  - intros p Hp. split.
    + intros [<-|[]]. contradiction.
    + apply in_map_iff in Hp as (tile & <- & Htile).
      rewrite Forall_forall in Hindex. now apply Hindex.
Qed.

Lemma zip_entries_follow_tiles_witness :
  exists tiles,
    snd (Tiler.generateTilePyramid Fixtures.env0 Fixtures.tiler0
                                   Fixtures.cubeFaces0 1024 1 None initialWorld)
    = Ok tiles
    /\ NoDup (map Tile.path tiles)
    /\ ~ In "config.json"%string (map Tile.path tiles)
    /\ Forall (fun tile => plainKey (Tile.path tile)) tiles
    /\ ZipBuilder.createZipOutput Fixtures.env0 tiles "{}" None initialWorld
       = (initialWorld, Ok (mkBlob "application/zip" "z")).
Proof.
  pose (run := Tiler.generateTilePyramid Fixtures.env0 Fixtures.tiler0
                 Fixtures.cubeFaces0 1024 1 None initialWorld).
  assert (Hrun : exists w' tiles,
             run = (w', Ok tiles)
             /\ map Tile.path tiles
                = ["1/f/0_0.jpg"; "1/r/0_0.jpg"; "1/b/0_0.jpg";
                   "1/l/0_0.jpg"; "1/u/0_0.jpg"; "1/d/0_0.jpg"]%string)
    by (vm_compute; eexists _, _; split; reflexivity).
  destruct Hrun as (w' & tiles & Hrun & Hpaths).
  assert (Hnodup : NoDup (map Tile.path tiles)).
  { rewrite Hpaths. repeat constructor; cbn; intuition discriminate. }
  assert (Hconfig : ~ In "config.json"%string (map Tile.path tiles)).
  { rewrite Hpaths. cbn. intuition discriminate. }
  assert (Hindex : Forall (fun tile => plainKey (Tile.path tile)) tiles).
  { apply Forall_forall. intros tile Htile.
    apply (in_map Tile.path) in Htile. rewrite Hpaths in Htile.
    cbn in Htile.
    destruct Htile as [<-|[<-|[<-|[<-|[<-|[<-|[]]]]]]];
      (split; [reflexivity | discriminate]). }
  exists tiles. fold run. rewrite Hrun.
  split; [reflexivity|]. split; [exact Hnodup|]. split; [exact Hconfig|].
  split; [exact Hindex|].
  rewrite (zip_entries_follow_tiles Fixtures.env0 tiles "{}" initialWorld
             Hnodup Hconfig Hindex).
  reflexivity.
Defined.



Lemma renderFaces_total image cubeResolution rendererId onProgress :
  quietSink onProgress ->
  forall cfgs i acc w,
    exists w',
      Reprojector.renderFaces image cubeResolution rendererId onProgress
                              i cfgs acc w
      = (w', Ok (acc ++ map (fun cfg =>
                               CubeFace.mk (fc_name cfg)
                                 (FaceRender image cfg cubeResolution)
                                 cubeResolution) cfgs))
      /\ memory w' = memory w.
Proof.
  intros Hsink. induction cfgs as [|cfg rest IH]; intros i acc w.
  - exists w. cbn. now rewrite app_nil_r.
  - cbn [Reprojector.renderFaces map].
    match goal with
    | |- context [report onProgress ?info] =>
        destruct (Quiet_report onProgress info Hsink w)
          as (w1 & [] & Hrep & (_ & _ & Hmem & _))
    end.
    rewrite (bind_Ok _ _ _ _ _ Hrep).
    unfold bind at 1. unfold emitGpu at 1.
    match goal with
    | |- context [Reprojector.renderFaces _ _ _ _ ?i' rest ?acc' ?w2] =>
        destruct (IH i' acc' w2) as (w' & Hrun & Hmem')
    end.
    exists w'. rewrite Hrun. split; [now rewrite <- app_assoc|].
    rewrite Hmem'. exact Hmem.
Qed.

Lemma alloc_step k w :
  exists w' r,
    alloc k w = (w', Ok r)
    /\ memory w' = memory w /\ MemoryManager.disposes_ok r = true.
Proof. eexists _, _. split; [reflexivity|]. split; reflexivity. Qed.

Lemma emitGpu_step ev w :
  exists w', emitGpu ev w = (w', Ok tt) /\ memory w' = memory w.
Proof. eexists. split; reflexivity. Qed.

Lemma forallb_set_add r s :
  MemoryManager.disposes_ok r = true ->
  forallb MemoryManager.disposes_ok s = true ->
  forallb MemoryManager.disposes_ok (MemoryManager.set_add r s) = true.
Proof.
  intros Hr Hs. unfold MemoryManager.set_add.
  destruct (existsb _ s); [exact Hs|].
  rewrite forallb_app, Hs. cbn. now rewrite Hr.
Qed.

Lemma healthy_parts t :
  MemoryManager.all_dispose_ok t = true <->
  forallb MemoryManager.disposes_ok (textures t) = true
  /\ forallb MemoryManager.disposes_ok (geometries t) = true
  /\ forallb MemoryManager.disposes_ok (materials t) = true
  /\ forallb MemoryManager.disposes_ok (renderTargets t) = true
  /\ match renderer t with
     | Some r => MemoryManager.disposes_ok (rnd_resource r)
     | None => true
     end = true.
Proof. unfold MemoryManager.all_dispose_ok. rewrite !andb_true_iff. tauto. Qed.

Lemma setRenderer_step r w :
  MemoryManager.disposes_ok (rnd_resource r) = true ->
  MemoryManager.all_dispose_ok (memory w) = true ->
  exists w',
    MemoryManager.setRenderer r w = (w', Ok tt)
    /\ MemoryManager.all_dispose_ok (memory w') = true.
Proof.
  intros Hr Hw. eexists. split; [reflexivity|]. cbn.
  apply healthy_parts in Hw as (Ht & Hg & Hm & Hrt & _).
  apply healthy_parts. cbn. auto.
Qed.

Lemma track_steps r w :
  MemoryManager.disposes_ok r = true ->
  MemoryManager.all_dispose_ok (memory w) = true ->
  (exists w', MemoryManager.trackTexture r w = (w', Ok r)
              /\ MemoryManager.all_dispose_ok (memory w') = true)
  /\ (exists w', MemoryManager.trackGeometry r w = (w', Ok r)
                 /\ MemoryManager.all_dispose_ok (memory w') = true)
  /\ (exists w', MemoryManager.trackMaterial r w = (w', Ok r)
                 /\ MemoryManager.all_dispose_ok (memory w') = true)
  /\ (exists w', MemoryManager.trackRenderTarget r w = (w', Ok r)
                 /\ MemoryManager.all_dispose_ok (memory w') = true).
Proof.
  intros Hr Hw.
  apply healthy_parts in Hw as (Ht & Hg & Hm & Hrt & Hrd).
  repeat split; (eexists; split; [reflexivity|]); cbn;
    apply healthy_parts; cbn; repeat split; try assumption;
    apply forallb_set_add; assumption.
Qed.

(** A reprojection within the limit completes for every progress sink
    that only invokes callbacks that return. *)
Lemma reprojection_total env self image cubeResolution onProgress w :
  cubeResolution
  <= Z.min (env_MAX_TEXTURE_SIZE env) (Reprojector.maxTextureSize self) ->
  quietSink onProgress ->
  MemoryManager.all_dispose_ok (memory w) = true ->
  exists w',
    Reprojector.reprojectToCubeFaces env self image cubeResolution
                                     onProgress w
    = (w', Ok (Spec.renderedFaces image cubeResolution))
    /\ memory w' = emptyTracker.
Proof.
  intros Hlimit Hsink Hw.
  assert (Hlt : (Z.min (env_MAX_TEXTURE_SIZE env)
                       (Reprojector.maxTextureSize self) <? cubeResolution)
                = false) by (apply Z.ltb_ge; exact Hlimit).
  unfold Reprojector.reprojectToCubeFaces. cbv zeta.
  destruct (alloc_step KCanvas w) as (w1 & canvas & E1 & M1 & _).
  rewrite (bind_Ok _ _ _ _ _ E1).
  destruct (emitGpu_step (CanvasWidth (res_id canvas) cubeResolution) w1)
    as (w2 & E2 & M2).
  rewrite (bind_Ok _ _ _ _ _ E2).
  destruct (emitGpu_step (CanvasHeight (res_id canvas) cubeResolution) w2)
    as (w3 & E3 & M3).
  rewrite (bind_Ok _ _ _ _ _ E3).
  destruct (alloc_step KRenderer w3) as (w4 & rnd & E4 & M4 & Hrnd).
  rewrite (bind_Ok _ _ _ _ _ E4).
  assert (H4 : MemoryManager.all_dispose_ok (memory w4) = true)
    by (rewrite M4, M3, M2, M1; exact Hw).
  destruct (setRenderer_step (mkRenderer rnd (res_id canvas)) w4 Hrnd H4)
    as (w5 & E5 & H5).
  rewrite (bind_Ok _ _ _ _ _ E5). rewrite Hlt.
  destruct (alloc_step KTexture w5) as (w6 & texture & E6 & M6 & Htex).
  rewrite (bind_Ok _ _ _ _ _ E6).
  assert (H6 : MemoryManager.all_dispose_ok (memory w6) = true)
    by (rewrite M6; exact H5).
  destruct (proj1 (track_steps texture w6 Htex H6)) as (w7 & E7 & H7).
  rewrite (bind_Ok _ _ _ _ _ E7).
  destruct (alloc_step KGeometry w7) as (w8 & geometry & E8 & M8 & Hgeo).
  rewrite (bind_Ok _ _ _ _ _ E8).
  assert (H8 : MemoryManager.all_dispose_ok (memory w8) = true)
    by (rewrite M8; exact H7).
  destruct (proj1 (proj2 (track_steps geometry w8 Hgeo H8)))
    as (w9 & E9 & H9).
  rewrite (bind_Ok _ _ _ _ _ E9).
  destruct (alloc_step KMaterial w9) as (w10 & material & E10 & M10 & Hmat).
  rewrite (bind_Ok _ _ _ _ _ E10).
  assert (H10 : MemoryManager.all_dispose_ok (memory w10) = true)
    by (rewrite M10; exact H9).
  destruct (proj1 (proj2 (proj2 (track_steps material w10 Hmat H10))))
    as (w11 & E11 & H11).
  rewrite (bind_Ok _ _ _ _ _ E11).
  destruct (alloc_step KRenderTarget w11) as (w12 & target & E12 & M12 & Htgt).
  rewrite (bind_Ok _ _ _ _ _ E12).
  assert (H12 : MemoryManager.all_dispose_ok (memory w12) = true)
    by (rewrite M12; exact H11).
  destruct (proj2 (proj2 (proj2 (track_steps target w12 Htgt H12))))
    as (w13 & E13 & H13).
  rewrite (bind_Ok _ _ _ _ _ E13).
  destruct (renderFaces_total image cubeResolution (res_id rnd) onProgress
              Hsink Reprojector.FACE_CONFIGS 0 [] w13)
    as (w14 & E14 & M14).
  rewrite (bind_Ok _ _ _ _ _ E14).
  destruct (Quiet_report onProgress
              (ProgressInfo.mk reprojection 1 None None
                 (Some "Cube face reprojection complete"%string))
              Hsink w14) as (w15 & [] & E15 & (_ & _ & M15 & _)).
  rewrite (bind_Ok _ _ _ _ _ E15).
  assert (H15 : MemoryManager.all_dispose_ok (memory w15) = true)
    by (rewrite M15, M14; exact H13).
  unfold Reprojector.dispose.
  rewrite (bind_Ok _ _ _ _ _ (disposeAll_releases w15 H15)).
  eexists. split; reflexivity.
Qed.

Lemma Quiet_createZipOutput env tiles configJson onProgress :
  zipTotal env ->
  (match onProgress with Some f => forall p, Quiet (f p) | None => True end) ->
  Quiet (ZipBuilder.createZipOutput env tiles configJson onProgress).
Proof.
  intros Hzip Hsink. unfold ZipBuilder.createZipOutput.
  assert (Hadd : forall ts i files,
             Quiet (ZipBuilder.addTiles (Z.of_nat (List.length tiles))
                                        onProgress ts i files)).
  { induction ts as [|tile ts IH]; intros i files; [apply Quiet_ret|].
    cbn [ZipBuilder.addTiles]. apply Quiet_bind; [|intros _; apply IH].
    destruct onProgress as [f|]; [apply Hsink | apply Quiet_ret]. }
  apply Quiet_bind; [apply Hadd|]. intros files.
  destruct (Hzip files) as [data ->]. apply Quiet_ret.
Qed.

Lemma Quiet_buildZipResult env tiles configJson metadata progress :
  zipTotal env -> (forall info, Quiet (progress info)) ->
  Quiet (buildZipResult env tiles configJson metadata progress).
Proof.
  intros Hzip Hprogress. unfold buildZipResult.
  apply Quiet_bind; [apply Hprogress|]. intros _.
  apply Quiet_bind;
    [apply Quiet_createZipOutput; [exact Hzip | intros p; apply Hprogress]|].
  intros blob. apply Quiet_bind; [apply Hprogress | intros _; apply Quiet_ret].
Qed.

Lemma try_Ok_intro {A} (c : M A) h w w' a :
  c w = (w', Ok a) -> try_catch c h w = (w', Ok a).
Proof. unfold try_catch. now intros ->. Qed.

Lemma try_rethrow_intro {A} (c : M A) (self : t) w w1 e :
  c w = (w1, Throw e) ->
  try_catch c (fun err => emit self EvError (OfError err) ;;; throw err) w
  = (mkWorld (calls w1 ++ map (fun cb => (cb_id cb, OfError e))
                              (errorListeners self))
             (gpu w1) (memory w1) (next_id w1), Throw e).
Proof.
  unfold try_catch. intros ->. unfold bind.
  now rewrite emit_runs_every_listener.
Qed.

(** X15: a source that cannot be decoded makes process (on a live
    instance, with a valid configuration and a progress callback that
    does not throw) fail with the loader's error after notifying the
    error listeners, without creating or disposing any GPU object. *)
Theorem load_failure_touches_no_gpu
        (env : Env) (self : t) (config : ProcessConfig) (w : World)
        (e : Error) :
  disposed self = false ->
  validConfig config = true ->
  match onProgress config with Some cb => wellBehaved cb | None => True end ->
  snd (env_loadImage env (sourceImage config)) = inl e ->
  exists w',
    process env self config w = (w', Throw e)
    /\ gpu w' = gpu w /\ memory w' = memory w
    /\ exists before,
         calls w' = before ++ map (fun cb => (cb_id cb, OfError e))
                                  (errorListeners self).
Proof.
  intros Hlive Hvalid Hcb Hload. unfold process. rewrite Hlive.
  apply (validateConfig_valid config w) in Hvalid.
  rewrite (bind_Ok _ _ _ _ _ Hvalid). cbv zeta.
  match goal with
  | |- context [progressOf self (onProgress config) ?info ;;; _] =>
      destruct (Quiet_progressOf self (onProgress config) info Hcb w)
        as (w1 & [] & H1 & S1)
  end.
  match goal with
  | |- context [forM_ ?l ?f] =>
      destruct (Quiet_forM l f
                  (fun p => Quiet_try _ _
                              (Quiet_progressOf self (onProgress config) _ Hcb))
                  w1) as (w2 & [] & H2 & S2)
  end.
  pose proof (steady_trans _ _ _ S1 S2) as (_ & Hgpu & Hmem & _).
  eexists. split.
  - apply try_rethrow_intro.
    rewrite (bind_Ok _ _ _ _ _ H1). rewrite (bind_Ok _ _ _ _ _ H2).
    rewrite Hload. reflexivity.
  - cbn. split; [exact Hgpu|]. split; [exact Hmem|]. eauto.
Qed.

Lemma load_failure_touches_no_gpu_witness :
  let env := mkEnv 16384 (fun _ => ([], inl "Failed to load image from Blob"%string))
                   (fun _ _ => 0) (fun _ => inl "unused"%string)
                   (fun _ => inl "unused"%string) in
  disposed Fixtures.listeningTiler = false
  /\ validConfig Fixtures.rawConfig = true
  /\ exists w',
       process env Fixtures.listeningTiler Fixtures.rawConfig initialWorld
       = (w', Throw "Failed to load image from Blob"%string)
       /\ gpu w' = [] /\ memory w' = emptyTracker.
Proof.
  intros env. split; [reflexivity|]. split; [reflexivity|].
  destruct (load_failure_touches_no_gpu
              env Fixtures.listeningTiler Fixtures.rawConfig initialWorld
              "Failed to load image from Blob"%string
              eq_refl eq_refl I eq_refl)
    as (w' & Hrun & Hgpu & Hmem & _).
  exists w'. split; [exact Hrun|]. split; [exact Hgpu | exact Hmem].
Defined.

(** X16: on a live instance, with a valid configuration, a progress
    callback that does not throw, a source that decodes, a cube
    resolution of at least 1 and at most 16384 (the default cap) that is
    within min(platform limit, configured cap), a maxLevel override (if
    given) that leaves level 1 at least one pixel, and an encoder and
    archiver that succeed, process completes in every output mode and
    leaves no GPU resource tracked. *)
Theorem process_completes
        (env : Env) (self : t) (config : ProcessConfig) (w : World)
        (image : Image) :
  disposed self = false ->
  validConfig config = true ->
  match onProgress config with Some cb => wellBehaved cb | None => True end ->
  snd (env_loadImage env (sourceImage config)) = inr image ->
  1 <= Spec.cubeResolutionOf env config image <= 16384 ->
  Spec.cubeResolutionOf env config image
  <= Z.min (env_MAX_TEXTURE_SIZE env) (maxTextureSize self) ->
  match maxLevel config with
  | Some m =>
      1 <= Spec.resolutionAtLevel (Spec.cubeResolutionOf env config image) m 1
  | None => True
  end ->
  encoderTotal env ->
  zipTotal env ->
  exists w' r,
    process env self config w = (w', Ok r)
    /\ memory w' = emptyTracker.
Proof.
  intros Hlive Hvalid Hcb Hload _ Hlimit _ Henc Hzip. unfold process.
  rewrite Hlive.
  apply (validateConfig_valid config w) in Hvalid.
  destruct (validateConfig_Ok config w w Hvalid) as (_ & Hmode & _ & _).
  rewrite (bind_Ok _ _ _ _ _ Hvalid). cbv zeta.
  assert (Hprogress : forall info,
             Quiet (progressOf self (onProgress config) info))
    by (intros info; now apply Quiet_progressOf).
  match goal with
  | |- context [progressOf self (onProgress config) ?info ;;; _] =>
      destruct (Hprogress info w) as (w1 & [] & H1 & S1)
  end.
  match goal with
  | |- context [forM_ ?l ?f] =>
      destruct (Quiet_forM l f (fun p => Quiet_try _ _ (Hprogress _)) w1)
        as (w2 & [] & H2 & S2)
  end.
  destruct (Hprogress (ProgressInfo.mk loading 1 None None
                         (Some "Image loaded"%string)) w2)
    as (w3 & [] & H3 & S3).
  destruct (reprojection_total env (Reprojector.mk (maxTextureSize self))
              image (Spec.cubeResolutionOf env config image)
              (Some (progressOf self (onProgress config)))
              (mkWorld (calls w3) (gpu w3) emptyTracker (next_id w3))
              Hlimit Hprogress eq_refl) as (w5 & H5 & Hmem5).
  destruct (generateTilePyramid_quiet env (Spec.tilerOf config) Henc
              (Spec.renderedFaces image (Spec.cubeResolutionOf env config image))
              (Spec.tileSizeOf config) (Spec.maxLevelOf env config image)
              (Some (progressOf self (onProgress config))) Hprogress w5)
    as (w6 & pyramid & H6 & S6).
  assert (H7 : exists fallback,
             (if Spec.fallbackOf config
              then Tiler.generateFallbackTiles env (Spec.tilerOf config)
                     (Spec.renderedFaces image
                        (Spec.cubeResolutionOf env config image)) 1024
              else ret []) w6 = (w6, Ok fallback)).
  { destruct (Spec.fallbackOf config); [|eexists; reflexivity].
    unfold Tiler.generateFallbackTiles.
    destruct (fallbackLoop_total env (Spec.tilerOf config) Henc 1024
                (Spec.renderedFaces image
                   (Spec.cubeResolutionOf env config image)) [])
      as [tiles ->]. eexists. reflexivity. }
  destruct H7 as [fallback H7].
  assert (Hmem6 : memory w6 = emptyTracker)
    by (destruct S6 as (_ & _ & -> & _); exact Hmem5).
  assert (Hpack : exists w' r,
             (if String.eqb (output config) "zip" then
                buildZipResult env (pyramid ++ fallback)
                  (Spec.descriptorOf env config image)
                  (Spec.metadataOf env config image (pyramid ++ fallback))
                  (progressOf self (onProgress config))
              else if String.eqb (output config) "raw" then
                ret (buildRawResult (pyramid ++ fallback)
                       (Spec.descriptorOf env config image)
                       (Spec.metadataOf env config image (pyramid ++ fallback)))
              else if String.eqb (output config) "stream" then
                ret (buildStreamResult (pyramid ++ fallback)
                       (Spec.descriptorOf env config image)
                       (Spec.metadataOf env config image (pyramid ++ fallback)))
              else throw ("Unknown output mode: " ++ output config)%string) w6
             = (w', Ok r) /\ memory w' = emptyTracker).
  { destruct Hmode as [<-|[<-|[<-|[]]]]; cbn [String.eqb Ascii.eqb Bool.eqb].
    - destruct (Quiet_buildZipResult env (pyramid ++ fallback)
                  (Spec.descriptorOf env config image)
                  (Spec.metadataOf env config image (pyramid ++ fallback))
                  (progressOf self (onProgress config)) Hzip Hprogress w6)
        as (w7 & r & H8 & (_ & _ & Hmem7 & _)).
      exists w7, r. split; [exact H8 | now rewrite Hmem7].
    - eexists _, _. split; [reflexivity | exact Hmem6].
    - eexists _, _. split; [reflexivity | exact Hmem6]. }
  destruct Hpack as (w' & r & H8 & Hmem').
  exists w', r. split; [|exact Hmem'].
  apply try_Ok_intro.
  rewrite (bind_Ok _ _ _ _ _ H1). rewrite (bind_Ok _ _ _ _ _ H2).
  rewrite Hload. erewrite bind_Ok by reflexivity. cbn beta.
  rewrite (bind_Ok _ _ _ _ _ H3).
  erewrite bind_Ok by reflexivity. cbn beta.
  rewrite (bind_Ok _ _ _ _ _ H5). rewrite (bind_Ok _ _ _ _ _ H6).
  rewrite (bind_Ok _ _ _ _ _ H7). exact H8.
Qed.

Lemma process_completes_witness :
  disposed Fixtures.listeningTiler = false
  /\ validConfig Fixtures.streamFallbackConfig = true
  /\ 1 <= Spec.cubeResolutionOf
            Fixtures.env0 (Spec.withOutput Fixtures.streamFallbackConfig "zip")
            Fixtures.image0 <= 16384
  /\ encoderTotal Fixtures.env0 /\ zipTotal Fixtures.env0
  /\ exists w' r,
       process Fixtures.env0 Fixtures.listeningTiler
               (Spec.withOutput Fixtures.streamFallbackConfig "zip")
               initialWorld = (w', Ok r)
       /\ memory w' = emptyTracker.
Proof.
  assert (Henc : encoderTotal Fixtures.env0) by (intros r; eexists; reflexivity).
  assert (Hzip : zipTotal Fixtures.env0) by (intros r; eexists; reflexivity).
  split; [reflexivity|]. split; [reflexivity|]. split; [cbn; lia|].
  split; [exact Henc|]. split; [exact Hzip|].
  apply (process_completes Fixtures.env0 Fixtures.listeningTiler
           (Spec.withOutput Fixtures.streamFallbackConfig "zip") initialWorld
           Fixtures.image0);
    [reflexivity | reflexivity | exact I | reflexivity | cbn; lia | cbn; lia
     | exact I | exact Henc | exact Hzip].
Defined.

End PipelineLaws.


(** ** What a result says about the run *)

Module ResultLaws.
Import Num NumFacts ConfigGenerator PannellumTiler MonadFacts TilerFacts
       KeyFacts PannellumTilerFacts MemoryManagerFacts PipelineFacts
       TilerLaws Laws.

Lemma process_Ok_mode env self config w w' r :
  process env self config w = (w', Ok r) ->
  In (output config) ["zip"; "raw"; "stream"]%string.
Proof.
  unfold process. destruct (disposed self); [unfold throw; discriminate|].
  intros Hrun. apply bind_Ok_inv in Hrun as ([] & w0 & Hvalid & _).
  now apply validateConfig_Ok in Hvalid as (_ & Hmode & _).
Qed.

Lemma buildZipResult_Ok env tiles configJson metadata progress w w' r :
  buildZipResult env tiles configJson metadata progress w = (w', Ok r) ->
  exists blob, r = ZipResult blob metadata.
Proof.
  unfold buildZipResult. intros Hrun.
  apply bind_Ok_inv in Hrun as ([] & w1 & _ & Hrun).
  apply bind_Ok_inv in Hrun as (blob & w2 & _ & Hrun).
  apply bind_Ok_inv in Hrun as ([] & w3 & _ & Hrun).
  inversion Hrun. eauto.
Qed.

Lemma pyramidKeys_length tileSize maxLevel cubeFaces :
  List.length (Spec.pyramidKeys tileSize maxLevel cubeFaces)
  = list_sum (map (fun face => tilesPerFace tileSize maxLevel
                                 (CubeFace.resolution face)) cubeFaces).
Proof.
  unfold Spec.pyramidKeys.
  induction cubeFaces as [|face rest IH]; [reflexivity|].
  cbn [flat_map map list_sum]. now rewrite length_app, faceKeys_length, IH.
Qed.

Lemma renderedFaces_count tileSize maxLevel image cubeResolution :
  list_sum (map (fun face => tilesPerFace tileSize maxLevel
                               (CubeFace.resolution face))
                (Spec.renderedFaces image cubeResolution))
  = (6 * tilesPerFace tileSize maxLevel cubeResolution)%nat.
Proof. unfold Spec.renderedFaces. cbn. lia. Qed.

(** X17: in every output mode the metadata of a successful run reports
    the resolved tile size, cube resolution and level count, the faces
    f, r, b, l, u, d, and as totalTiles six times the sum over the levels
    1..maxLevel of the squared per-side tile count, plus six when fallback
    tiles were requested. *)
Theorem metadata_counts_tiles
        (env : Env) (self : t) (config : ProcessConfig) (w w' : World)
        (r : ProcessResult) :
  process env self config w = (w', Ok r) ->
  exists image,
    snd (env_loadImage env (sourceImage config)) = inr image
    /\ md_tileSize (metadataOfResult r) = Spec.tileSizeOf config
    /\ md_cubeResolution (metadataOfResult r)
       = Spec.cubeResolutionOf env config image
    /\ md_maxLevel (metadataOfResult r) = Spec.maxLevelOf env config image
    /\ faces (metadataOfResult r) = ["f"; "r"; "b"; "l"; "u"; "d"]%string
    /\ totalTiles (metadataOfResult r)
       = Z.of_nat (6 * tilesPerFace (Spec.tileSizeOf config)
                                    (Spec.maxLevelOf env config image)
                                    (Spec.cubeResolutionOf env config image)
                   + (if Spec.fallbackOf config then 6 else 0)).
Proof.
  intros Hrun. pose proof (process_Ok_mode _ _ _ _ _ _ Hrun) as Hmode.
  apply process_Ok_inv in Hrun
    as (image & w1 & w2 & w3 & pyramid & fallback & Himage & _ & Hrun).
  cbv zeta in Hrun.
  destruct Hrun as (Hpyramid & Hfallback & Hraw & Hstream & Hzip & _).
  assert (Hmd : metadataOfResult r
                = Spec.metadataOf env config image (pyramid ++ fallback)).
  { destruct Hmode as [Hm|[Hm|[Hm|[]]]]; symmetry in Hm.
    - apply Hzip in Hm. apply buildZipResult_Ok in Hm as [blob ->]. reflexivity.
    - destruct (Hraw Hm) as [_ ->]. reflexivity.
    - destruct (Hstream Hm) as [_ ->]. reflexivity. }
  assert (Hlen : List.length pyramid
                 = (6 * tilesPerFace (Spec.tileSizeOf config)
                          (Spec.maxLevelOf env config image)
                          (Spec.cubeResolutionOf env config image))%nat).
  { rewrite <- (length_map Spec.tile_key).
    rewrite (generateTilePyramid_keys _ _ _ _ _ _ _ _ _ Hpyramid).
    rewrite pyramidKeys_length. apply renderedFaces_count. }
  assert (Hfb : List.length fallback
                = if Spec.fallbackOf config then 6%nat else 0%nat).
  { destruct (Spec.fallbackOf config).
    - apply fallback_keys in Hfallback as (_ & _ & Hsix).
      now rewrite <- (Forall2_length Hsix).
    - unfold ret in Hfallback. now inversion Hfallback. }
  exists image. split; [exact Himage|]. rewrite Hmd.
  unfold Spec.metadataOf. cbn.
  repeat split. now rewrite length_app, Hlen, Hfb.
Qed.

Lemma metadata_counts_tiles_witness :
  exists w' r,
    process Fixtures.env0 (new None) Fixtures.streamFallbackConfig initialWorld
    = (w', Ok r)
    /\ totalTiles (metadataOfResult r) = 36
    /\ md_maxLevel (metadataOfResult r) = 2.
Proof.
  pose (run := process Fixtures.env0 (new None) Fixtures.streamFallbackConfig
                       initialWorld).
  assert (Hrun : exists w' r, run = (w', Ok r)) by (vm_compute; eauto).
  destruct Hrun as (w' & r & Hrun). exists w', r. split; [exact Hrun|].
  destruct (metadata_counts_tiles _ _ _ _ _ _ Hrun)
    as (image & Himage & _ & _ & Hlevel & _ & Htotal).
  vm_compute in Himage. inversion Himage; subst image.
  split; [rewrite Htotal | rewrite Hlevel]; reflexivity.
Defined.

(** X18: the archive of a successful zip run is built from exactly the
    tile list, descriptor and metadata that raw mode returns for the same
    input. *)
Theorem zip_run_archives_raw_tiles
        (env : Env) (self : t) (config : ProcessConfig) (w w' : World)
        (r : ProcessResult) :
  output config = "zip"%string ->
  process env self config w = (w', Ok r) ->
  exists w3 c tiles md blob,
    process env self (Spec.withOutput config "raw") w
    = (w3, Ok (RawResult c tiles md))
    /\ r = ZipResult blob md
    /\ buildZipResult env tiles (json c) md
                      (progressOf self (onProgress config)) w3
       = (w', Ok (ZipResult blob md)).
Proof.
  intros Hmode Hrun.
  apply process_Ok_inv in Hrun
    as (image & w1 & w2 & w3 & pyramid & fallback & _ & _ & Hrun).
  cbv zeta in Hrun.
  destruct Hrun as (_ & _ & _ & _ & Hzip & Hraw & _).
  specialize (Hzip Hmode).
  destruct (buildZipResult_Ok _ _ _ _ _ _ _ _ Hzip) as [blob ->].
  eexists w3, _, _, _, blob. split; [exact Hraw|].
  split; [reflexivity | exact Hzip].
Qed.

Lemma zip_run_archives_raw_tiles_witness :
  output (Spec.withOutput Fixtures.streamFallbackConfig "zip") = "zip"%string
  /\ exists w' blob md c tiles,
       process Fixtures.env0 (new None)
               (Spec.withOutput Fixtures.streamFallbackConfig "zip")
               initialWorld = (w', Ok (ZipResult blob md))
       /\ snd (process Fixtures.env0 (new None) Fixtures.rawFallbackConfig
                       initialWorld) = Ok (RawResult c tiles md).
Proof.
  split; [reflexivity|].
  pose (run := process Fixtures.env0 (new None)
                       (Spec.withOutput Fixtures.streamFallbackConfig "zip")
                       initialWorld).
  assert (Hrun : exists w' r, run = (w', Ok r)) by (vm_compute; eauto).
  destruct Hrun as (w' & r & Hrun).
  destruct (zip_run_archives_raw_tiles
              Fixtures.env0 (new None)
              (Spec.withOutput Fixtures.streamFallbackConfig "zip")
              initialWorld w' r eq_refl Hrun)
    as (w3 & c & tiles & md & blob & Hraw & -> & _).
  exists w', blob, md, c, tiles. split; [exact Hrun|].
  unfold Fixtures.rawFallbackConfig.
  change (Spec.withOutput Fixtures.streamFallbackConfig "raw")
    with (Spec.withOutput
            (Spec.withOutput Fixtures.streamFallbackConfig "zip") "raw").
  now rewrite Hraw.
Defined.

End ResultLaws.

(** ** Disposal failures *)

Module DisposalLaws.
Import MemoryManager MonadFacts MemoryManagerFacts Laws.

Lemma forM_dispose_stops before bad after w e :
  forallb disposes_ok before = true ->
  res_dispose bad = Some e ->
  forM_ (before ++ bad :: after) dispose w
  = (mkWorld (calls w) (gpu w ++ map disposed_event before) (memory w)
             (next_id w), Throw e).
Proof.
  revert w. induction before as [|r before IH]; intros w Hok Hbad.
  - cbn. unfold bind, dispose. rewrite Hbad. destruct w. cbn.
    now rewrite app_nil_r.
  - cbn in Hok. apply andb_true_iff in Hok as [Hr Hok].
    cbn [app forM_]. unfold bind at 1, dispose at 1.
    unfold disposes_ok in Hr. destruct (res_dispose r); [discriminate|].
    unfold emitGpu at 1. rewrite IH by assumption. cbn.
    now rewrite <- app_assoc.
Qed.

(** X19: when a tracked texture's dispose() throws, disposeAll stops
    there: the textures tracked before it have been disposed, the error
    propagates, nothing tracked after it is disposed, and no set is
    cleared, so that a second call disposes the earlier textures again. *)
Theorem disposeAll_stops_at_first_failure
        (before after : list Resource) (bad : Resource) (e : Error)
        (w : World) :
  textures (memory w) = before ++ bad :: after ->
  forallb disposes_ok before = true ->
  res_dispose bad = Some e ->
  exists w1 w2,
    disposeAll w = (w1, Throw e)
    /\ memory w1 = memory w
    /\ gpu w1 = gpu w ++ map disposed_event before
    /\ disposeAll w1 = (w2, Throw e)
    /\ gpu w2 = gpu w ++ map disposed_event before
                      ++ map disposed_event before.
Proof.
  intros Htex Hok Hbad.
  assert (Hrun : forall w0,
             textures (memory w0) = before ++ bad :: after ->
             disposeAll w0
             = (mkWorld (calls w0) (gpu w0 ++ map disposed_event before)
                        (memory w0) (next_id w0), Throw e)).
  { intros w0 H0. unfold disposeAll.
    unfold bind at 1. unfold getMemory at 1.
    unfold bind at 1. rewrite H0.
    now rewrite (forM_dispose_stops before bad after w0 e Hok Hbad). }
  eexists _, _. split; [apply Hrun; exact Htex|].
  split; [reflexivity|]. split; [reflexivity|].
  split; [apply Hrun; exact Htex|]. cbn. now rewrite <- app_assoc.
Qed.

Lemma disposeAll_stops_at_first_failure_witness :
  textures (memory Fixtures.faultyWorld)
  = [mkResource KTexture 0 None] ++ Fixtures.faultyTexture
                                 :: [mkResource KTexture 2 None]
  /\ exists w1 w2,
       disposeAll Fixtures.faultyWorld = (w1, Throw "dispose failed"%string)
       /\ disposeAll w1 = (w2, Throw "dispose failed"%string)
       /\ gpu w2 = [Disposed KTexture 0; Disposed KTexture 0].
Proof.
  split; [reflexivity|].
  destruct (disposeAll_stops_at_first_failure
              [mkResource KTexture 0 None] [mkResource KTexture 2 None]
              Fixtures.faultyTexture "dispose failed"%string
              Fixtures.faultyWorld eq_refl eq_refl eq_refl)
    as (w1 & w2 & H1 & _ & _ & H2 & Hgpu).
  exists w1, w2. split; [exact H1|]. split; [exact H2 | exact Hgpu].
Defined.

End DisposalLaws.
